(** * WJA desktop automation: the facade of [base_class.py], [1.py] and [3.py]

    The three scripts of the repository each define a class [BaseClass] that
    wraps an external UI-automation driver.  This development embeds the
    three facades over one executable model of that driver (a scripted UI
    tree read through a millisecond clock) and proves the properties the
    specification states about waiting, error reporting, check boxes, text
    entry, the logger and the configuration. *)

From Stdlib Require Import ZArith List String Ascii Bool Lia DecimalString.
Import ListNotations.
Local Open Scope string_scope.
Local Open Scope list_scope.
Local Open Scope Z_scope.

(** ** Exceptions and results *)

(** The exceptions the facade can observe, each with what its [str] is made
    of.  [TimeoutError] is [pywinauto.timings.TimeoutError], raised by the
    driver and by [3.py] itself, with its message; [KeyError] is the lookup
    error of a dictionary subscript, with the key; [AttributeError] arises
    from a method call on [None]; [FileNotFoundError] from [open];
    [DriverError] stands for every other exception of the driver (stale
    element, ambiguous match, access denied, ...), with its message. *)
Inductive exn : Type :=
| TimeoutError (message : string)
| KeyError (key : string)
| AttributeError (message : string)
| FileNotFoundError (filename : string)
| DriverError (message : string).

Inductive result (A : Type) : Type :=
| Ok (a : A)
| Raise (e : exn).
Arguments Ok {A} a.
Arguments Raise {A} e.

Definition is_timeout (e : exn) : bool :=
  match e with TimeoutError _ => true | _ => false end.

(** ** Configuration

    [config.json] parsed by [json.load]: the four documented keys, each
    present or absent.  [default_timeout] and [retry_count] are integers
    (seconds and a count). *)
Record config : Type := mkConfig {
  application_path : option string;
  backend : option string;
  default_timeout : option Z;
  retry_count : option Z
}.

(** [self.config["key"]]: a missing key raises [KeyError]. *)
Definition subscript {A : Type} (key : string) (field : option A) : result A :=
  match field with
  | Some v => Ok v
  | None => Raise (KeyError key)
  end.

(** [self.config.get("key", default)]. *)
Definition get_or {A : Type} (field : option A) (default : A) : A :=
  match field with
  | Some v => v
  | None => default
  end.

(** ** Python values and their [repr]

    A string of the model is a sequence of code points below 256.  The
    keyword arguments of a locator are strings ([title="OK"]), integers
    ([found_index=0]), booleans or [None]. *)
Inductive pyval : Type :=
| PStr (s : string)
| PInt (n : Z)
| PBool (b : bool)
| PNone.
Coercion PStr : string >-> pyval.

Definition pyval_eq_dec (a b : pyval) : {a = b} + {a <> b}.
Proof. decide equality; [apply string_dec|apply Z.eq_dec|apply bool_dec]. Defined.

Definition backslash : ascii := ascii_of_nat 92.
Definition apostrophe : ascii := ascii_of_nat 39.
Definition double_quote : ascii := ascii_of_nat 34.

Definition hex_digit (n : nat) : ascii :=
  nth n (list_ascii_of_string "0123456789abcdef") "0"%char.
Definition hex2 (n : nat) : string :=
  String (hex_digit (n / 16)) (String (hex_digit (n mod 16)) EmptyString).

(** The printable code points below 256: the visible ASCII characters and
    the space, and the Latin-1 characters from the inverted exclamation mark
    on, but for the soft hyphen. *)
Definition printable (c : ascii) : bool :=
  let n := nat_of_ascii c in
  ((32 <=? n) && (n <? 127) || (161 <=? n) && negb (n =? 173))%nat.

(** One character inside the quotes [q] of a [repr]. *)
Definition repr_char (q c : ascii) : string :=
  let n := nat_of_ascii c in
  if Ascii.eqb c q || Ascii.eqb c backslash then String backslash (String c EmptyString)
  else if (n =? 9)%nat then String backslash "t"
  else if (n =? 10)%nat then String backslash "n"
  else if (n =? 13)%nat then String backslash "r"
  else if printable c then String c EmptyString
  else String backslash (String "x"%char (hex2 n)).

Definition occurs (c : ascii) (s : string) : bool :=
  existsb (Ascii.eqb c) (list_ascii_of_string s).

(** [repr] of a string: in apostrophes, or in double quotes when the string
    holds an apostrophe and no double quote. *)
Definition repr_str (s : string) : string :=
  let q := if occurs apostrophe s && negb (occurs double_quote s)
           then double_quote else apostrophe in
  (String q (String.concat EmptyString (map (repr_char q) (list_ascii_of_string s)))
   ++ String q EmptyString)%string.

Definition repr_int (n : Z) : string := NilZero.string_of_int (Z.to_int n).

Definition repr (v : pyval) : string :=
  match v with
  | PStr s => repr_str s
  | PInt n => repr_int n
  | PBool true => "True"
  | PBool false => "False"
  | PNone => "None"
  end.

(** ** Locators and window specifications

    A locator is the keyword mapping given to [child_window]; a window
    specification is the chain of criteria built by [desktop.window(...)]
    and [parent.child_window(...)].  It is resolved lazily, at each driver
    call. *)
Definition locator : Type := list (string * pyval).
Definition spec : Type := list locator.

(** One keyword argument, [key=value]. *)
Notation "k =: v" := (@pair string pyval k v) (at level 40, no associativity).

Definition window (kw : locator) : spec := [kw].
Definition child_window (parent : spec) (kw : locator) : spec := parent ++ [kw].

Definition pair_eq_dec (a b : string * pyval) : {a = b} + {a <> b}.
Proof. decide equality; first [apply pyval_eq_dec|apply string_dec]. Defined.

Definition spec_eq_dec (a b : spec) : {a = b} + {a <> b} :=
  list_eq_dec (list_eq_dec pair_eq_dec) a b.

Definition upd {A : Type} (f : spec -> A) (k : spec) (v : A) : spec -> A :=
  fun k' => if spec_eq_dec k' k then v else f k'.

(** ** The scripted UI tree *)

(** What the driver sees of a resolved control. *)
Record control : Type := mkControl {
  is_visible : bool;
  is_enabled : bool;
  is_active : bool
}.

(** The content of an edit field: its text and whether all of it is
    selected. *)
Record field : Type := mkField {
  content : list ascii;
  selected : bool
}.

(** The environment of a run: what each specification resolves to at each
    instant (milliseconds), which check boxes have three states, which
    driver calls (numbered from the start of the process) raise, and what
    the driver and the application make of a key sequence that the model
    below does not read (an exception, or the new content of the field). *)
Record env : Type := mkEnv {
  tree : spec -> Z -> option control;
  tristate : spec -> bool;
  fault : nat -> option exn;
  other_keys : spec -> string -> bool -> field -> result field
}.

Inductive level : Type := INFO | WARNING | ERROR.

Record logrec : Type := mkLog { lvl : level; msg : string }.

Inductive handler : Type := StreamHandler (format : string).

(** The actions that reach the application. *)
Inductive action : Type :=
| AStart (path : string)
| AFocus (w : spec)
| AClick (w : spec)
| ARightClick (w : spec)
| AKeys (w : spec) (keys : string)
| AToggle (w : spec)
| ASelect (w : spec) (value : string)
| AExpand (w : spec).

(** The state of the process: the clock, the number of driver calls made so
    far, the mutable part of the UI, the records sent to the logger, the
    report attachments, the handlers of the logger ["WJA_Automation"], the
    attribute [self.main_window], and the actions performed. *)
Record state : Type := mkState {
  clock : Z;
  calls : nat;
  toggle_state : spec -> Z;
  fields : spec -> field;
  expanded : spec -> bool;
  selection : spec -> string;
  log : list logrec;
  attached : list (string * string);
  handlers : list handler;
  main_window : option spec;
  trace : list action
}.

Definition set_clock (t : Z) (s : state) : state :=
  mkState t (calls s) (toggle_state s) (fields s) (expanded s) (selection s)
          (log s) (attached s) (handlers s) (main_window s) (trace s).
Definition set_calls (n : nat) (s : state) : state :=
  mkState (clock s) n (toggle_state s) (fields s) (expanded s) (selection s)
          (log s) (attached s) (handlers s) (main_window s) (trace s).
Definition set_toggle_state (f : spec -> Z) (s : state) : state :=
  mkState (clock s) (calls s) f (fields s) (expanded s) (selection s)
          (log s) (attached s) (handlers s) (main_window s) (trace s).
Definition set_fields (f : spec -> field) (s : state) : state :=
  mkState (clock s) (calls s) (toggle_state s) f (expanded s) (selection s)
          (log s) (attached s) (handlers s) (main_window s) (trace s).
Definition set_expanded (f : spec -> bool) (s : state) : state :=
  mkState (clock s) (calls s) (toggle_state s) (fields s) f (selection s)
          (log s) (attached s) (handlers s) (main_window s) (trace s).
Definition set_selection (f : spec -> string) (s : state) : state :=
  mkState (clock s) (calls s) (toggle_state s) (fields s) (expanded s) f
          (log s) (attached s) (handlers s) (main_window s) (trace s).
Definition set_log (l : list logrec) (s : state) : state :=
  mkState (clock s) (calls s) (toggle_state s) (fields s) (expanded s) (selection s)
          l (attached s) (handlers s) (main_window s) (trace s).
Definition set_attached (l : list (string * string)) (s : state) : state :=
  mkState (clock s) (calls s) (toggle_state s) (fields s) (expanded s) (selection s)
          (log s) l (handlers s) (main_window s) (trace s).
Definition set_handlers (l : list handler) (s : state) : state :=
  mkState (clock s) (calls s) (toggle_state s) (fields s) (expanded s) (selection s)
          (log s) (attached s) l (main_window s) (trace s).
Definition set_main_window (w : option spec) (s : state) : state :=
  mkState (clock s) (calls s) (toggle_state s) (fields s) (expanded s) (selection s)
          (log s) (attached s) (handlers s) w (trace s).
Definition set_trace (l : list action) (s : state) : state :=
  mkState (clock s) (calls s) (toggle_state s) (fields s) (expanded s) (selection s)
          (log s) (attached s) (handlers s) (main_window s) l.

(** ** The monad of facade code: state passing with exceptions *)

Definition M (A : Type) : Type := state -> result A * state.

Definition ret {A : Type} (a : A) : M A := fun s => (Ok a, s).

Definition raise {A : Type} (e : exn) : M A := fun s => (Raise e, s).

Definition bind {A B : Type} (m : M A) (k : A -> M B) : M B :=
  fun s =>
    match m s with
    | (Ok a, s') => k a s'
    | (Raise e, s') => (Raise e, s')
    end.

(** [try: body  except Exception as e: handler]. *)
Definition try_except {A : Type} (body : M A) (handle : exn -> M A) : M A :=
  fun s =>
    match body s with
    | (Ok a, s') => (Ok a, s')
    | (Raise e, s') => handle e s'
    end.

Definition lift {A : Type} (r : result A) : M A := fun s => (r, s).

Declare Scope facade_scope.
Delimit Scope facade_scope with facade.
Notation "x <- m ;; k" := (bind m (fun x => k))
  (at level 61, m at next level, right associativity) : facade_scope.
Notation "m ;; k" := (bind m (fun _ => k))
  (at level 61, right associativity) : facade_scope.
Local Open Scope facade_scope.

Definition logger_log (l : level) (m : string) : M unit :=
  fun s => (Ok tt, set_log (log s ++ [mkLog l m]) s).
Definition logger_info := logger_log INFO.
Definition logger_warning := logger_log WARNING.
Definition logger_error := logger_log ERROR.

(** [allure.attach(body, name=..., attachment_type=TEXT)]. *)
Definition allure_attach (body name : string) : M unit :=
  fun s => (Ok tt, set_attached (attached s ++ [(name, body)]) s).

(** [time.time()] and [time.sleep(ms)]. *)
Definition time_time : M Z := fun s => (Ok (clock s), s).
Definition time_sleep (ms : Z) : M unit :=
  fun s => (Ok tt, set_clock (clock s + ms) s).

(** ** The driver

    The external automation library, as far as the facade uses it.  Every
    entry point is one numbered driver call, which raises when the
    environment says so; otherwise it acts on the scripted UI tree. *)
Module Driver.

(** The words of a wait criteria string. *)
Inductive flag : Type := Exists | Visible | Enabled | Ready | Active.

Definition space : ascii := Ascii.ascii_of_nat 32.

Fixpoint split_words (acc : string) (s : string) : list string :=
  match s with
  | EmptyString =>
      match acc with EmptyString => [] | _ => [acc] end
  | String ch rest =>
      if Ascii.eqb ch space then
        match acc with
        | EmptyString => split_words EmptyString rest
        | _ => acc :: split_words EmptyString rest
        end
      else split_words (acc ++ String ch EmptyString)%string rest
  end.

Definition flag_of_word (w : string) : option flag :=
  if String.eqb w "exists" then Some Exists
  else if String.eqb w "visible" then Some Visible
  else if String.eqb w "enabled" then Some Enabled
  else if String.eqb w "ready" then Some Ready
  else if String.eqb w "active" then Some Active
  else None.

Fixpoint flags_of_words (ws : list string) : option (list flag) :=
  match ws with
  | [] => Some []
  | w :: r =>
      match flag_of_word w, flags_of_words r with
      | Some f, Some fs => Some (f :: fs)
      | _, _ => None
      end
  end.

Definition parse_criteria (wait_for : string) : option (list flag) :=
  flags_of_words (split_words EmptyString wait_for).

(** The driver's criteria table: [exists] holds of any resolved control,
    [visible] and [enabled] read the control, [ready] is visible and
    enabled, [active] reads the control.  Nothing holds of a specification
    that resolves to no control. *)
Definition reports (f : flag) (p : option control) : bool :=
  match p with
  | None => false
  | Some c =>
      match f with
      | Exists => true
      | Visible => is_visible c
      | Enabled => is_enabled c
      | Ready => is_visible c && is_enabled c
      | Active => is_active c
      end
  end.

Definition check_all (E : env) (w : spec) (fl : list flag) (t : Z) : bool :=
  forallb (fun f => reports f (tree E w t)) fl.

(** The default interval between two polls of a wait, in milliseconds. *)
Definition retry_interval : Z := 90.

(** What a wait raises when its time is up. *)
Definition timed_out : exn := TimeoutError "timed out".

(** The polling of a wait: test now; while time is left, sleep for the
    retry interval or for the time left, whichever is less, and test again;
    with no time left, time out.  [None] when [fuel] sleeps do not
    suffice. *)
Fixpoint poll (E : env) (w : spec) (fl : list flag) (start timeout : Z)
         (fuel : nat) (now : Z) : option (result unit * Z) :=
  if check_all E w fl now then Some (Ok tt, now)
  else
    let time_left := timeout - (now - start) in
    if 0 <? time_left then
      match fuel with
      | O => None
      | S fuel' =>
          poll E w fl start timeout fuel' (now + Z.min retry_interval time_left)
      end
    else Some (Raise timed_out, now).

Definition poll_fuel (timeout : Z) : nat := S (Z.to_nat timeout).

(** One numbered driver call. *)
Definition driver_call (E : env) : M unit :=
  fun s =>
    let s' := set_calls (S (calls s)) s in
    match fault E (calls s) with
    | Some e => (Raise e, s')
    | None => (Ok tt, s')
    end.

Definition record (a : action) : M unit :=
  fun s => (Ok tt, set_trace (trace s ++ [a]) s).

(** The first word of a criteria string that the table does not hold. *)
Definition unexpected_criteria (wait_for : string) : string :=
  match filter (fun w => match flag_of_word w with Some _ => false | None => true end)
               (split_words EmptyString wait_for) with
  | w :: _ => w
  | [] => EmptyString
  end.

(** The polls of a wait are numbered by [fuel]; this stands where the
    numbers run out, which they never do ([poll_total]). *)
Definition out_of_fuel : exn := DriverError "out of fuel".

(** [w.wait(wait_for, timeout=seconds)]. *)
Definition wait (E : env) (w : spec) (wait_for : string) (seconds : Z) : M unit :=
  driver_call E ;;
  match parse_criteria wait_for with
  | None => raise (DriverError ("Unexpected criteria - " ++ unexpected_criteria wait_for)%string)
  | Some fl =>
      fun s =>
        let timeout := seconds * 1000 in
        match poll E w fl (clock s) timeout (poll_fuel timeout) (clock s) with
        | Some (r, t) => (r, set_clock t s)
        | None => (Raise out_of_fuel, s)
        end
  end.

(** [Application(backend=...)] and [Desktop(backend=...)]. *)
Definition Application (E : env) (backend : string) : M unit := driver_call E.
Definition Desktop (E : env) (backend : string) : M unit := driver_call E.

Definition start (E : env) (path : string) : M unit :=
  driver_call E ;; record (AStart path).
Definition set_focus (E : env) (w : spec) : M unit :=
  driver_call E ;; record (AFocus w).
Definition click_input (E : env) (w : spec) : M unit :=
  driver_call E ;; record (AClick w).
Definition right_click_input (E : env) (w : spec) : M unit :=
  driver_call E ;; record (ARightClick w).

(** The toggle pattern: a control cycles On (1), Off (0) and, when it has
    three states, Indeterminate (2). *)
Definition next_toggle (tri : bool) (v : Z) : Z :=
  if v =? 1 then 0
  else if v =? 0 then (if tri then 2 else 1)
  else 1.

Definition get_toggle_state (E : env) (w : spec) : M Z :=
  driver_call E ;; (fun s => (Ok (toggle_state s w), s)).

Definition toggle (E : env) (w : spec) : M unit :=
  driver_call E ;;
  (fun s =>
     (Ok tt,
      set_toggle_state
        (upd (toggle_state s) w (next_toggle (tristate E w) (toggle_state s w))) s)) ;;
  record (AToggle w).

Definition select (E : env) (w : spec) (value : string) : M unit :=
  driver_call E ;;
  (fun s => (Ok tt, set_selection (upd (selection s) w value) s)) ;;
  record (ASelect w value).

Definition is_expanded (E : env) (w : spec) : M bool :=
  driver_call E ;; (fun s => (Ok (expanded s w), s)).

Definition expand (E : env) (w : spec) : M unit :=
  driver_call E ;;
  (fun s => (Ok tt, set_expanded (upd (expanded s) w true) s)) ;;
  record (AExpand w).

(** *** Key sequences

    [type_keys] hands its text to the driver's reader of key sequences,
    which turns it into a list of key actions, and plays them.  In a
    sequence [+], [^] and [%] press Shift, Control and Alt, which stay down
    until the next key has been handled; a name in braces is a named key;
    [~], the parentheses and a closing brace have meanings of their own; a
    space is left out unless [with_spaces] is set, and a tab and a newline
    are left out unless the flags for them are set, which the facade never
    does; every other character is typed.

    The model reads the sequences made of typed characters, modifiers and
    the named key BACKSPACE, and knows what the typed characters, Backspace
    and Control-a do to an edit field.  What it does not read or does not
    know is left to the environment ([other_keys]). *)
Inductive vkey : Type := VK_SHIFT | VK_CONTROL | VK_MENU | VK_BACK.

Inductive key : Type :=
| KeyAction (c : ascii)
| EscapedKeyAction (c : ascii)
| VirtualKeyAction (k : vkey) (down up : bool).

Definition modifier_of (c : ascii) : option vkey :=
  if Ascii.eqb c "+"%char then Some VK_SHIFT
  else if Ascii.eqb c "^"%char then Some VK_CONTROL
  else if Ascii.eqb c "%"%char then Some VK_MENU
  else None.

(** The modifiers are released in the reverse order of their pressing. *)
Definition release (modifiers : list vkey) : list key :=
  map (fun m => VirtualKeyAction m false true) (rev modifiers).

Definition tab : ascii := ascii_of_nat 9.
Definition newline : ascii := ascii_of_nat 10.

(** The characters with a meaning of their own that the model does not
    read. *)
Definition is_unread (c : ascii) : bool :=
  existsb (Ascii.eqb c) (list_ascii_of_string "~()}").

(** [code] is the name read so far inside braces, [modifiers] the modifiers
    held down.  [None] when the sequence is not one the model reads. *)
Fixpoint parse_keys (with_spaces : bool) (code : option (list ascii))
         (modifiers : list vkey) (l : list ascii) : option (list key) :=
  match code with
  | Some name =>
      match l with
      | [] => None
      | c :: r =>
          if Ascii.eqb c "}"%char && negb (match name with [] => true | _ => false end)
          then
            if String.eqb (string_of_list_ascii name) "BACKSPACE"
            then option_map (fun ks => VirtualKeyAction VK_BACK true true
                                       :: release modifiers ++ ks)
                            (parse_keys with_spaces None [] r)
            else None
          else parse_keys with_spaces (Some (name ++ [c])) modifiers r
      end
  | None =>
      match l with
      | [] => Some (release modifiers)
      | c :: r =>
          match modifier_of c with
          | Some m =>
              option_map (cons (VirtualKeyAction m true false))
                         (parse_keys with_spaces None (modifiers ++ [m]) r)
          | None =>
              if Ascii.eqb c "{"%char then parse_keys with_spaces (Some []) modifiers r
              else if is_unread c then None
              else if (Ascii.eqb c space && negb with_spaces)
                      || Ascii.eqb c tab || Ascii.eqb c newline
              then parse_keys with_spaces None modifiers r
              else
                option_map
                  (fun ks => (match modifiers with
                              | [] => KeyAction c
                              | _ => EscapedKeyAction c
                              end) :: release modifiers ++ ks)
                  (parse_keys with_spaces None [] r)
          end
      end
  end.

Definition vkey_eq_dec (a b : vkey) : {a = b} + {a <> b}.
Proof. decide equality. Defined.

(** A character that is typed as it is: not a control character. *)
Definition typed (c : ascii) : bool :=
  let n := nat_of_ascii c in ((32 <=? n) && negb (n =? 127))%nat.

(** The effect of one key action on an edit field, given the modifiers held
    down: a typed character replaces a selection or is appended; Backspace
    deletes a selection or the last character; Control-a selects
    everything; a modifier alone changes nothing.  [None] for what the model
    does not know. *)
Definition press (k : key) (st : list vkey * field) : option (list vkey * field) :=
  let (held, f) := st in
  match k with
  | KeyAction c =>
      match held with
      | [] =>
          if typed c
          then Some (held, if selected f then mkField [c] false
                           else mkField (content f ++ [c]) false)
          else None
      | _ => None
      end
  | EscapedKeyAction c =>
      match held with
      | [VK_CONTROL] =>
          if Ascii.eqb c "a"%char then Some (held, mkField (content f) true) else None
      | _ => None
      end
  | VirtualKeyAction VK_BACK true true =>
      match held with
      | [] => Some (held, if selected f then mkField [] false
                          else mkField (removelast (content f)) false)
      | _ => None
      end
  | VirtualKeyAction VK_BACK _ _ => None
  | VirtualKeyAction m true false => Some (held ++ [m], f)
  | VirtualKeyAction m false true => Some (remove vkey_eq_dec m held, f)
  | VirtualKeyAction _ _ _ => None
  end.

Fixpoint press_all (ks : list key) (st : list vkey * field) : option field :=
  match ks with
  | [] => Some (snd st)
  | k :: r =>
      match press k st with
      | Some st' => press_all r st'
      | None => None
      end
  end.

(** What a key sequence makes of a field. *)
Definition keys_effect (E : env) (w : spec) (keys : string) (with_spaces : bool)
           (f : field) : result field :=
  match parse_keys with_spaces None [] (list_ascii_of_string keys) with
  | Some ks =>
      match press_all ks ([], f) with
      | Some f' => Ok f'
      | None => other_keys E w keys with_spaces f
      end
  | None => other_keys E w keys with_spaces f
  end.

Definition type_keys (E : env) (w : spec) (keys : string) (with_spaces : bool) : M unit :=
  driver_call E ;;
  (fun s =>
     match keys_effect E w keys with_spaces (fields s w) with
     | Ok f => (Ok tt, set_fields (upd (fields s) w f) s)
     | Raise e => (Raise e, s)
     end) ;;
  record (AKeys w keys).

End Driver.

(** ** Rendering of log messages *)

(** [str] of the dictionary of keyword arguments, as an f-string prints
    it. *)
Definition show_pair (kv : string * pyval) : string :=
  (repr_str (fst kv) ++ ": " ++ repr (snd kv))%string.

Definition show_locator (l : locator) : string :=
  ("{" ++ String.concat ", " (map show_pair l) ++ "}")%string.

(** [str] of an exception. *)
Definition show_exn (e : exn) : string :=
  match e with
  | TimeoutError m => m
  | KeyError k => repr_str k
  | AttributeError m => m
  | FileNotFoundError f => ("[Errno 2] No such file or directory: " ++ repr_str f)%string
  | DriverError m => m
  end.

(** What a method call on [None] raises. *)
Definition none_has_no (attribute : string) : exn :=
  AttributeError ("'NoneType' object has no attribute " ++ repr_str attribute)%string.

(** [json.load] of [config.json]: a missing file raises, a document loads
    as it is, with no check of its keys. *)
Definition json_load (file : option config) : M config :=
  match file with
  | None => raise (FileNotFoundError "config.json")
  | Some c => ret c
  end.

(** The main window specification, [desktop.window(title_re=".*Web Jetadmin.*")]. *)
Definition jetadmin : spec := window ["title_re" =: ".*Web Jetadmin.*"].

(** ** [base_class.py] *)
Module Base.
Section Facade.
Variable E : env.

(** The logger ["WJA_Automation"] of the process gets a stream handler when
    it has no handler.  [setLevel(INFO)] lets every record of the facade
    through, so the log of the state keeps them all. *)
Definition _get_logger : M unit :=
  fun s =>
    let s1 :=
      match handlers s with
      | [] => set_handlers (handlers s ++ [StreamHandler "%(asctime)s %(levelname)s %(message)s"]) s
      | _ => s
      end in
    (Ok tt, s1).

Definition __init__ (file : option config) : M config :=
  c <- json_load file ;;
  b <- lift (subscript "backend" (backend c)) ;;
  Driver.Application E b ;;
  b' <- lift (subscript "backend" (backend c)) ;;
  Driver.Desktop E b' ;;
  (fun s => (Ok tt, set_main_window None s)) ;;
  _get_logger ;;
  ret c.

Variable c : config.

Definition launch_application : M unit :=
  try_except
    (logger_info "Launching HP Web Jetadmin application..." ;;
     p <- lift (subscript "application_path" (application_path c)) ;;
     Driver.start E p ;;
     (fun s => (Ok tt, set_main_window (Some jetadmin) s)) ;;
     t <- lift (subscript "default_timeout" (default_timeout c)) ;;
     Driver.wait E jetadmin "visible" t ;;
     Driver.set_focus E jetadmin ;;
     logger_info "Application launched and main window focused.")
    (fun e =>
       logger_error ("Failed to launch application: " ++ show_exn e)%string ;;
       raise e).

Definition connect_to_main_window : M unit :=
  try_except
    ((fun s => (Ok tt, set_main_window (Some jetadmin) s)) ;;
     t <- lift (subscript "default_timeout" (default_timeout c)) ;;
     Driver.wait E jetadmin "visible" t ;;
     Driver.set_focus E jetadmin ;;
     logger_info "Connected to main window.")
    (fun e =>
       logger_error ("Failed to connect to main window: " ++ show_exn e)%string ;;
       raise e).

Definition wait_for_element (parent : spec) (loc : locator) : M spec :=
  try_except
    (logger_info ("Waiting for element: " ++ show_locator loc)%string ;;
     let element := child_window parent loc in
     t <- lift (subscript "default_timeout" (default_timeout c)) ;;
     Driver.wait E element "exists enabled visible ready" t ;;
     logger_info ("Element found: " ++ show_locator loc)%string ;;
     ret element)
    (fun e =>
       logger_error ("Element not found: " ++ show_locator loc ++ " - " ++ show_exn e)%string ;;
       raise e).

Definition click_element (parent : spec) (loc : locator) : M unit :=
  try_except
    (element <- wait_for_element parent loc ;;
     Driver.set_focus E element ;;
     Driver.click_input E element ;;
     logger_info ("Clicked element: " ++ show_locator loc)%string)
    (fun e =>
       logger_error ("Failed to click element: " ++ show_locator loc ++ " - " ++ show_exn e)%string ;;
       raise e).

Definition enter_text (parent : spec) (text : string) (loc : locator) : M unit :=
  try_except
    (element <- wait_for_element parent loc ;;
     Driver.set_focus E element ;;
     Driver.type_keys E element text true ;;
     logger_info ("Entered text '" ++ text ++ "' in element: " ++ show_locator loc)%string)
    (fun e =>
       logger_error ("Failed to enter text in element: " ++ show_locator loc ++ " - " ++ show_exn e)%string ;;
       raise e).

Definition right_click_element (parent : spec) (loc : locator) : M unit :=
  try_except
    (element <- wait_for_element parent loc ;;
     Driver.set_focus E element ;;
     Driver.right_click_input E element ;;
     logger_info ("Right-clicked element: " ++ show_locator loc)%string)
    (fun e =>
       logger_error ("Failed to right-click element: " ++ show_locator loc ++ " - " ++ show_exn e)%string ;;
       raise e).

Definition select_context_menu (menu_title : string) : M unit :=
  try_except
    (let menu := window ["control_type" =: "Menu"] in
     item <- wait_for_element menu ["title" =: menu_title; "control_type" =: "MenuItem"] ;;
     Driver.click_input E item ;;
     logger_info ("Selected context menu item: " ++ menu_title)%string)
    (fun e =>
       logger_error ("Failed to select context menu item '" ++ menu_title ++ "': " ++ show_exn e)%string ;;
       raise e).

Definition wizard_next (wizard_window : spec) : M unit :=
  try_except
    (next_btn <- wait_for_element wizard_window ["title" =: "Next"; "control_type" =: "Button"] ;;
     Driver.click_input E next_btn ;;
     logger_info "Clicked 'Next' in wizard.")
    (fun e =>
       logger_error ("Failed to click 'Next' in wizard: " ++ show_exn e)%string ;;
       raise e).

Definition wizard_finish (wizard_window : spec) : M unit :=
  try_except
    (finish_btn <- wait_for_element wizard_window ["title" =: "Finish"; "control_type" =: "Button"] ;;
     Driver.click_input E finish_btn ;;
     logger_info "Clicked 'Finish' in wizard.")
    (fun e =>
       logger_error ("Failed to click 'Finish' in wizard: " ++ show_exn e)%string ;;
       raise e).

Definition bring_window_to_front (w : spec) : M unit :=
  try_except
    (Driver.set_focus E w ;;
     logger_info "Window brought to front.")
    (fun e =>
       logger_warning ("Failed to bring window to front: " ++ show_exn e)%string).

(** The operations of the facade, as calls. *)
Inductive op : Type :=
| LaunchApplication
| ConnectToMainWindow
| WaitForElement (parent : spec) (loc : locator)
| ClickElement (parent : spec) (loc : locator)
| EnterText (parent : spec) (text : string) (loc : locator)
| RightClickElement (parent : spec) (loc : locator)
| SelectContextMenu (menu_title : string)
| WizardNext (wizard_window : spec)
| WizardFinish (wizard_window : spec)
| BringWindowToFront (w : spec).

Definition returning_none (m : M unit) : M (option spec) :=
  bind m (fun _ => ret None).

Definition run (o : op) : M (option spec) :=
  match o with
  | LaunchApplication => returning_none launch_application
  | ConnectToMainWindow => returning_none connect_to_main_window
  | WaitForElement parent loc => bind (wait_for_element parent loc) (fun w => ret (Some w))
  | ClickElement parent loc => returning_none (click_element parent loc)
  | EnterText parent text loc => returning_none (enter_text parent text loc)
  | RightClickElement parent loc => returning_none (right_click_element parent loc)
  | SelectContextMenu t => returning_none (select_context_menu t)
  | WizardNext w => returning_none (wizard_next w)
  | WizardFinish w => returning_none (wizard_finish w)
  | BringWindowToFront w => returning_none (bring_window_to_front w)
  end.

End Facade.
End Base.

(** ** [1.py]

    The [allure.step] decorators only report the call and are left out;
    [allure.attach] is kept. *)
Module One.
Section Facade.
Variable E : env.

Definition _get_logger : M unit :=
  fun s =>
    let s1 :=
      match handlers s with
      | [] => set_handlers (handlers s ++ [StreamHandler "%(asctime)s %(levelname)s %(message)s"]) s
      | _ => s
      end in
    (Ok tt, s1).

Definition __init__ (file : option config) : M config :=
  c <- json_load file ;;
  (fun s => (Ok tt, set_main_window None s)) ;;
  b <- lift (subscript "backend" (backend c)) ;;
  Driver.Desktop E b ;;
  _get_logger ;;
  ret c.

Variable c : config.

Definition launch_application : M unit :=
  try_except
    (p <- lift (subscript "application_path" (application_path c)) ;;
     logger_info ("Launching application: " ++ p)%string ;;
     b <- lift (subscript "backend" (backend c)) ;;
     Driver.Application E b ;;
     p' <- lift (subscript "application_path" (application_path c)) ;;
     Driver.start E p' ;;
     (fun s => (Ok tt, set_main_window (Some jetadmin) s)) ;;
     t <- lift (subscript "default_timeout" (default_timeout c)) ;;
     Driver.wait E jetadmin "visible" t ;;
     Driver.set_focus E jetadmin ;;
     logger_info "Application launched and main window focused.")
    (fun e =>
       logger_error ("Failed to launch application: " ++ show_exn e)%string ;;
       allure_attach (show_exn e) "Launch Error" ;;
       raise e).

Definition connect_to_main_window : M unit :=
  try_except
    ((fun s => (Ok tt, set_main_window (Some jetadmin) s)) ;;
     t <- lift (subscript "default_timeout" (default_timeout c)) ;;
     Driver.wait E jetadmin "visible" t ;;
     Driver.set_focus E jetadmin ;;
     logger_info "Connected to main window.")
    (fun e =>
       logger_error ("Failed to connect to main window: " ++ show_exn e)%string ;;
       allure_attach (show_exn e) "Connect Error" ;;
       raise e).

(** [timeout or self.config["default_timeout"]]: [None] and [0] are falsy. *)
Definition timeout_or_default (timeout : option Z) : M Z :=
  match timeout with
  | Some t => if t =? 0 then lift (subscript "default_timeout" (default_timeout c)) else ret t
  | None => lift (subscript "default_timeout" (default_timeout c))
  end.

(** [child_window] called on [self.main_window], which is [None] until the
    application is launched or connected to. *)
Definition main_child_window (loc : locator) : M spec :=
  fun s =>
    match main_window s with
    | Some w => (Ok (child_window w loc), s)
    | None => (Raise (none_has_no "child_window"), s)
    end.

Definition wait_for_element (loc : locator) (timeout : option Z) : M spec :=
  t <- timeout_or_default timeout ;;
  try_except
    (ctrl <- main_child_window loc ;;
     Driver.wait E ctrl "exists enabled visible ready" t ;;
     logger_info ("Element found: " ++ show_locator loc)%string ;;
     ret ctrl)
    (fun e =>
       if is_timeout e then
         logger_error ("Timeout waiting for element: " ++ show_locator loc)%string ;;
         allure_attach (show_locator loc) "Wait Timeout" ;;
         raise e
       else
         logger_error ("Error waiting for element " ++ show_locator loc ++ ": " ++ show_exn e)%string ;;
         allure_attach (show_exn e) "Wait Error" ;;
         raise e).

Definition click_element (loc : locator) : M unit :=
  try_except
    (ctrl <- wait_for_element loc None ;;
     Driver.set_focus E ctrl ;;
     Driver.click_input E ctrl ;;
     logger_info ("Clicked element: " ++ show_locator loc)%string)
    (fun e =>
       logger_error ("Failed to click element " ++ show_locator loc ++ ": " ++ show_exn e)%string ;;
       allure_attach (show_exn e) "Click Error" ;;
       raise e).

Definition enter_text (loc : locator) (text : string) (clear : bool) : M unit :=
  try_except
    (ctrl <- wait_for_element loc None ;;
     Driver.set_focus E ctrl ;;
     (if clear then Driver.type_keys E ctrl "^a{BACKSPACE}" false else ret tt) ;;
     Driver.type_keys E ctrl text true ;;
     logger_info ("Entered text '" ++ text ++ "' into element: " ++ show_locator loc)%string)
    (fun e =>
       logger_error ("Failed to enter text into element " ++ show_locator loc ++ ": " ++ show_exn e)%string ;;
       allure_attach (show_exn e) "Enter Text Error" ;;
       raise e).

Definition expand_tree_item (loc : locator) : M unit :=
  try_except
    (ctrl <- wait_for_element loc None ;;
     is_exp <- Driver.is_expanded E ctrl ;;
     (if negb is_exp then Driver.expand E ctrl else ret tt) ;;
     logger_info ("Expanded tree item: " ++ show_locator loc)%string)
    (fun e =>
       logger_error ("Failed to expand tree item " ++ show_locator loc ++ ": " ++ show_exn e)%string ;;
       allure_attach (show_exn e) "Expand Error" ;;
       raise e).

Definition right_click_element (loc : locator) : M unit :=
  try_except
    (ctrl <- wait_for_element loc None ;;
     Driver.set_focus E ctrl ;;
     Driver.right_click_input E ctrl ;;
     logger_info ("Right-clicked element: " ++ show_locator loc)%string)
    (fun e =>
       logger_error ("Failed to right-click element " ++ show_locator loc ++ ": " ++ show_exn e)%string ;;
       allure_attach (show_exn e) "Right Click Error" ;;
       raise e).

Inductive op : Type :=
| LaunchApplication
| ConnectToMainWindow
| WaitForElement (loc : locator) (timeout : option Z)
| ClickElement (loc : locator)
| EnterText (loc : locator) (text : string) (clear : bool)
| ExpandTreeItem (loc : locator)
| RightClickElement (loc : locator).

Definition returning_none (m : M unit) : M (option spec) :=
  bind m (fun _ => ret None).

Definition run (o : op) : M (option spec) :=
  match o with
  | LaunchApplication => returning_none launch_application
  | ConnectToMainWindow => returning_none connect_to_main_window
  | WaitForElement loc timeout => bind (wait_for_element loc timeout) (fun w => ret (Some w))
  | ClickElement loc => returning_none (click_element loc)
  | EnterText loc text clear => returning_none (enter_text loc text clear)
  | ExpandTreeItem loc => returning_none (expand_tree_item loc)
  | RightClickElement loc => returning_none (right_click_element loc)
  end.

End Facade.
End One.

(** ** [3.py] *)
Module Three.
Section Facade.
Variable E : env.

Definition _get_logger : M unit :=
  fun s =>
    let s1 :=
      match handlers s with
      | [] => set_handlers (handlers s ++ [StreamHandler "%(asctime)s %(levelname)s %(message)s"]) s
      | _ => s
      end in
    (Ok tt, s1).

Definition __init__ (file : option config) : M config :=
  c <- json_load file ;;
  b <- lift (subscript "backend" (backend c)) ;;
  Driver.Desktop E b ;;
  (fun s => (Ok tt, set_main_window None s)) ;;
  _get_logger ;;
  ret c.

Variable c : config.

Definition connect_to_main_window : M spec :=
  try_except
    (logger_info "Connecting to main window..." ;;
     let window := jetadmin in
     t <- lift (subscript "default_timeout" (default_timeout c)) ;;
     Driver.wait E window "visible" t ;;
     Driver.set_focus E window ;;
     ret window)
    (fun e =>
       if is_timeout e then
         logger_error "Main window not found within timeout." ;;
         raise e
       else
         logger_error ("Error connecting to main window: " ++ show_exn e)%string ;;
         raise e).

Definition launch_application : M unit :=
  try_except
    (logger_info "Launching HP Web Jetadmin..." ;;
     b <- lift (subscript "backend" (backend c)) ;;
     Driver.Application E b ;;
     p <- lift (subscript "application_path" (application_path c)) ;;
     Driver.start E p ;;
     w <- connect_to_main_window ;;
     (fun s => (Ok tt, set_main_window (Some w) s)) ;;
     logger_info "Application launched and main window connected.")
    (fun e =>
       logger_error ("Failed to launch application: " ++ show_exn e)%string ;;
       raise e).

(** [TimeoutError(f"Element with locator {locator} not found.")]. *)
Definition not_found (loc : locator) : exn :=
  TimeoutError ("Element with locator " ++ show_locator loc ++ " not found.")%string.

(** The loop of [wait_for_element] and the two statements after it.  Each
    round that fails sleeps half a second, so [fuel] rounds suffice when
    [fuel] exceeds the milliseconds left ([wait_loop_total]); [None] when
    they do not. *)
Fixpoint wait_loop (fuel : nat) (end_time : Z) (parent : spec) (loc : locator)
         (s : state) : option (result spec * state) :=
  if clock s <? end_time then
    match fuel with
    | O => None
    | S fuel' =>
        let element := child_window parent loc in
        match Driver.wait E element "exists ready visible" 1 s with
        | (Ok _, s1) => Some (Ok element, s1)
        | (Raise _, s1) =>
            match time_sleep 500 s1 with
            | (_, s2) => wait_loop fuel' end_time parent loc s2
            end
        end
    end
  else
    Some ((logger_error ("Element with locator " ++ show_locator loc ++ " not found within timeout.")%string ;;
           raise (not_found loc)) s).

(** The fuel is the number of milliseconds to the deadline, plus one; the
    last branch is never taken ([three_wait_for_element_loop]). *)
Definition wait_for_element (parent : spec) (loc : locator) : M spec :=
  fun s =>
    let timeout := get_or (default_timeout c) 20 in
    let end_time := clock s + timeout * 1000 in
    match wait_loop (S (Z.to_nat (timeout * 1000))) end_time parent loc s with
    | Some r => r
    | None => (Raise Driver.out_of_fuel, s)
    end.

Definition click_element (parent : spec) (loc : locator) : M unit :=
  try_except
    (element <- wait_for_element parent loc ;;
     Driver.set_focus E element ;;
     Driver.click_input E element ;;
     logger_info ("Clicked element: " ++ show_locator loc)%string)
    (fun e =>
       logger_error ("Failed to click element " ++ show_locator loc ++ ": " ++ show_exn e)%string ;;
       raise e).

Definition enter_text (parent : spec) (text : string) (loc : locator) : M unit :=
  try_except
    (element <- wait_for_element parent loc ;;
     Driver.set_focus E element ;;
     Driver.type_keys E element "^a{BACKSPACE}" false ;;
     Driver.type_keys E element text true ;;
     logger_info ("Entered text '" ++ text ++ "' in element: " ++ show_locator loc)%string)
    (fun e =>
       logger_error ("Failed to enter text in element " ++ show_locator loc ++ ": " ++ show_exn e)%string ;;
       raise e).

Definition set_checkbox (parent : spec) (check : bool) (loc : locator) : M unit :=
  try_except
    (element <- wait_for_element parent loc ;;
     Driver.set_focus E element ;;
     current <- Driver.get_toggle_state E element ;;
     if (check && (current =? 0)) || (negb check && (current =? 1)) then
       Driver.toggle E element ;;
       logger_info ("Checkbox " ++ show_locator loc ++ " set to "
                    ++ (if check then "checked" else "unchecked") ++ ".")%string
     else
       logger_info ("Checkbox " ++ show_locator loc ++ " already in desired state.")%string)
    (fun e =>
       logger_error ("Failed to set checkbox " ++ show_locator loc ++ ": " ++ show_exn e)%string ;;
       raise e).

Definition select_combobox (parent : spec) (value : string) (loc : locator) : M unit :=
  try_except
    (combobox <- wait_for_element parent loc ;;
     Driver.set_focus E combobox ;;
     Driver.select E combobox value ;;
     logger_info ("Selected '" ++ value ++ "' in combobox: " ++ show_locator loc)%string)
    (fun e =>
       logger_error ("Failed to select '" ++ value ++ "' in combobox " ++ show_locator loc ++ ": " ++ show_exn e)%string ;;
       raise e).

Inductive op : Type :=
| LaunchApplication
| ConnectToMainWindow
| WaitForElement (parent : spec) (loc : locator)
| ClickElement (parent : spec) (loc : locator)
| EnterText (parent : spec) (text : string) (loc : locator)
| SetCheckbox (parent : spec) (check : bool) (loc : locator)
| SelectCombobox (parent : spec) (value : string) (loc : locator).

Definition returning_none (m : M unit) : M (option spec) :=
  bind m (fun _ => ret None).

Definition run (o : op) : M (option spec) :=
  match o with
  | LaunchApplication => returning_none launch_application
  | ConnectToMainWindow => bind connect_to_main_window (fun w => ret (Some w))
  | WaitForElement parent loc => bind (wait_for_element parent loc) (fun w => ret (Some w))
  | ClickElement parent loc => returning_none (click_element parent loc)
  | EnterText parent text loc => returning_none (enter_text parent text loc)
  | SetCheckbox parent check loc => returning_none (set_checkbox parent check loc)
  | SelectCombobox parent value loc => returning_none (select_combobox parent value loc)
  end.

End Facade.
End Three.

(** ** The navigation helper of the test in [3.py] *)
Module ThreeTest.
Section Script.
Variable E : env.
Variable c : config.

(** [child_window] called on [self.main_window]. *)
Definition main_child_window (kw : locator) : M spec :=
  fun s =>
    match main_window s with
    | Some w => (Ok (child_window w kw), s)
    | None => (Raise (none_has_no "child_window"), s)
    end.

Definition agents_window : spec := window ["title" =: "OXPd Statistics Agents"].

Definition _navigate_to_oxpd_statistics_agents : M unit :=
  try_except
    (logger_info "Navigating to OXPd Statistics Agents via menu..." ;;
     menu_bar <- main_child_window ["control_type" =: "MenuBar"] ;;
     Three.click_element E c menu_bar ["title" =: "Tools"; "control_type" =: "MenuItem"] ;;
     tools_menu <- main_child_window ["title" =: "Tools"; "control_type" =: "Menu"] ;;
     Three.click_element E c tools_menu ["title" =: "Options"; "control_type" =: "MenuItem"] ;;
     options_menu <- main_child_window ["title" =: "Options"; "control_type" =: "Menu"] ;;
     Three.click_element E c options_menu
       ["title" =: "Device Management"; "control_type" =: "MenuItem"] ;;
     device_mgmt_menu <-
       main_child_window ["title" =: "Device Management"; "control_type" =: "Menu"] ;;
     Three.click_element E c device_mgmt_menu
       ["title" =: "Configuration"; "control_type" =: "MenuItem"] ;;
     config_menu <- main_child_window ["title" =: "Configuration"; "control_type" =: "Menu"] ;;
     Three.click_element E c config_menu
       ["title" =: "OXPd Statistics Agents"; "control_type" =: "MenuItem"] ;;
     t <- lift (subscript "default_timeout" (default_timeout c)) ;;
     Driver.wait E agents_window "visible" t ;;
     Driver.set_focus E agents_window ;;
     logger_info "OXPd Statistics Agents window is visible.")
    (fun e =>
       logger_error ("Failed to navigate to OXPd Statistics Agents: " ++ show_exn e)%string ;;
       raise e).

(** A run of menu clicks, each on an item of a menu found under the main
    window, followed by [rest]: the shape of the body above. *)
Fixpoint click_then (path : list (locator * locator)) (rest : M unit) : M unit :=
  match path with
  | [] => rest
  | (menu, item) :: more =>
      w <- main_child_window menu ;;
      Three.click_element E c w item ;;
      click_then more rest
  end.

End Script.

(** The menus and items of the navigation, in the order of the script. *)
Definition menu_steps : list (locator * locator) :=
  [ (["control_type" =: "MenuBar"], ["title" =: "Tools"; "control_type" =: "MenuItem"]);
    (["title" =: "Tools"; "control_type" =: "Menu"],
     ["title" =: "Options"; "control_type" =: "MenuItem"]);
    (["title" =: "Options"; "control_type" =: "Menu"],
     ["title" =: "Device Management"; "control_type" =: "MenuItem"]);
    (["title" =: "Device Management"; "control_type" =: "Menu"],
     ["title" =: "Configuration"; "control_type" =: "MenuItem"]);
    (["title" =: "Configuration"; "control_type" =: "Menu"],
     ["title" =: "OXPd Statistics Agents"; "control_type" =: "MenuItem"]) ].

(** The controls the steps click, under a main window. *)
Definition targets (main : spec) (path : list (locator * locator)) : list action :=
  map (fun step => AClick (child_window (child_window main (fst step)) (snd step))) path.

End ThreeTest.

(** ** Sample data: the configuration of the repository and a quiet UI *)

Definition fresh : state :=
  mkState 0 0 (fun _ => 0) (fun _ => mkField [] false) (fun _ => false)
          (fun _ => EmptyString) [] [] [] None [].

Definition sample_config : config :=
  mkConfig (Some "C:/Program Files/HP/Web Jetadmin/wja.exe") (Some "uia") (Some 20) (Some 3).

Definition ready_control : control := mkControl true true false.

(** An environment without driver exceptions, with two-state check boxes
    and an application that ignores the key sequences the model does not
    read. *)
Definition calm (t : spec -> Z -> option control) : env :=
  mkEnv t (fun _ => false) (fun _ => None) (fun _ _ _ f => Ok f).

Definition always_ready : env := calm (fun _ _ => Some ready_control).
Definition never_there : env := calm (fun _ _ => None).

Definition ok_button : locator := ["title" =: "OK"; "control_type" =: "Button"].

(** ** Observations used by the statements *)

(** The three variants of [wait_for_element] behind one signature.  [1.py]
    takes the parent from [self.main_window] and has an optional timeout
    argument. *)
Inductive variant : Type :=
| InBase
| InOne (timeout : option Z)
| InThree.

Definition wait_for_element_of (v : variant) (E : env) (c : config)
           (parent : spec) (loc : locator) : M spec :=
  match v with
  | InBase => Base.wait_for_element E c parent loc
  | InOne timeout =>
      fun s => One.wait_for_element E c loc timeout (set_main_window (Some parent) s)
  | InThree => Three.wait_for_element E c parent loc
  end.

(** The four readiness flags of the control a specification resolves to at
    an instant. *)
Definition all_four (E : env) (w : spec) (t : Z) : bool :=
  Driver.reports Driver.Exists (tree E w t)
  && Driver.reports Driver.Enabled (tree E w t)
  && Driver.reports Driver.Visible (tree E w t)
  && Driver.reports Driver.Ready (tree E w t).

Definition is_error (r : logrec) : bool :=
  match lvl r with ERROR => true | _ => false end.

(** Between [s] and [s'] the log grew, by at least one record at error
    level. *)
Definition error_logged (s s' : state) : Prop :=
  exists l, log s' = log s ++ l /\ existsb is_error l = true.

Definition extends {A : Type} (m : M A) : Prop :=
  forall s r s', m s = (r, s') -> exists l, log s' = log s ++ l.

(** No driver exception is swallowed: if a driver call made by [m] raises,
    [m] raises that exception and makes no further call. *)
Definition strict (E : env) {A : Type} (m : M A) : Prop :=
  forall s r s', m s = (r, s') ->
    (calls s <= calls s')%nat /\
    forall n e, (calls s <= n < calls s')%nat -> fault E n = Some e ->
                r = Raise e /\ calls s' = S n.

Definition is_toggle_of (w : spec) (a : action) : bool :=
  match a with
  | AToggle w' => if spec_eq_dec w' w then true else false
  | _ => false
  end.

(** The number of toggles of [w] performed between two states. *)
Definition toggles_between (w : spec) (s s' : state) : nat :=
  (List.length (filter (is_toggle_of w) (trace s')) - List.length (filter (is_toggle_of w) (trace s)))%nat.



Definition same_but_retry_count (c1 c2 : config) : Prop :=
  application_path c1 = application_path c2 /\
  backend c1 = backend c2 /\
  default_timeout c1 = default_timeout c2.

Definition no_fault (E : env) : Prop := forall n, fault E n = None.

(** The timeout a call of [wait_for_element] works with, in seconds: the
    configured [default_timeout]; in [1.py] the timeout argument when one
    is given and is not zero; in [3.py] 20 when the configuration has no
    [default_timeout]. *)
Definition effective_timeout (v : variant) (c : config) : option Z :=
  match v with
  | InBase => default_timeout c
  | InOne (Some t) => if t =? 0 then default_timeout c else Some t
  | InOne None => default_timeout c
  | InThree => Some (get_or (default_timeout c) 20)
  end.

(** A UI in which every control appears, ready, just after the twentieth
    second. *)
Definition late_ui : env :=
  calm (fun _ t => if 20000 <? t then Some ready_control else None).

(** A UI whose driver raises on its first call. *)
Definition broken_ui : env :=
  mkEnv (fun _ _ => Some ready_control) (fun _ => false)
        (fun n => match n with O => Some (DriverError "access denied") | _ => None end)
        (fun _ _ _ f => Ok f).

(** A driver that raises on every call. *)
Definition dead_driver : env :=
  mkEnv (fun _ _ => Some ready_control) (fun _ => false)
        (fun _ => Some (DriverError "access denied")) (fun _ _ _ f => Ok f).

(** Which script's [BaseClass] is constructed. *)
Inductive script : Type := BaseClassPy | OnePy | ThreePy.

Definition construct (E : env) (k : script) (file : option config) : M config :=
  match k with
  | BaseClassPy => Base.__init__ E file
  | OnePy => One.__init__ E file
  | ThreePy => Three.__init__ E file
  end.




(** The configuration of the repository without its [default_timeout]. *)
Definition no_timeout_config : config :=
  mkConfig (Some "C:/Program Files/HP/Web Jetadmin/wja.exe") (Some "uia") None (Some 3).

Definition with_default_timeout (c : config) (t : Z) : config :=
  mkConfig (application_path c) (backend c) (Some t) (retry_count c).

(** The operations of [base_class.py] that begin by reading
    [default_timeout]: all but [launch_application], which starts the
    application first, and [bring_window_to_front], which never reads it. *)
Definition base_reads_timeout (o : Base.op) : bool :=
  match o with
  | Base.LaunchApplication | Base.BringWindowToFront _ => false
  | _ => true
  end.

(** The same for [1.py]; a call of [wait_for_element] with a timeout
    argument other than [None] and [0] does not read the key. *)
Definition one_reads_timeout (o : One.op) : bool :=
  match o with
  | One.LaunchApplication => false
  | One.WaitForElement _ (Some t) => t =? 0
  | _ => true
  end.

(** The operations of [3.py] that go through its [wait_for_element]. *)
Definition three_waits (o : Three.op) : bool :=
  match o with
  | Three.LaunchApplication | Three.ConnectToMainWindow => false
  | _ => true
  end.

(** A failure of [m] leaves a record at error level in the log. *)
Definition fails_loudly {A : Type} (m : M A) : Prop :=
  forall s e s', m s = (Raise e, s') -> error_logged s s'.

(** The one operation that handles its failure itself. *)
Definition base_swallows (o : Base.op) : bool :=
  match o with
  | Base.BringWindowToFront _ => true
  | _ => false
  end.

(** A direct call of [wait_for_element] in [1.py], whose configuration
    lookup stands before the [try]. *)
Definition one_direct_wait (o : One.op) : bool :=
  match o with
  | One.WaitForElement _ _ => true
  | _ => false
  end.

(** A handler that logs at error level whatever it does next. *)
Definition loud_handler {A : Type} (h : exn -> M A) : Prop :=
  forall e s r s', h e s = (r, s') -> error_logged s s'.

(** A handler that raises again the exception it caught, without a driver
    call. *)
Definition rethrows {A : Type} (h : exn -> M A) : Prop :=
  forall e s, exists s', h e s = (Raise e, s') /\ calls s' = calls s.

(** What an operation waits for before it goes on: a window to be
    visible, or a control to report the four flags. *)
Inductive awaited : Type :=
| WindowShown (w : spec)
| ControlReady (w : spec).

Definition met (E : env) (a : awaited) (t : Z) : bool :=
  match a with
  | WindowShown w => Driver.reports Driver.Visible (tree E w t)
  | ControlReady w => all_four E w t
  end.

(** The parent and the locator an element operation hands to
    [wait_for_element]. *)
Definition base_place (o : Base.op) : option (spec * locator) :=
  match o with
  | Base.ClickElement p l | Base.EnterText p _ l | Base.RightClickElement p l => Some (p, l)
  | Base.SelectContextMenu t =>
      Some (window ["control_type" =: "Menu"], ["title" =: t; "control_type" =: "MenuItem"])
  | Base.WizardNext w => Some (w, ["title" =: "Next"; "control_type" =: "Button"])
  | Base.WizardFinish w => Some (w, ["title" =: "Finish"; "control_type" =: "Button"])
  | _ => None
  end.

Definition one_place (o : One.op) : option locator :=
  match o with
  | One.ClickElement l | One.EnterText l _ _ | One.ExpandTreeItem l
  | One.RightClickElement l => Some l
  | _ => None
  end.

Definition three_place (o : Three.op) : option (spec * locator) :=
  match o with
  | Three.ClickElement p l | Three.EnterText p _ l | Three.SetCheckbox p _ l
  | Three.SelectCombobox p _ l => Some (p, l)
  | _ => None
  end.

(** What each operation waits for; [bring_window_to_front] waits for
    nothing. *)
Definition base_awaits (o : Base.op) : option awaited :=
  match o with
  | Base.LaunchApplication | Base.ConnectToMainWindow => Some (WindowShown jetadmin)
  | Base.WaitForElement p l => Some (ControlReady (child_window p l))
  | Base.BringWindowToFront _ => None
  | _ => option_map (fun pl => ControlReady (child_window (fst pl) (snd pl))) (base_place o)
  end.

Definition one_awaits (main : spec) (o : One.op) : awaited :=
  match o with
  | One.LaunchApplication | One.ConnectToMainWindow => WindowShown jetadmin
  | One.WaitForElement l _ | One.ClickElement l | One.EnterText l _ _
  | One.ExpandTreeItem l | One.RightClickElement l => ControlReady (child_window main l)
  end.

Definition three_awaits (o : Three.op) : awaited :=
  match o with
  | Three.LaunchApplication | Three.ConnectToMainWindow => WindowShown jetadmin
  | Three.WaitForElement p l | Three.ClickElement p l | Three.EnterText p _ l
  | Three.SetCheckbox p _ l | Three.SelectCombobox p _ l => ControlReady (child_window p l)
  end.

(** A configuration with the three keys the operations read. *)
Definition complete (c : config) : Prop :=
  application_path c <> None /\ backend c <> None /\ default_timeout c <> None.

(** A timeout reaches the caller: when what [m] waits for is not there at
    any instant of the [patience] milliseconds that follow the call, [m]
    raises, with a record at error level, and what it raises is a
    [TimeoutError] unless one of its driver calls raised. *)
Definition gives_up (E : env) (a : awaited) (patience : Z) {A : Type} (m : M A)
           (s : state) : Prop :=
  (forall t, clock s <= t <= clock s + patience -> met E a t = false) ->
  exists e s', m s = (Raise e, s') /\ error_logged s s' /\
    ((forall n, (calls s <= n < calls s')%nat -> fault E n = None) -> is_timeout e = true).

(** The same without the log: [m] does not return, it raises, and a
    timeout unless one of its driver calls raised. *)
Definition stalls (E : env) (a : awaited) (patience : Z) {A : Type} (m : M A) : Prop :=
  forall s r s',
    (forall t, clock s <= t <= clock s + patience -> met E a t = false) ->
    m s = (r, s') ->
    (calls s <= calls s')%nat /\
    exists e, r = Raise e /\
      ((forall n, (calls s <= n < calls s')%nat -> fault E n = None) -> is_timeout e = true).

(** [m] takes no time and raises only what one of its driver calls
    raised. *)
Definition advances (E : env) {A : Type} (m : M A) : Prop :=
  forall s r s', m s = (r, s') ->
    (calls s <= calls s')%nat /\
    match r with
    | Ok _ => clock s' = clock s
    | Raise _ => exists n, (calls s <= n < calls s')%nat /\ fault E n <> None
    end.

(** The timeout an operation of [1.py] works with, in seconds. *)
Definition one_timeout (c : config) (o : One.op) : option Z :=
  match o with
  | One.WaitForElement _ timeout => effective_timeout (InOne timeout) c
  | _ => default_timeout c
  end.

(** What the wait [w] of [m] raises, [m] raises, with a record at error
    level and without a further driver call. *)
Definition reraises {A : Type} (w : M spec) (m : M A) : Prop :=
  forall s e s1, w s = (Raise e, s1) ->
    exists s', m s = (Raise e, s') /\ error_logged s s' /\ calls s' = calls s1.

(** From the state in which its wait [w] returned, [m] swallows no driver
    exception. *)
Definition strict_after (E : env) {A : Type} (w : M spec) (m : M A) : Prop :=
  forall s el s1 r s', w s = (Ok el, s1) -> m s = (r, s') ->
    (calls s1 <= calls s')%nat /\
    forall n e, (calls s1 <= n < calls s')%nat -> fault E n = Some e ->
                r = Raise e /\ calls s' = S n.

(** ** Observations used by the further properties *)

(** [m] leaves the component [proj] of the state as it was. *)
Definition preserves {X : Type} (proj : state -> X) {A : Type} (m : M A) : Prop :=
  forall s r s', m s = (r, s') -> proj s' = proj s.

(** [m] only extends the log, and with nothing at error level when it
    returns. *)
Definition tidy {A : Type} (m : M A) : Prop :=
  forall s r s', m s = (r, s') ->
    exists l, log s' = log s ++ l /\
              forall a, r = Ok a -> existsb is_error l = false.

(** The operations of [1.py] that go through [self.main_window]. *)
Definition one_uses_main_window (o : One.op) : bool :=
  match o with
  | One.LaunchApplication | One.ConnectToMainWindow => false
  | _ => true
  end.

Definition is_expand_of (w : spec) (a : action) : bool :=
  match a with
  | AExpand w' => if spec_eq_dec w' w then true else false
  | _ => false
  end.

Definition is_click (a : action) : bool :=
  match a with
  | AClick _ => true
  | _ => false
  end.

(** The actions performed between two states, when the trace only grew. *)
Definition actions_between (s s' : state) : list action :=
  skipn (List.length (trace s)) (trace s').

(** The control an operation acts on, when it acts on one. *)
Definition base_target (o : Base.op) : option spec :=
  match o with
  | Base.ClickElement p l | Base.EnterText p _ l | Base.RightClickElement p l =>
      Some (child_window p l)
  | Base.SelectContextMenu t =>
      Some (child_window (window ["control_type" =: "Menu"])
                         ["title" =: t; "control_type" =: "MenuItem"])
  | Base.WizardNext w => Some (child_window w ["title" =: "Next"; "control_type" =: "Button"])
  | Base.WizardFinish w => Some (child_window w ["title" =: "Finish"; "control_type" =: "Button"])
  | _ => None
  end.

Definition one_target (main : spec) (o : One.op) : option spec :=
  match o with
  | One.ClickElement l | One.EnterText l _ _ | One.ExpandTreeItem l
  | One.RightClickElement l => Some (child_window main l)
  | _ => None
  end.

Definition three_target (o : Three.op) : option spec :=
  match o with
  | Three.ClickElement p l | Three.EnterText p _ l | Three.SetCheckbox p _ l
  | Three.SelectCombobox p _ l => Some (child_window p l)
  | _ => None
  end.

(** [m], when it returns, has performed exactly the actions [l]. *)
Definition performs {A : Type} (m : M A) (l : list action) : Prop :=
  forall s a s', m s = (Ok a, s') -> trace s' = trace s ++ l.

(** The actions of an operation that returns, for the operations whose
    actions do not depend on the state of the control. *)
Definition base_script (o : Base.op) : option (list action) :=
  match base_target o, o with
  | Some el, Base.ClickElement _ _ => Some [AFocus el; AClick el]
  | Some el, Base.EnterText _ text _ => Some [AFocus el; AKeys el text]
  | Some el, Base.RightClickElement _ _ => Some [AFocus el; ARightClick el]
  | Some el, Base.SelectContextMenu _ => Some [AClick el]
  | Some el, Base.WizardNext _ => Some [AClick el]
  | Some el, Base.WizardFinish _ => Some [AClick el]
  | _, _ => None
  end.

Definition one_script (main : spec) (o : One.op) : option (list action) :=
  match one_target main o, o with
  | Some el, One.ClickElement _ => Some [AFocus el; AClick el]
  | Some el, One.EnterText _ text clear =>
      Some (AFocus el :: (if clear then [AKeys el "^a{BACKSPACE}"] else []) ++ [AKeys el text])
  | Some el, One.RightClickElement _ => Some [AFocus el; ARightClick el]
  | _, _ => None
  end.

Definition three_script (o : Three.op) : option (list action) :=
  match three_target o, o with
  | Some el, Three.ClickElement _ _ => Some [AFocus el; AClick el]
  | Some el, Three.EnterText _ text _ =>
      Some [AFocus el; AKeys el "^a{BACKSPACE}"; AKeys el text]
  | Some el, Three.SelectCombobox _ value _ => Some [AFocus el; ASelect el value]
  | _, _ => None
  end.

(** [m] only adds attachments to the report, and none when it returns. *)
Definition attaches_on_failure_only {A : Type} (m : M A) : Prop :=
  forall s r s', m s = (r, s') ->
    exists l, attached s' = attached s ++ l /\
              forall a, r = Ok a -> l = [].

(** * Properties *)

(** ** The driver's wait *)

Lemma poll_total E w fl start timeout : forall fuel now,
  timeout - (now - start) < Z.of_nat fuel ->
  exists r, Driver.poll E w fl start timeout fuel now = Some r.
Proof.
  induction fuel as [|fuel IH]; intros now H; simpl.
  - destruct (Driver.check_all E w fl now); [eauto|].
    destruct (0 <? timeout - (now - start)) eqn:L; [apply Z.ltb_lt in L; lia | eauto].
  - destruct (Driver.check_all E w fl now); [eauto|].
    destruct (0 <? timeout - (now - start)) eqn:L; [|eauto].
    apply Z.ltb_lt in L. apply IH. unfold Driver.retry_interval. lia.
Qed.

Lemma poll_sound E w fl start timeout : forall fuel now r t,
  start <= now ->
  Driver.poll E w fl start timeout fuel now = Some (r, t) ->
  now <= t /\ t <= Z.max now (start + timeout) /\
  ((r = Ok tt /\ Driver.check_all E w fl t = true) \/
   (r = Raise Driver.timed_out /\ start + timeout <= t /\
    Driver.check_all E w fl t = false)).
Proof.
  induction fuel as [|fuel IH]; intros now r t Hs H; simpl in H.
  - destruct (Driver.check_all E w fl now) eqn:C.
    + inversion H; subst. repeat split; try lia. now left.
    + destruct (0 <? timeout - (now - start)) eqn:L; [discriminate|].
      apply Z.ltb_ge in L. inversion H; subst. repeat split; try lia. right. repeat split; auto; lia.
  - destruct (Driver.check_all E w fl now) eqn:C.
    + inversion H; subst. repeat split; try lia. now left.
    + destruct (0 <? timeout - (now - start)) eqn:L.
      * apply Z.ltb_lt in L. apply IH in H; [|unfold Driver.retry_interval; lia].
        unfold Driver.retry_interval in H. destruct H as (H1 & H2 & H3).
        repeat split; try lia. exact H3.
      * apply Z.ltb_ge in L. inversion H; subst. repeat split; try lia. right. repeat split; auto; lia.
Qed.

Lemma poll_never E w fl start timeout : forall fuel now r t,
  (forall u, Driver.check_all E w fl u = false) ->
  start <= now <= Z.max start (start + timeout) ->
  Driver.poll E w fl start timeout fuel now = Some (r, t) ->
  r = Raise Driver.timed_out /\ t = Z.max start (start + timeout).
Proof.
  induction fuel as [|fuel IH]; intros now r t Hn Hs H; simpl in H; rewrite Hn in H.
  - destruct (0 <? timeout - (now - start)) eqn:L; [discriminate|].
    apply Z.ltb_ge in L. inversion H; subst. split; auto. lia.
  - destruct (0 <? timeout - (now - start)) eqn:L.
    + apply Z.ltb_lt in L. apply IH in H; auto. unfold Driver.retry_interval. lia.
    + apply Z.ltb_ge in L. inversion H; subst. split; auto. lia.
Qed.

Lemma poll_immediate E w fl start timeout fuel now :
  Driver.check_all E w fl now = true ->
  Driver.poll E w fl start timeout fuel now = Some (Ok tt, now).
Proof. intros H. destruct fuel; simpl; now rewrite H. Qed.

Lemma criteria_blocking :
  Driver.parse_criteria "exists enabled visible ready"
  = Some [Driver.Exists; Driver.Enabled; Driver.Visible; Driver.Ready].
Proof. reflexivity. Qed.

Lemma criteria_polling :
  Driver.parse_criteria "exists ready visible"
  = Some [Driver.Exists; Driver.Ready; Driver.Visible].
Proof. reflexivity. Qed.

Lemma criteria_visible :
  Driver.parse_criteria "visible" = Some [Driver.Visible].
Proof. reflexivity. Qed.

(** Both criteria strings of [wait_for_element] test the four flags. *)
Lemma check_blocking E w t :
  Driver.check_all E w [Driver.Exists; Driver.Enabled; Driver.Visible; Driver.Ready] t
  = all_four E w t.
Proof.
  unfold Driver.check_all, all_four; simpl.
  destruct (tree E w t) as [[v e a]|]; simpl; auto.
  destruct v, e; reflexivity.
Qed.

Lemma check_polling E w t :
  Driver.check_all E w [Driver.Exists; Driver.Ready; Driver.Visible] t
  = all_four E w t.
Proof.
  unfold Driver.check_all, all_four; simpl.
  destruct (tree E w t) as [[v e a]|]; simpl; auto.
  destruct v, e; reflexivity.
Qed.

(** What one call of the driver's wait does: it raises the exception the
    environment holds for this call, or it polls and ends, at an instant
    within the timeout, with the criteria met or with a timeout. *)
Lemma wait_inv E w crit secs fl s r s' :
  Driver.parse_criteria crit = Some fl ->
  Driver.wait E w crit secs s = (r, s') ->
  (exists e, fault E (calls s) = Some e /\ r = Raise e /\
             s' = set_calls (S (calls s)) s) \/
  (fault E (calls s) = None /\
   s' = set_clock (clock s') (set_calls (S (calls s)) s) /\
   clock s <= clock s' <= Z.max (clock s) (clock s + secs * 1000) /\
   ((r = Ok tt /\ Driver.check_all E w fl (clock s') = true) \/
    (r = Raise Driver.timed_out /\ clock s + secs * 1000 <= clock s' /\
     Driver.check_all E w fl (clock s') = false))).
Proof.
  intros P H. unfold Driver.wait, bind, Driver.driver_call in H.
  destruct (fault E (calls s)) as [e|] eqn:F.
  - inversion H; subst. left. eauto.
  - rewrite P in H. right. split; auto.
    destruct (poll_total E w fl (clock (set_calls (S (calls s)) s)) (secs * 1000)
                (Driver.poll_fuel (secs * 1000)) (clock (set_calls (S (calls s)) s)))
      as [[r0 t0] Hp].
    { unfold Driver.poll_fuel. rewrite Nat2Z.inj_succ. lia. }
    rewrite Hp in H. inversion H; subst. clear H.
    apply poll_sound in Hp; [|lia]. simpl in *.
    destruct Hp as (H1 & H2 & H3). repeat split; auto.
Qed.

Lemma wait_calls E w crit secs s r s' :
  Driver.wait E w crit secs s = (r, s') ->
  calls s' = S (calls s) /\ log s' = log s /\ trace s' = trace s /\
  main_window s' = main_window s /\ clock s <= clock s'.
Proof.
  intros H. unfold Driver.wait, bind, Driver.driver_call in H.
  destruct (fault E (calls s)) as [e|] eqn:F.
  - inversion H; subst. simpl. repeat split; auto; lia.
  - destruct (Driver.parse_criteria crit) as [fl|].
    + destruct (Driver.poll E w fl (clock (set_calls (S (calls s)) s)) (secs * 1000)
                  (Driver.poll_fuel (secs * 1000)) (clock (set_calls (S (calls s)) s)))
        as [[r0 t0]|] eqn:Hp.
      * inversion H; subst. apply poll_sound in Hp; [|lia]. simpl in *.
        repeat split; auto; lia.
      * inversion H; subst. simpl. repeat split; auto; lia.
    + inversion H; subst. simpl. repeat split; auto; lia.
Qed.

(** ** The polling loop of [3.py] *)

Lemma wait_loop_total E end_time parent loc : forall fuel s,
  end_time - clock s < Z.of_nat fuel ->
  exists r, Three.wait_loop E fuel end_time parent loc s = Some r.
Proof.
  induction fuel as [|fuel IH]; intros s H; simpl.
  - destruct (clock s <? end_time) eqn:L; [apply Z.ltb_lt in L; lia | eauto].
  - destruct (clock s <? end_time) eqn:L; [|eauto].
    destruct (Driver.wait E (child_window parent loc) "exists ready visible" 1 s)
      as [[u|e] s1] eqn:W; [eauto|].
    apply wait_calls in W. unfold time_sleep. apply IH. simpl. lia.
Qed.

(** The loop returns the specification built from the locator once a wait
    found the four flags set, and otherwise ends after the deadline with one
    record at error level and a [TimeoutError]. *)
Lemma wait_loop_inv E end_time parent loc : forall fuel s r s',
  Three.wait_loop E fuel end_time parent loc s = Some (r, s') ->
  clock s <= clock s' /\ (calls s <= calls s')%nat /\
  trace s' = trace s /\ main_window s' = main_window s /\
  ((r = Ok (child_window parent loc) /\
    all_four E (child_window parent loc) (clock s') = true /\
    log s' = log s /\ clock s < end_time /\ clock s' < end_time + 1000) \/
   (r = Raise (Three.not_found loc) /\ end_time <= clock s' /\
    clock s' <= Z.max (clock s) (end_time + 1499) /\
    exists m, log s' = log s ++ [mkLog ERROR m])).
Proof.
  induction fuel as [|fuel IH]; intros s r s' H; simpl in H.
  - destruct (clock s <? end_time) eqn:L; [discriminate|].
    apply Z.ltb_ge in L. unfold bind, logger_error, logger_log, raise in H.
    inversion H; subst; simpl. repeat split; auto; try lia.
    right. repeat split; auto; try lia. eauto.
  - destruct (clock s <? end_time) eqn:L.
    + apply Z.ltb_lt in L.
      destruct (Driver.wait E (child_window parent loc) "exists ready visible" 1 s)
        as [[u|e] s1] eqn:W.
      * inversion H; subst. pose proof (wait_calls _ _ _ _ _ _ _ W) as (C1 & C2 & C3 & C4 & C5).
        apply (wait_inv _ _ _ _ _ _ _ _ criteria_polling) in W.
        destruct W as [(e & _ & Hr & _)|(_ & _ & Ht & [(_ & Hc)|(Hr & _)])]; try discriminate.
        rewrite check_polling in Hc.
        repeat split; auto; try lia. left. repeat split; auto; lia.
      * pose proof (wait_calls _ _ _ _ _ _ _ W) as (C1 & C2 & C3 & C4 & C5).
        assert (clock s1 <= clock s + 1000) as B.
        { apply (wait_inv _ _ _ _ _ _ _ _ criteria_polling) in W.
          destruct W as [(e' & _ & _ & ->)|(_ & _ & Ht & _)]; simpl; lia. }
        unfold time_sleep in H. apply IH in H. simpl in H.
        destruct H as (H1 & H2 & H3 & H4 & H5).
        repeat split; try lia; try congruence.
        destruct H5 as [(-> & Ha & Hl & Hlt & Hc)|(-> & He & Hb & m & Hm)].
        -- left. repeat split; auto; try lia. congruence.
        -- right. repeat split; auto; try lia. exists m. congruence.
    + apply Z.ltb_ge in L. unfold bind, logger_error, logger_log, raise in H.
      inversion H; subst; simpl. repeat split; auto; try lia.
      right. repeat split; auto; try lia. eauto.
Qed.

(** The fuel of [wait_for_element] in [3.py] always suffices. *)
Lemma three_wait_for_element_loop E c parent loc s :
  exists r s',
    Three.wait_loop E (S (Z.to_nat (get_or (default_timeout c) 20 * 1000)))
                    (clock s + get_or (default_timeout c) 20 * 1000) parent loc s
    = Some (r, s') /\
    Three.wait_for_element E c parent loc s = (r, s').
Proof.
  destruct (wait_loop_total E (clock s + get_or (default_timeout c) 20 * 1000) parent loc
              (S (Z.to_nat (get_or (default_timeout c) 20 * 1000))) s) as [[r s'] H].
  { rewrite Nat2Z.inj_succ. lia. }
  exists r, s'. split; auto. unfold Three.wait_for_element. cbv zeta. now rewrite H.
Qed.

(** ** Readiness of the control returned by [wait_for_element] *)

Ltac facade_unfold H :=
  unfold try_except, bind, logger_info, logger_error, logger_warning, logger_log,
    allure_attach, lift, subscript, ret, raise in H.

(** *** Inversion of the blocking variants *)

Lemma error_logged_intro s s' l m :
  log s' = log s ++ l ++ [mkLog ERROR m] -> error_logged s s'.
Proof.
  intros H. exists (l ++ [mkLog ERROR m]). split; auto.
  rewrite existsb_app. simpl. apply orb_true_r.
Qed.

Lemma base_wait_inv E c parent loc s r s' :
  Base.wait_for_element E c parent loc s = (r, s') ->
  let el := child_window parent loc in
  let s0 := set_log (log s ++ [mkLog INFO ("Waiting for element: " ++ show_locator loc)%string]) s in
  (default_timeout c = None /\ r = Raise (KeyError "default_timeout") /\
   error_logged s s' /\ calls s' = calls s /\ clock s' = clock s) \/
  (exists T r1 s1,
      default_timeout c = Some T /\
      Driver.wait E el "exists enabled visible ready" T s0 = (r1, s1) /\
      clock s' = clock s1 /\ calls s' = calls s1 /\ trace s' = trace s1 /\
      ((r1 = Ok tt /\ r = Ok el) \/
       (exists e, r1 = Raise e /\ r = Raise e /\ error_logged s s'))).
Proof.
  intros H el s0. unfold Base.wait_for_element, try_except in H.
  unfold bind at 1 in H. unfold logger_info, logger_log in H.
  unfold bind at 1 in H. unfold lift, subscript in H.
  destruct (default_timeout c) as [T|].
  - right. unfold bind at 1 in H. fold el s0 in H.
    destruct (Driver.wait E el "exists enabled visible ready" T s0) as [[[]|e] s1] eqn:W.
    + facade_unfold H. inversion H; subst. exists T, (Ok tt), s1. simpl. intuition.
    + facade_unfold H. inversion H; subst. exists T, (Raise e), s1. simpl.
      repeat split; auto. right. exists e. repeat split; auto.
      apply wait_calls in W. destruct W as (_ & Hl & _).
      eapply (error_logged_intro _ _ [_]). simpl. rewrite Hl. subst s0. simpl.
      rewrite <- app_assoc. reflexivity.
  - left. facade_unfold H. inversion H; subst. simpl. repeat split; auto.
    eapply (error_logged_intro _ _ [_]). simpl. rewrite <- app_assoc. reflexivity.
Qed.

Lemma timeout_or_default_inv c timeout s r s0 :
  One.timeout_or_default c timeout s = (r, s0) ->
  s0 = s /\
  ((exists T, r = Ok T /\
              ((timeout = Some T /\ T <> 0) \/
               (default_timeout c = Some T /\ (timeout = None \/ timeout = Some 0)))) \/
   (r = Raise (KeyError "default_timeout") /\ default_timeout c = None /\
    (timeout = None \/ timeout = Some 0))).
Proof.
  unfold One.timeout_or_default, lift, subscript, ret. intros H.
  destruct timeout as [t|].
  - destruct (t =? 0) eqn:Z0.
    + apply Z.eqb_eq in Z0. subst t.
      destruct (default_timeout c); inversion H; subst; (split; [reflexivity|]);
        [left; eauto 8 | right; auto].
    + apply Z.eqb_neq in Z0. inversion H; subst. split; auto. left. eauto 8.
  - destruct (default_timeout c); inversion H; subst; (split; [reflexivity|]);
      [left; eauto 8 | right; auto].
Qed.

Lemma one_wait_inv E c loc timeout s r s' :
  One.wait_for_element E c loc timeout s = (r, s') ->
  (r = Raise (KeyError "default_timeout") /\ s' = s /\ default_timeout c = None /\
   (timeout = None \/ timeout = Some 0)) \/
  (exists T, One.timeout_or_default c timeout s = (Ok T, s) /\
     ((main_window s = None /\ r = Raise (none_has_no "child_window") /\ error_logged s s' /\
       calls s' = calls s /\ clock s' = clock s) \/
      (exists parent r1 s1,
          main_window s = Some parent /\
          Driver.wait E (child_window parent loc) "exists enabled visible ready" T s = (r1, s1) /\
          clock s' = clock s1 /\ calls s' = calls s1 /\ trace s' = trace s1 /\
          ((r1 = Ok tt /\ r = Ok (child_window parent loc) /\ exists l, log s' = log s ++ l) \/
           (exists e, r1 = Raise e /\ r = Raise e /\ error_logged s s'))))).
Proof.
  intros H. unfold One.wait_for_element in H. unfold bind at 1 in H.
  destruct (One.timeout_or_default c timeout s) as [[T|e] s0] eqn:HT.
  - right. pose proof (timeout_or_default_inv _ _ _ _ _ HT) as [-> _].
    exists T. split; auto.
    unfold try_except in H. unfold bind at 1 in H. unfold One.main_child_window in H.
    destruct (main_window s) as [parent|].
    + right. unfold bind at 1 in H.
      destruct (Driver.wait E (child_window parent loc) "exists enabled visible ready" T s)
        as [[[]|e] s1] eqn:W.
      * facade_unfold H. inversion H; subst.
        exists parent, (Ok tt), s1. simpl. repeat split; auto. left. repeat split; auto.
        apply wait_calls in W. destruct W as (_ & -> & _). eauto.
      * exists parent, (Raise e), s1.
        pose proof (wait_calls _ _ _ _ _ _ _ W) as (_ & Hl & _).
        assert (r = Raise e /\ clock s' = clock s1 /\ calls s' = calls s1 /\
                trace s' = trace s1 /\ error_logged s s') as (-> & K1 & K2 & K3 & K4).
        { destruct (is_timeout e); facade_unfold H; inversion H; subst; simpl;
            (repeat split; auto);
            eapply (error_logged_intro _ _ []); simpl; rewrite Hl; reflexivity. }
        repeat split; auto. right. exists e. auto.
    + left. simpl in H. facade_unfold H. inversion H; subst. simpl. repeat split; auto.
      eapply (error_logged_intro _ _ []); simpl; reflexivity.
  - left. inversion H; subst.
    apply timeout_or_default_inv in HT. destruct HT as [-> [(T & Hr & _)|(Hr & Hd & Ht)]].
    + discriminate.
    + inversion Hr; subst. auto.
Qed.

(** C1.  In every variant of the facade ([base_class.py], [1.py] with any
    timeout argument, and the polling [3.py]), when [wait_for_element]
    returns a control, that control is the one the locator names under the
    parent, and at the instant of the return it reports all four readiness
    flags: existing, enabled, visible and ready. *)
Theorem wait_for_element_returns_ready_control :
  forall (v : variant) (E : env) (c : config) (parent : spec) (loc : locator)
         (s s' : state) (el : spec),
    wait_for_element_of v E c parent loc s = (Ok el, s') ->
    el = child_window parent loc /\ all_four E el (clock s') = true.
Proof.
  intros v E c parent loc s s' el H. destruct v as [|timeout|]; simpl in H.
  - apply base_wait_inv in H. cbv zeta in H.
    destruct H as [(_ & Hr & _)|(T & r1 & s1 & _ & W & Hc & _ & _ & [(-> & Hr)|(e & _ & Hr & _)])];
      try discriminate.
    inversion Hr; subst el. split; auto.
    apply (wait_inv _ _ _ _ _ _ _ _ criteria_blocking) in W.
    destruct W as [(e & _ & He & _)|(_ & _ & _ & [(_ & Hk)|(He & _)])]; try discriminate.
    rewrite check_blocking in Hk. now rewrite Hc.
  - apply one_wait_inv in H.
    destruct H as [(Hr & _)|(T & _ & [(_ & Hr & _)|(p & r1 & s1 & Hp & W & Hc & _ & _ &
                     [(-> & Hr & _)|(e & _ & Hr & _)])])]; try discriminate.
    simpl in Hp. inversion Hp; subst p. inversion Hr; subst el. split; auto.
    apply (wait_inv _ _ _ _ _ _ _ _ criteria_blocking) in W.
    destruct W as [(e & _ & He & _)|(_ & _ & _ & [(_ & Hk)|(He & _)])]; try discriminate.
    rewrite check_blocking in Hk. now rewrite Hc.
  - destruct (three_wait_for_element_loop E c parent loc s) as (r & s1 & L & W).
    rewrite W in H. inversion H; subst.
    apply wait_loop_inv in L.
    destruct L as (_ & _ & _ & _ & [(Hr & Ha & _)|(Hr & _)]); [|discriminate].
    inversion Hr; subst. auto.
Qed.

(** A run of C1: the polling variant on a UI whose OK button is ready. *)
Lemma wait_for_element_returns_ready_control_witness :
  wait_for_element_of InThree always_ready sample_config jetadmin ok_button fresh
  = (Ok (child_window jetadmin ok_button), set_calls 1 fresh)
  /\ all_four always_ready (child_window jetadmin ok_button) (clock (set_calls 1 fresh)) = true.
Proof.
  assert (wait_for_element_of InThree always_ready sample_config jetadmin ok_button fresh
          = (Ok (child_window jetadmin ok_button), set_calls 1 fresh)) as H
    by (vm_compute; reflexivity).
  split; [exact H|].
  exact (proj2 (wait_for_element_returns_ready_control
                  InThree always_ready sample_config jetadmin ok_button fresh _ _ H)).
Defined.

(** ** Timeouts *)




(** ** The polling variant against the blocking variant *)


(** They also differ in the class of the exception: what the driver raises
    is raised again by the blocking variant and turned into a timeout by the
    polling variant, here with a timeout of one second. *)
Lemma polling_and_blocking_disagree_on_class :
  fst (Base.wait_for_element dead_driver (mkConfig None (Some "uia") (Some 1) None)
         jetadmin ok_button fresh)
  = Raise (DriverError "access denied") /\
  fst (Three.wait_for_element dead_driver (mkConfig None (Some "uia") (Some 1) None)
         jetadmin ok_button fresh)
  = Raise (Three.not_found ok_button).
Proof. split; vm_compute; reflexivity. Qed.

Lemma wait_loop_first_round E end_time parent loc fuel s :
  clock s < end_time ->
  fault E (calls s) = None ->
  all_four E (child_window parent loc) (clock s) = true ->
  Three.wait_loop E (S fuel) end_time parent loc s
  = Some (Ok (child_window parent loc), set_calls (S (calls s)) s).
Proof.
  intros L F A. simpl. apply Z.ltb_lt in L. rewrite L.
  unfold Driver.wait, bind, Driver.driver_call. rewrite F, criteria_polling.
  rewrite poll_immediate; [reflexivity|].
  rewrite check_polling. exact A.
Qed.

(** When the loop of [3.py] gives up on a driver that raises nothing, the
    control was seen not ready at an instant at most half a second before
    the deadline. *)
Lemma wait_loop_gave_up_late E end_time parent loc :
  no_fault E ->
  forall fuel s e s',
    clock s < end_time ->
    Three.wait_loop E fuel end_time parent loc s = Some (Raise e, s') ->
    exists t, end_time - 500 <= t /\ all_four E (child_window parent loc) t = false.
Proof.
  intros NF. induction fuel as [|fuel IH]; intros s e s' L H; simpl in H.
  - apply Z.ltb_lt in L. rewrite L in H. discriminate.
  - pose proof L as L'. apply Z.ltb_lt in L'. rewrite L' in H.
    destruct (Driver.wait E (child_window parent loc) "exists ready visible" 1 s)
      as [[u|e0] s1] eqn:W; [discriminate|].
    apply (wait_inv _ _ _ _ _ _ _ _ criteria_polling) in W.
    destruct W as [(e1 & He & _)|(_ & _ & Ht & [(Hr & _)|(_ & Hlate & Hk)])].
    + rewrite NF in He. discriminate.
    + discriminate.
    + rewrite check_polling in Hk. unfold time_sleep in H.
      destruct (Z.lt_ge_cases (clock s1 + 500) end_time) as [Lt|Ge].
      * eapply IH; [|exact H]. simpl. exact Lt.
      * exists (clock s1). split; [lia|exact Hk].
Qed.





(** ** Check boxes *)

Lemma upd_same {A : Type} (f : spec -> A) (k : spec) (v : A) : upd f k v k = v.
Proof. unfold upd. destruct (spec_eq_dec k k); congruence. Qed.

Lemma three_wait_ready E c parent loc s :
  fault E (calls s) = None ->
  0 < get_or (default_timeout c) 20 ->
  all_four E (child_window parent loc) (clock s) = true ->
  Three.wait_for_element E c parent loc s
  = (Ok (child_window parent loc), set_calls (S (calls s)) s).
Proof.
  intros F T A. unfold Three.wait_for_element. cbv zeta.
  rewrite wait_loop_first_round; auto. lia.
Qed.

(** One call of [set_checkbox] on a ready control: it succeeds, takes no
    time, focuses the control and toggles it exactly when the state read is
    the opposite of the one asked for. *)
Lemma set_checkbox_run E c parent check loc s :
  no_fault E ->
  0 < get_or (default_timeout c) 20 ->
  all_four E (child_window parent loc) (clock s) = true ->
  let el := child_window parent loc in
  let needed :=
    (check && (toggle_state s el =? 0)) || (negb check && (toggle_state s el =? 1)) in
  exists s',
    Three.set_checkbox E c parent check loc s = (Ok tt, s') /\
    clock s' = clock s /\
    trace s' = trace s ++ [AFocus el] ++ (if needed then [AToggle el] else []) /\
    toggle_state s' el
    = (if needed then Driver.next_toggle (tristate E el) (toggle_state s el)
       else toggle_state s el) /\
    (needed = false -> toggle_state s' = toggle_state s).
Proof.
  intros NF T A el needed.
  unfold Three.set_checkbox, try_except. unfold bind at 1.
  rewrite three_wait_ready; auto. fold el.
  unfold Driver.set_focus, Driver.get_toggle_state, Driver.toggle, Driver.driver_call,
    Driver.record.
  unfold bind at 1. unfold bind at 1. rewrite NF.
  unfold bind at 1. unfold bind at 1. rewrite NF.
  cbn [toggle_state set_calls set_trace].
  fold needed. destruct needed.
  - unfold logger_info, logger_log, bind. rewrite NF.
    eexists; split; [reflexivity|]. cbn.
    rewrite upd_same, <- app_assoc. repeat split; auto. discriminate.
  - unfold logger_info, logger_log.
    eexists; split; [reflexivity|]. cbn. repeat split; auto.
Qed.

Lemma toggles_between_app w s s' l :
  trace s' = trace s ++ l ->
  toggles_between w s s' = List.length (filter (is_toggle_of w) l).
Proof.
  intros H. unfold toggles_between. rewrite H, filter_app, length_app. lia.
Qed.

(** Two calls in a row with the same desired state, when the first call
    toggles, and when it does not. *)
Example set_checkbox_twice_from_unchecked :
  let el := child_window jetadmin ok_button in
  let r1 := Three.set_checkbox always_ready sample_config jetadmin true ok_button fresh in
  let r2 := Three.set_checkbox always_ready sample_config jetadmin true ok_button (snd r1) in
  (fst r1, fst r2) = (Ok tt, Ok tt) /\
  toggles_between el fresh (snd r1) = 1%nat /\
  toggles_between el (snd r1) (snd r2) = 0%nat.
Proof. vm_compute. auto. Qed.

(** C5 as stated fails on a check box that is already checked: state 1,
    [check=True], two calls, and no toggle at all instead of exactly one. *)
Lemma set_checkbox_twice_on_checked_box_never_toggles :
  let el := child_window jetadmin ok_button in
  let s0 := set_toggle_state (fun _ => 1) fresh in
  let r1 := Three.set_checkbox always_ready sample_config jetadmin true ok_button s0 in
  let r2 := Three.set_checkbox always_ready sample_config jetadmin true ok_button (snd r1) in
  toggle_state s0 el = 1 /\
  (fst r1, fst r2) = (Ok tt, Ok tt) /\
  toggles_between el s0 (snd r2) = 0%nat /\
  toggles_between el s0 (snd r2) <> 1%nat.
Proof. vm_compute. repeat split; auto; discriminate. Qed.

(** C5, amended.  On a ready control and a driver that raises nothing, two
    calls of [set_checkbox] in a row with the same [check] both succeed and
    perform at most one toggle: the first call toggles exactly when the
    state read is the opposite of the desired one (0 for [check=True], 1 for
    [check=False]), and the second call never toggles. *)
Theorem set_checkbox_twice_toggles_at_most_once :
  forall (E : env) (c : config) (parent : spec) (check : bool) (loc : locator)
         (s : state),
    no_fault E ->
    0 < get_or (default_timeout c) 20 ->
    all_four E (child_window parent loc) (clock s) = true ->
    let el := child_window parent loc in
    let needed :=
      (check && (toggle_state s el =? 0)) || (negb check && (toggle_state s el =? 1)) in
    exists s1 s2,
      Three.set_checkbox E c parent check loc s = (Ok tt, s1) /\
      Three.set_checkbox E c parent check loc s1 = (Ok tt, s2) /\
      toggles_between el s s1 = (if needed then 1%nat else 0%nat) /\
      toggles_between el s1 s2 = 0%nat.
Proof.
  intros E c parent check loc s NF T A el needed.
  destruct (set_checkbox_run E c parent check loc s NF T A)
    as (s1 & R1 & C1 & T1 & V1 & _).
  fold el in T1, V1. fold needed in T1, V1.
  assert (all_four E (child_window parent loc) (clock s1) = true) as A1 by now rewrite C1.
  destruct (set_checkbox_run E c parent check loc s1 NF T A1)
    as (s2 & R2 & _ & T2 & _).
  fold el in T2.
  exists s1, s2. repeat split; auto.
  - rewrite (toggles_between_app _ _ _ _ T1).
    destruct needed; simpl; [|reflexivity].
    destruct (spec_eq_dec el el); [reflexivity|congruence].
  - rewrite (toggles_between_app _ _ _ _ T2). rewrite V1.
    assert ((check && (toggle_state s el =? 0)) || (negb check && (toggle_state s el =? 1))
            = needed) as N by reflexivity.
    destruct needed.
    + replace ((check && (Driver.next_toggle (tristate E el) (toggle_state s el) =? 0))
               || (negb check && (Driver.next_toggle (tristate E el) (toggle_state s el) =? 1)))
        with false; [reflexivity|].
      unfold Driver.next_toggle. destruct check; simpl in *.
      * rewrite orb_false_r in N. apply Z.eqb_eq in N. rewrite N. simpl.
        destruct (tristate E el); reflexivity.
      * apply Z.eqb_eq in N. rewrite N. reflexivity.
    + rewrite N. reflexivity.
Qed.

(** A run of C5 as amended: an unchecked box, checked once by two calls. *)
Lemma set_checkbox_twice_toggles_at_most_once_witness :
  exists s1 s2,
    Three.set_checkbox always_ready sample_config jetadmin true ok_button fresh = (Ok tt, s1) /\
    Three.set_checkbox always_ready sample_config jetadmin true ok_button s1 = (Ok tt, s2) /\
    toggles_between (child_window jetadmin ok_button) fresh s1 = 1%nat /\
    toggles_between (child_window jetadmin ok_button) s1 s2 = 0%nat.
Proof.
  apply (set_checkbox_twice_toggles_at_most_once always_ready sample_config jetadmin true
           ok_button fresh).
  - intros n. reflexivity.
  - reflexivity.
  - reflexivity.
Defined.

(** C9.  When the toggle state read is neither 0 nor 1 (for example the
    indeterminate state 2), [set_checkbox] on a ready control returns
    normally for both values of [check], performs no toggle, and leaves
    every toggle state as it was. *)
Theorem set_checkbox_leaves_indeterminate_state :
  forall (E : env) (c : config) (parent : spec) (check : bool) (loc : locator)
         (s : state),
    no_fault E ->
    0 < get_or (default_timeout c) 20 ->
    all_four E (child_window parent loc) (clock s) = true ->
    toggle_state s (child_window parent loc) <> 0 ->
    toggle_state s (child_window parent loc) <> 1 ->
    exists s',
      Three.set_checkbox E c parent check loc s = (Ok tt, s') /\
      toggles_between (child_window parent loc) s s' = 0%nat /\
      toggle_state s' = toggle_state s.
Proof.
  intros E c parent check loc s NF T A N0 N1.
  destruct (set_checkbox_run E c parent check loc s NF T A)
    as (s' & R & _ & Tr & _ & V).
  apply Z.eqb_neq in N0, N1. rewrite N0, N1, !andb_false_r in Tr, V. simpl in Tr, V.
  exists s'. repeat split; auto.
  rewrite (toggles_between_app _ _ _ _ Tr). reflexivity.
Qed.

(** A run of C9: a check box in state 2, asked to be checked. *)
Lemma set_checkbox_leaves_indeterminate_state_witness :
  exists s',
    Three.set_checkbox always_ready sample_config jetadmin true ok_button
      (set_toggle_state (fun _ => 2) fresh) = (Ok tt, s') /\
    toggles_between (child_window jetadmin ok_button) (set_toggle_state (fun _ => 2) fresh) s'
    = 0%nat /\
    toggle_state s' = toggle_state (set_toggle_state (fun _ => 2) fresh).
Proof.
  apply (set_checkbox_leaves_indeterminate_state always_ready sample_config jetadmin true
           ok_button (set_toggle_state (fun _ => 2) fresh)).
  - intros n. reflexivity.
  - reflexivity.
  - reflexivity.
  - simpl. lia.
  - simpl. lia.
Defined.

(** ** Text entry *)








Lemma one_wait_ready E c parent loc s :
  fault E (calls s) = None ->
  default_timeout c <> None ->
  main_window s = Some parent ->
  all_four E (child_window parent loc) (clock s) = true ->
  One.wait_for_element E c loc None s
  = (Ok (child_window parent loc),
     set_log (log s ++ [mkLog INFO ("Element found: " ++ show_locator loc)%string])
             (set_calls (S (calls s)) s)).
Proof.
  intros F D Mw A.
  unfold One.wait_for_element, One.timeout_or_default, lift, subscript.
  destruct (default_timeout c) as [T|]; [|congruence].
  unfold bind at 1. unfold try_except. unfold bind at 1.
  unfold One.main_child_window. rewrite Mw. unfold bind at 1.
  unfold Driver.wait, bind at 1, Driver.driver_call. rewrite F, criteria_blocking.
  rewrite poll_immediate; [reflexivity|]. rewrite check_blocking. exact A.
Qed.




(** A tab in the text is left out of what is typed, the facade passing
    [with_spaces] only. *)
Example enter_text_drops_a_tab :
  let text := String "a" (String Driver.tab "b") in
  let el := child_window jetadmin ok_button in
  string_of_list_ascii
    (content (fields (snd (Three.enter_text always_ready sample_config jetadmin text
                             ok_button fresh)) el))
  = "ab".
Proof. vm_compute. reflexivity. Qed.



(** Without the clearing, the result depends on what the field held. *)
Example base_enter_text_appends :
  let s0 := set_fields (fun _ => mkField (list_ascii_of_string "old") false) fresh in
  let el := child_window jetadmin ok_button in
  string_of_list_ascii
    (content (fields (snd (Base.enter_text always_ready sample_config jetadmin "HP" ok_button s0)) el))
  = "oldHP" /\
  string_of_list_ascii
    (content (fields (snd (Three.enter_text always_ready sample_config jetadmin "HP" ok_button s0)) el))
  = "HP".
Proof. split; vm_compute; reflexivity. Qed.

(** ** The configuration *)

(** C8.  Two configurations that differ only in [retry_count] give every
    wait and action operation of the three facades the same behaviour:
    the same result, the same failure and the same final state, from every
    state and in every environment. *)
Theorem operations_ignore_retry_count :
  forall (E : env) (c1 c2 : config),
    same_but_retry_count c1 c2 ->
    (forall o s, Base.run E c1 o s = Base.run E c2 o s) /\
    (forall o s, One.run E c1 o s = One.run E c2 o s) /\
    (forall o s, Three.run E c1 o s = Three.run E c2 o s).
Proof.
  intros E [a1 b1 d1 r1] [a2 b2 d2 r2] (Ha & Hb & Hd). simpl in Ha, Hb, Hd. subst.
  repeat split; intros o s; destruct o; reflexivity.
Qed.

(** A run of C8: the configuration of the repository with [retry_count] 3
    and with [retry_count] 99. *)
Lemma operations_ignore_retry_count_witness :
  let c2 := mkConfig (application_path sample_config) (backend sample_config)
                     (default_timeout sample_config) (Some 99) in
  (forall o s, Base.run always_ready sample_config o s = Base.run always_ready c2 o s) /\
  (forall o s, One.run always_ready sample_config o s = One.run always_ready c2 o s) /\
  (forall o s, Three.run always_ready sample_config o s = Three.run always_ready c2 o s).
Proof.
  intros c2.
  apply (operations_ignore_retry_count always_ready sample_config c2).
  repeat split; reflexivity.
Defined.

(** ** The logger *)






(** ** Missing keys *)

(** C7 as stated fails in [3.py]: without [default_timeout] its
    [wait_for_element] raises no lookup error; it returns a ready control,
    and on a missing control it behaves as with a timeout of 20 seconds. *)
Lemma missing_default_timeout_is_replaced_in_polling_variant :
  default_timeout no_timeout_config = None /\
  fst (Three.wait_for_element always_ready no_timeout_config jetadmin ok_button fresh)
  = Ok (child_window jetadmin ok_button) /\
  Three.wait_for_element never_there no_timeout_config jetadmin ok_button fresh
  = Three.wait_for_element never_there (with_default_timeout no_timeout_config 20)
      jetadmin ok_button fresh /\
  fst (Three.wait_for_element never_there no_timeout_config jetadmin ok_button fresh)
  = Raise (Three.not_found ok_button).
Proof.
  split; [reflexivity|]. split; [vm_compute; reflexivity|].
  split; vm_compute; reflexivity.
Qed.

(** C7, amended.  A configuration document loads whatever keys it lacks.
    Without [backend] every constructor raises [KeyError]; without
    [application_path] every [launch_application] does; without
    [default_timeout] every operation that reads it by subscript does
    ([connect_to_main_window] and [launch_application] everywhere,
    [wait_for_element] and the operations built on it in [base_class.py]
    and, without a timeout argument, in [1.py]).  The [wait_for_element] of
    [3.py] and the operations built on it replace a missing
    [default_timeout] by 20 seconds. *)
Theorem missing_keys_fail_at_first_subscript :
  forall (E : env) (c : config) (s : state),
    json_load (Some c) s = (Ok c, s) /\
    (backend c = None ->
     forall k, fst (construct E k (Some c) s) = Raise (KeyError "backend")) /\
    (application_path c = None ->
     fst (Base.launch_application E c s) = Raise (KeyError "application_path") /\
     fst (One.launch_application E c s) = Raise (KeyError "application_path") /\
     (backend c <> None -> fault E (calls s) = None ->
      fst (Three.launch_application E c s) = Raise (KeyError "application_path"))) /\
    (default_timeout c = None ->
     (forall o, base_reads_timeout o = true ->
                fst (Base.run E c o s) = Raise (KeyError "default_timeout")) /\
     (forall o, one_reads_timeout o = true ->
                fst (One.run E c o s) = Raise (KeyError "default_timeout")) /\
     fst (Three.connect_to_main_window E c s) = Raise (KeyError "default_timeout") /\
     (application_path c <> None -> backend c <> None -> no_fault E ->
      fst (Base.launch_application E c s) = Raise (KeyError "default_timeout") /\
      fst (One.launch_application E c s) = Raise (KeyError "default_timeout") /\
      fst (Three.launch_application E c s) = Raise (KeyError "default_timeout")) /\
     (forall o, three_waits o = true ->
                Three.run E c o s = Three.run E (with_default_timeout c 20) o s)).
Proof.
  intros E [a b d r] s. cbn [application_path backend default_timeout].
  split; [reflexivity|]. split; [|split].
  - intros ->. intros k. destruct k; reflexivity.
  - intros ->. split; [reflexivity|]. split; [reflexivity|].
    intros Hb Hf. destruct b as [b|]; [|congruence].
    unfold Three.launch_application, Driver.Application, Driver.driver_call,
      try_except, logger_info, logger_log, lift, subscript, bind.
    cbn [backend application_path calls set_log]. rewrite Hf. reflexivity.
  - intros ->. split; [|split; [|split; [|split]]].
    + intros o Ho. destruct o; try discriminate; reflexivity.
    + intros o Ho. destruct o as [| |loc [t|]| | | |]; try discriminate; try reflexivity.
      simpl in Ho. apply Z.eqb_eq in Ho. subst t. reflexivity.
    + reflexivity.
    + intros Ha Hb NF. destruct a as [a|]; [|congruence]. destruct b as [b|]; [|congruence].
      split; [|split].
      * unfold Base.launch_application, Driver.start, Driver.driver_call, Driver.record,
          try_except, logger_info, logger_log, lift, subscript, bind.
        cbn [application_path default_timeout calls set_log]. rewrite !NF. reflexivity.
      * unfold One.launch_application, Driver.Application, Driver.start,
          Driver.driver_call, Driver.record,
          try_except, logger_info, logger_log, lift, subscript, bind.
        cbn [application_path backend default_timeout calls set_log set_calls].
        rewrite !NF. reflexivity.
      * unfold Three.launch_application, Three.connect_to_main_window,
          Driver.Application, Driver.start, Driver.driver_call, Driver.record,
          try_except, logger_info, logger_log, lift, subscript, bind.
        cbn [application_path backend default_timeout calls set_log set_calls].
        rewrite !NF. reflexivity.
    + intros o Ho. destruct o; try discriminate; reflexivity.
Qed.

(** A run of C7 as amended, on the configuration of the repository without
    its [default_timeout] and on a configuration without any key. *)
Lemma missing_keys_fail_at_first_subscript_witness :
  fst (construct always_ready ThreePy (Some (mkConfig None None None None)) fresh)
  = Raise (KeyError "backend") /\
  fst (One.launch_application always_ready (mkConfig None None None None) fresh)
  = Raise (KeyError "application_path") /\
  fst (Base.run always_ready no_timeout_config (Base.ClickElement jetadmin ok_button) fresh)
  = Raise (KeyError "default_timeout") /\
  fst (Three.launch_application always_ready no_timeout_config fresh)
  = Raise (KeyError "default_timeout") /\
  Three.run always_ready no_timeout_config (Three.ClickElement jetadmin ok_button) fresh
  = Three.run always_ready (with_default_timeout no_timeout_config 20)
      (Three.ClickElement jetadmin ok_button) fresh.
Proof.
  pose proof (missing_keys_fail_at_first_subscript always_ready
                (mkConfig None None None None) fresh) as (_ & B & A & _).
  pose proof (missing_keys_fail_at_first_subscript always_ready
                no_timeout_config fresh) as (_ & _ & _ & D).
  destruct (D eq_refl) as (D1 & _ & _ & D4 & D5).
  split; [exact (B eq_refl ThreePy)|].
  split; [exact (proj1 (proj2 (A eq_refl)))|].
  split; [exact (D1 (Base.ClickElement jetadmin ok_button) eq_refl)|].
  split.
  - apply D4; [discriminate|discriminate|intros n; reflexivity].
  - exact (D5 (Three.ClickElement jetadmin ok_button) eq_refl).
Defined.

(** ** Failures: logging and propagation *)

Section Discipline.
Variable E : env.

(** *** The log only grows *)

Lemma extends_ret {A : Type} (a : A) : extends (ret a).
Proof. intros s r s' H. inversion H; subst. exists []. now rewrite app_nil_r. Qed.

Lemma extends_raise {A : Type} (e : exn) : extends (@raise A e).
Proof. intros s r s' H. inversion H; subst. exists []. now rewrite app_nil_r. Qed.

Lemma extends_lift {A : Type} (x : result A) : extends (lift x).
Proof. intros s r s' H. inversion H; subst. exists []. now rewrite app_nil_r. Qed.

Lemma extends_logger_log l m : extends (logger_log l m).
Proof. intros s r s' H. inversion H; subst. simpl. eauto. Qed.

Lemma extends_attach b n : extends (allure_attach b n).
Proof. intros s r s' H. inversion H; subst. exists []. simpl. now rewrite app_nil_r. Qed.

Lemma extends_bind {A B : Type} (m : M A) (k : A -> M B) :
  extends m -> (forall a, extends (k a)) -> extends (bind m k).
Proof.
  intros Hm Hk s r s' H. unfold bind in H.
  destruct (m s) as [[a|e] s1] eqn:R.
  - destruct (Hm _ _ _ R) as (l1 & L1). destruct (Hk _ _ _ _ H) as (l2 & L2).
    exists (l1 ++ l2). now rewrite L2, L1, app_assoc.
  - inversion H; subst. eauto.
Qed.

Lemma extends_try {A : Type} (body : M A) (h : exn -> M A) :
  extends body -> (forall e, extends (h e)) -> extends (try_except body h).
Proof.
  intros Hm Hk s r s' H. unfold try_except in H.
  destruct (body s) as [[a|e] s1] eqn:R.
  - inversion H; subst. eauto.
  - destruct (Hm _ _ _ R) as (l1 & L1). destruct (Hk _ _ _ _ H) as (l2 & L2).
    exists (l1 ++ l2). now rewrite L2, L1, app_assoc.
Qed.

Lemma extends_update (f : state -> state) :
  (forall s, log (f s) = log s) -> extends (fun s => (Ok tt, f s)).
Proof. intros Hf s r s' H. inversion H; subst. exists []. now rewrite Hf, app_nil_r. Qed.

Lemma extends_driver_call : extends (Driver.driver_call E).
Proof.
  intros s r s' H. unfold Driver.driver_call in H.
  destruct (fault E (calls s)); inversion H; subst; exists []; simpl; now rewrite app_nil_r.
Qed.

Lemma extends_wait w crit secs : extends (Driver.wait E w crit secs).
Proof.
  intros s r s' H. apply wait_calls in H. destruct H as (_ & -> & _).
  exists []. now rewrite app_nil_r.
Qed.

Lemma extends_read {A : Type} (f : state -> A) : extends (fun s => (Ok (f s), s)).
Proof. intros s r s' H. inversion H; subst. exists []. now rewrite app_nil_r. Qed.

Lemma extends_type_keys w keys sp : extends (Driver.type_keys E w keys sp).
Proof.
  unfold Driver.type_keys, Driver.record. apply extends_bind; [apply extends_driver_call|].
  intros _. apply extends_bind; [|intros; apply extends_update; reflexivity].
  intros s r s' H. destruct (Driver.keys_effect E w keys sp (fields s w));
    inversion H; subst; exists []; simpl; now rewrite app_nil_r.
Qed.

Ltac driver_extends :=
  repeat first
    [ apply extends_driver_call
    | apply extends_read
    | apply extends_update; reflexivity
    | apply extends_bind; [|intros ?] ].

Lemma extends_start p : extends (Driver.start E p).
Proof. unfold Driver.start, Driver.record. driver_extends. Qed.
Lemma extends_set_focus w : extends (Driver.set_focus E w).
Proof. unfold Driver.set_focus, Driver.record. driver_extends. Qed.
Lemma extends_click_input w : extends (Driver.click_input E w).
Proof. unfold Driver.click_input, Driver.record. driver_extends. Qed.
Lemma extends_right_click_input w : extends (Driver.right_click_input E w).
Proof. unfold Driver.right_click_input, Driver.record. driver_extends. Qed.
Lemma extends_get_toggle_state w : extends (Driver.get_toggle_state E w).
Proof. unfold Driver.get_toggle_state. driver_extends. Qed.
Lemma extends_toggle w : extends (Driver.toggle E w).
Proof. unfold Driver.toggle, Driver.record. driver_extends. Qed.
Lemma extends_select w v : extends (Driver.select E w v).
Proof. unfold Driver.select, Driver.record. driver_extends. Qed.
Lemma extends_is_expanded w : extends (Driver.is_expanded E w).
Proof. unfold Driver.is_expanded. driver_extends. Qed.
Lemma extends_expand w : extends (Driver.expand E w).
Proof. unfold Driver.expand, Driver.record. driver_extends. Qed.
Lemma extends_Application b : extends (Driver.Application E b).
Proof. apply extends_driver_call. Qed.

(** One step of the proof that a facade body only extends the log. *)
Ltac extends_step :=
  first
    [ apply extends_wait | apply extends_start | apply extends_set_focus
    | apply extends_click_input | apply extends_right_click_input
    | apply extends_get_toggle_state | apply extends_toggle | apply extends_select
    | apply extends_is_expanded | apply extends_expand | apply extends_type_keys
    | apply extends_Application
    | apply extends_ret | apply extends_raise | apply extends_lift
    | apply extends_logger_log | apply extends_attach
    | apply extends_try; [|intros ?]
    | apply extends_bind; [|intros ?]
    | apply extends_update; reflexivity
    | match goal with
      | |- extends (if ?b then _ else _) => destruct b
      | |- extends (match ?x with Some _ => _ | None => _ end) => destruct x
      end ].

Lemma extends_base_wait c parent loc : extends (Base.wait_for_element E c parent loc).
Proof. unfold Base.wait_for_element. repeat extends_step. Qed.

Lemma extends_one_wait c loc timeout : extends (One.wait_for_element E c loc timeout).
Proof.
  unfold One.wait_for_element, One.timeout_or_default, One.main_child_window.
  repeat extends_step.
  intros s r s' H. destruct (main_window s); inversion H; subst; exists [];
    now rewrite app_nil_r.
Qed.

Lemma extends_three_wait c parent loc : extends (Three.wait_for_element E c parent loc).
Proof.
  intros s r s' H.
  destruct (three_wait_for_element_loop E c parent loc s) as (r0 & s0 & L & W).
  rewrite W in H. inversion H; subst r0 s0.
  apply wait_loop_inv in L.
  destruct L as (_ & _ & _ & _ & [(_ & _ & -> & _)|(_ & _ & _ & m & ->)]); eauto.
  exists []. now rewrite app_nil_r.
Qed.

Lemma extends_three_connect c : extends (Three.connect_to_main_window E c).
Proof. unfold Three.connect_to_main_window. repeat extends_step. Qed.

(** *** Failures are logged at error level *)

Lemma error_logged_after s s1 s' :
  (exists l, log s1 = log s ++ l) -> error_logged s1 s' -> error_logged s s'.
Proof.
  intros (l1 & L1) (l2 & L2 & X). exists (l1 ++ l2). split.
  - now rewrite L2, L1, app_assoc.
  - rewrite existsb_app, X. apply orb_true_r.
Qed.

Lemma error_logged_before s s1 s' :
  error_logged s s1 -> (exists l, log s' = log s1 ++ l) -> error_logged s s'.
Proof.
  intros (l1 & L1 & X) (l2 & L2). exists (l1 ++ l2). split.
  - now rewrite L2, L1, app_assoc.
  - rewrite existsb_app, X. reflexivity.
Qed.

Lemma loud_try {A : Type} (body : M A) (h : exn -> M A) :
  extends body -> loud_handler h -> fails_loudly (try_except body h).
Proof.
  intros Hb Hh s e s' H. unfold try_except in H.
  destruct (body s) as [[a|e0] s1] eqn:R; [discriminate|].
  eapply error_logged_after; [eapply Hb; eauto|eapply Hh; eauto].
Qed.

Lemma loud_plain {A : Type} (m : exn -> string) :
  loud_handler (fun e => logger_error (m e) ;; @raise A e).
Proof.
  intros e s r s' H. facade_unfold H. inversion H; subst.
  exists [mkLog ERROR (m e)]. split; reflexivity.
Qed.

Lemma loud_attach {A : Type} (m b : exn -> string) (n : string) :
  loud_handler (fun e => logger_error (m e) ;; allure_attach (b e) n ;; @raise A e).
Proof.
  intros e s r s' H. facade_unfold H. inversion H; subst.
  exists [mkLog ERROR (m e)]. split; reflexivity.
Qed.

Lemma loud_returning {A B : Type} (m : M A) (f : A -> B) :
  fails_loudly m -> fails_loudly (bind m (fun a => ret (f a))).
Proof.
  intros Hm s e s' H. unfold bind, ret in H.
  destruct (m s) as [[a|e0] s1] eqn:R; inversion H; subst. eauto.
Qed.

Lemma loud_base_wait c parent loc : fails_loudly (Base.wait_for_element E c parent loc).
Proof.
  unfold Base.wait_for_element. apply loud_try; [repeat extends_step|].
  apply (loud_plain (fun e => _)).
Qed.

Lemma loud_three_wait c parent loc : fails_loudly (Three.wait_for_element E c parent loc).
Proof.
  intros s e s' H.
  destruct (three_wait_for_element_loop E c parent loc s) as (r0 & s0 & L & W).
  rewrite W in H. inversion H; subst r0 s0.
  apply wait_loop_inv in L.
  destruct L as (_ & _ & _ & _ & [(X & _)|(_ & _ & _ & m & L)]); [discriminate|].
  exists [mkLog ERROR m]. split; auto.
Qed.

Lemma loud_three_connect c : fails_loudly (Three.connect_to_main_window E c).
Proof.
  unfold Three.connect_to_main_window. apply loud_try; [repeat extends_step|].
  intros e s r s' H. destruct (is_timeout e); facade_unfold H; inversion H; subst;
    eexists [_]; split; reflexivity.
Qed.

Ltac extends_facade :=
  repeat first
    [ apply extends_base_wait | apply extends_one_wait | apply extends_three_wait
    | apply extends_three_connect | extends_step ].

Lemma loud_base c o : base_swallows o = false -> fails_loudly (Base.run E c o).
Proof.
  destruct o; intros Ho; try discriminate; simpl;
    try (apply loud_returning);
    try (apply (loud_returning _ (fun w => Some w)); apply loud_base_wait);
    (apply loud_try; [extends_facade | apply (loud_plain (fun e => _))]).
Qed.

Lemma loud_three c o : fails_loudly (Three.run E c o).
Proof.
  destruct o; simpl;
    try (apply (loud_returning _ (fun w => Some w)); first [apply loud_three_wait|apply loud_three_connect]);
    try (apply loud_returning);
    (apply loud_try; [extends_facade | apply (loud_plain (fun e => _))]).
Qed.

Lemma loud_one c o :
  one_direct_wait o = false -> fails_loudly (One.run E c o).
Proof.
  destruct o; intros Ho; try discriminate; simpl;
    apply loud_returning;
    (apply loud_try; [extends_facade | apply (loud_attach (fun e => _) (fun e => _))]).
Qed.

(** *** Driver exceptions are not swallowed *)

Lemma strict_quiet {A : Type} (m : M A) :
  (forall s r s', m s = (r, s') -> calls s' = calls s) -> strict E m.
Proof. intros Hm s r s' H. apply Hm in H. split; [lia|]. intros n e Hn. lia. Qed.

Lemma strict_ret {A : Type} (a : A) : strict E (ret a).
Proof. apply strict_quiet. intros s r s' H. now inversion H. Qed.

Lemma strict_raise {A : Type} (e : exn) : strict E (@raise A e).
Proof. apply strict_quiet. intros s r s' H. now inversion H. Qed.

Lemma strict_lift {A : Type} (x : result A) : strict E (lift x).
Proof. apply strict_quiet. intros s r s' H. now inversion H. Qed.

Lemma strict_logger_log l m : strict E (logger_log l m).
Proof. apply strict_quiet. intros s r s' H. now inversion H. Qed.

Lemma strict_attach b n : strict E (allure_attach b n).
Proof. apply strict_quiet. intros s r s' H. now inversion H. Qed.

Lemma strict_update (f : state -> state) :
  (forall s, calls (f s) = calls s) -> strict E (fun s => (Ok tt, f s)).
Proof. intros Hf. apply strict_quiet. intros s r s' H. inversion H; subst. apply Hf. Qed.

Lemma strict_read {A : Type} (f : state -> A) : strict E (fun s => (Ok (f s), s)).
Proof. apply strict_quiet. intros s r s' H. now inversion H. Qed.

Lemma strict_driver_call : strict E (Driver.driver_call E).
Proof.
  intros s r s' H. unfold Driver.driver_call in H.
  destruct (fault E (calls s)) as [e0|] eqn:F; inversion H; subst; simpl;
    (split; [lia|]); intros n e Hn Hf; assert (n = calls s) by lia; subst n;
    rewrite F in Hf; inversion Hf; subst; auto.
Qed.

Lemma strict_bind {A B : Type} (m : M A) (k : A -> M B) :
  strict E m -> (forall a, strict E (k a)) -> strict E (bind m k).
Proof.
  intros Hm Hk s r s' H. unfold bind in H.
  destruct (m s) as [[a|e0] s1] eqn:R.
  - destruct (Hm _ _ _ R) as (L1 & F1). destruct (Hk _ _ _ _ H) as (L2 & F2).
    split; [lia|]. intros n e Hn Hf.
    destruct (Nat.lt_ge_cases n (calls s1)) as [Lt|Ge].
    + destruct (F1 n e) as (X & _); auto; [lia|discriminate].
    + apply F2; auto. lia.
  - inversion H; subst. destruct (Hm _ _ _ R) as (L1 & F1). split; auto.
    intros n e Hn Hf. destruct (F1 n e Hn Hf) as (X & Y). inversion X; subst. auto.
Qed.

Lemma strict_try {A : Type} (body : M A) (h : exn -> M A) :
  strict E body -> rethrows h -> strict E (try_except body h).
Proof.
  intros Hb Hh s r s' H. unfold try_except in H.
  destruct (body s) as [[a|e0] s1] eqn:R.
  - inversion H; subst. apply (Hb _ _ _ R).
  - destruct (Hh e0 s1) as (s2 & X & C). rewrite X in H. inversion H; subst.
    destruct (Hb _ _ _ R) as (L1 & F1). rewrite C. split; auto.
Qed.

Lemma strict_wait w crit secs : strict E (Driver.wait E w crit secs).
Proof.
  intros s r s' H. pose proof (wait_calls _ _ _ _ _ _ _ H) as (C & _).
  split; [lia|]. intros n e Hn Hf. assert (n = calls s) by lia. subst n.
  split; auto.
  unfold Driver.wait, bind, Driver.driver_call in H. rewrite Hf in H. now inversion H.
Qed.

Lemma strict_type_keys w keys sp : strict E (Driver.type_keys E w keys sp).
Proof.
  unfold Driver.type_keys, Driver.record. apply strict_bind; [apply strict_driver_call|].
  intros _. apply strict_bind; [|intros; apply strict_update; reflexivity].
  apply strict_quiet. intros s r s' H.
  destruct (Driver.keys_effect E w keys sp (fields s w)); now inversion H.
Qed.

Ltac driver_strict :=
  repeat first
    [ apply strict_driver_call
    | apply strict_read
    | apply strict_update; reflexivity
    | apply strict_bind; [|intros ?] ].

Lemma strict_start p : strict E (Driver.start E p).
Proof. unfold Driver.start, Driver.record. driver_strict. Qed.
Lemma strict_set_focus w : strict E (Driver.set_focus E w).
Proof. unfold Driver.set_focus, Driver.record. driver_strict. Qed.
Lemma strict_click_input w : strict E (Driver.click_input E w).
Proof. unfold Driver.click_input, Driver.record. driver_strict. Qed.
Lemma strict_right_click_input w : strict E (Driver.right_click_input E w).
Proof. unfold Driver.right_click_input, Driver.record. driver_strict. Qed.
Lemma strict_is_expanded w : strict E (Driver.is_expanded E w).
Proof. unfold Driver.is_expanded. driver_strict. Qed.
Lemma strict_expand w : strict E (Driver.expand E w).
Proof. unfold Driver.expand, Driver.record. driver_strict. Qed.
Lemma strict_Application b : strict E (Driver.Application E b).
Proof. apply strict_driver_call. Qed.

Lemma rethrows_plain {A : Type} (m : exn -> string) :
  rethrows (fun e => logger_error (m e) ;; @raise A e).
Proof. intros e s. eexists. split; reflexivity. Qed.

Lemma rethrows_attach {A : Type} (m b : exn -> string) (n : string) :
  rethrows (fun e => logger_error (m e) ;; allure_attach (b e) n ;; @raise A e).
Proof. intros e s. eexists. split; reflexivity. Qed.

Ltac strict_step :=
  first
    [ apply strict_wait | apply strict_start | apply strict_set_focus
    | apply strict_click_input | apply strict_right_click_input
    | apply strict_is_expanded | apply strict_expand | apply strict_type_keys
    | apply strict_Application
    | apply strict_ret | apply strict_raise | apply strict_lift
    | apply strict_logger_log | apply strict_attach
    | apply strict_try;
      [|first [apply (rethrows_plain (fun e => _))
              |apply (rethrows_attach (fun e => _) (fun e => _))]]
    | apply strict_bind; [|intros ?]
    | apply strict_update; reflexivity
    | match goal with
      | |- strict _ (if ?b then _ else _) => destruct b
      | |- strict _ (match ?x with Some _ => _ | None => _ end) => destruct x
      end ].

Lemma strict_base_wait c parent loc : strict E (Base.wait_for_element E c parent loc).
Proof. unfold Base.wait_for_element. repeat strict_step. Qed.

Lemma strict_one_wait c loc timeout : strict E (One.wait_for_element E c loc timeout).
Proof.
  unfold One.wait_for_element, One.timeout_or_default.
  apply strict_bind; [repeat strict_step|]. intros t.
  apply strict_try.
  - apply strict_bind; [|intros ?; repeat strict_step].
    apply strict_quiet. unfold One.main_child_window. intros s r s' H.
    destruct (main_window s); now inversion H.
  - intros e s. destruct (is_timeout e); eexists; split; reflexivity.
Qed.

Ltac strict_facade :=
  repeat first [ apply strict_base_wait | apply strict_one_wait | strict_step ].

Lemma strict_base c o : base_swallows o = false -> strict E (Base.run E c o).
Proof.
  destruct o; intros Ho; try discriminate; simpl; unfold Base.returning_none;
    (apply strict_bind; [|intros ?; apply strict_ret]);
    first [ apply strict_base_wait
          | unfold Base.launch_application, Base.connect_to_main_window,
              Base.click_element, Base.enter_text, Base.right_click_element,
              Base.select_context_menu, Base.wizard_next, Base.wizard_finish;
            strict_facade ].
Qed.

Lemma strict_one c o : strict E (One.run E c o).
Proof.
  destruct o; simpl; unfold One.returning_none;
    (apply strict_bind; [|intros ?; apply strict_ret]);
    first [ apply strict_one_wait
          | unfold One.launch_application, One.connect_to_main_window,
              One.click_element, One.enter_text, One.expand_tree_item,
              One.right_click_element;
            strict_facade ].
Qed.

Lemma rethrows_on_class {A : Type} (m1 m2 : exn -> string) :
  rethrows (fun e => if is_timeout e then logger_error (m1 e) ;; @raise A e
                     else logger_error (m2 e) ;; raise e).
Proof. intros e s. destruct (is_timeout e); eexists; split; reflexivity. Qed.

Lemma strict_get_toggle_state w : strict E (Driver.get_toggle_state E w).
Proof. unfold Driver.get_toggle_state. driver_strict. Qed.
Lemma strict_toggle w : strict E (Driver.toggle E w).
Proof. unfold Driver.toggle, Driver.record. driver_strict. Qed.
Lemma strict_select w v : strict E (Driver.select E w v).
Proof. unfold Driver.select, Driver.record. driver_strict. Qed.

Lemma strict_three_connect c : strict E (Three.connect_to_main_window E c).
Proof.
  unfold Three.connect_to_main_window. apply strict_try.
  - repeat strict_step.
  - apply (rethrows_on_class (fun _ => _) (fun e => _)).
Qed.

Lemma strict_three c o : three_waits o = false -> strict E (Three.run E c o).
Proof.
  destruct o; intros Ho; try discriminate; simpl.
  - unfold Three.returning_none. apply strict_bind; [|intros ?; apply strict_ret].
    unfold Three.launch_application.
    repeat first [apply strict_three_connect | strict_step].
  - apply strict_bind; [apply strict_three_connect|intros ?; apply strict_ret].
Qed.

(** *** What the wait raises, the operation raises *)

Lemma reraises_try {A : Type} (w : M spec) (k : spec -> M A) (h : exn -> M A) :
  extends w -> loud_handler h -> rethrows h -> reraises w (try_except (bind w k) h).
Proof.
  intros Hw Hl Hr s e s1 W. destruct (Hr e s1) as (s2 & X & C).
  exists s2. unfold try_except, bind. rewrite W, X. split; [reflexivity|]. split; [|exact C].
  eapply error_logged_after; [eapply Hw; eauto|eapply Hl; eauto].
Qed.

Lemma reraises_returning {A B : Type} (w : M spec) (m : M A) (f : A -> B) :
  reraises w m -> reraises w (bind m (fun a => ret (f a))).
Proof.
  intros Hm s e s1 W. destruct (Hm _ _ _ W) as (s' & X & L & C).
  exists s'. unfold bind. rewrite X. auto.
Qed.

Lemma strict_after_try {A : Type} (w : M spec) (k : spec -> M A) (h : exn -> M A) :
  (forall el, strict E (k el)) -> rethrows h -> strict_after E w (try_except (bind w k) h).
Proof.
  intros Hk Hh s el s1 r s' W H. unfold try_except, bind in H. rewrite W in H.
  apply (strict_try (k el) h (Hk el) Hh s1 r s'). exact H.
Qed.

Lemma strict_after_returning {A B : Type} (w : M spec) (m : M A) (f : A -> B) :
  strict_after E w m -> strict_after E w (bind m (fun a => ret (f a))).
Proof.
  intros Hm s el s1 r s' W H. unfold bind, ret in H.
  destruct (m s) as [[a|e0] s2] eqn:R; inversion H; subst;
    destruct (Hm _ _ _ _ _ W R) as (L & F); (split; [exact L|]);
    intros n e Hn Hf; destruct (F n e Hn Hf) as (X & Y);
    first [discriminate | inversion X; subst; auto].
Qed.

Lemma reraises_base c o p l :
  base_place o = Some (p, l) -> reraises (Base.wait_for_element E c p l) (Base.run E c o).
Proof.
  destruct o; intros Ho; try discriminate; inversion Ho; subst; simpl;
    apply reraises_returning;
    (apply reraises_try;
     [apply extends_base_wait|apply (loud_plain (fun e => _))|apply (rethrows_plain (fun e => _))]).
Qed.

Lemma reraises_one c o l :
  one_place o = Some l -> reraises (One.wait_for_element E c l None) (One.run E c o).
Proof.
  destruct o; intros Ho; try discriminate; inversion Ho; subst; simpl;
    apply reraises_returning;
    (apply reraises_try;
     [apply extends_one_wait|apply (loud_attach (fun e => _) (fun e => _))
     |apply (rethrows_attach (fun e => _) (fun e => _))]).
Qed.

Lemma reraises_three c o p l :
  three_place o = Some (p, l) ->
  reraises (Three.wait_for_element E c p l) (Three.run E c o) /\
  strict_after E (Three.wait_for_element E c p l) (Three.run E c o).
Proof.
  destruct o; intros Ho; try discriminate; inversion Ho; subst; simpl; split;
    try (apply reraises_returning;
         (apply reraises_try;
          [apply extends_three_wait|apply (loud_plain (fun e => _))
          |apply (rethrows_plain (fun e => _))]));
    apply strict_after_returning;
    (apply strict_after_try;
     [intros el;
      repeat first [apply strict_get_toggle_state | apply strict_toggle | apply strict_select
                   | strict_step]
     |apply (rethrows_plain (fun e => _))]).
Qed.

(** *** Timeouts reach the caller *)

Lemma advances_ok {A : Type} (a : A) : advances E (lift (Ok a)).
Proof. intros s r s' H. inversion H; subst. split; [lia|reflexivity]. Qed.

Lemma advances_logger_log l m : advances E (logger_log l m).
Proof. intros s r s' H. inversion H; subst. split; [simpl; lia|reflexivity]. Qed.

Lemma advances_update (f : state -> state) :
  (forall s, clock (f s) = clock s) -> (forall s, calls (f s) = calls s) ->
  advances E (fun s => (Ok tt, f s)).
Proof.
  intros Hc Hn s r s' H. inversion H; subst. rewrite Hc, Hn. split; [lia|reflexivity].
Qed.

Lemma advances_driver_call : advances E (Driver.driver_call E).
Proof.
  intros s r s' H. unfold Driver.driver_call in H.
  destruct (fault E (calls s)) as [e|] eqn:F; inversion H; subst; simpl; (split; [lia|]).
  - exists (calls s). split; [lia|congruence].
  - reflexivity.
Qed.

Lemma advances_bind {A B : Type} (m : M A) (k : A -> M B) :
  advances E m -> (forall a, advances E (k a)) -> advances E (bind m k).
Proof.
  intros Hm Hk s r s' H. unfold bind in H.
  destruct (m s) as [[a|e] s1] eqn:R.
  - destruct (Hm _ _ _ R) as (L1 & T1). destruct (Hk a _ _ _ H) as (L2 & X).
    split; [lia|]. destruct r; [congruence|].
    destruct X as (n & Hn & Hf). exists n. split; [lia|exact Hf].
  - inversion H; subst. apply (Hm _ _ _ R).
Qed.

Ltac driver_advances :=
  repeat first
    [ apply advances_driver_call
    | apply advances_update; reflexivity
    | apply advances_bind; [|intros ?] ].

Lemma advances_start p : advances E (Driver.start E p).
Proof. unfold Driver.start, Driver.record. driver_advances. Qed.
Lemma advances_Application b : advances E (Driver.Application E b).
Proof. apply advances_driver_call. Qed.

(** The driver's wait for a window or a control that is not there for the
    length of the wait: it raises what the driver holds for the call, or a
    timeout. *)
Lemma wait_stalls w crit fl secs s r s' :
  Driver.parse_criteria crit = Some fl ->
  (forall t, clock s <= t <= clock s + Z.max 0 (secs * 1000) ->
             Driver.check_all E w fl t = false) ->
  Driver.wait E w crit secs s = (r, s') ->
  (calls s <= calls s')%nat /\
  exists e, r = Raise e /\
    ((forall n, (calls s <= n < calls s')%nat -> fault E n = None) -> is_timeout e = true).
Proof.
  intros P Hn H.
  pose proof (wait_calls _ _ _ _ _ _ _ H) as (C & _). split; [lia|].
  apply (wait_inv _ _ _ _ _ _ _ _ P) in H.
  destruct H as [(e & He & -> & _)|(_ & _ & Ht & [(_ & Hk)|(-> & _ & _)])].
  - exists e. split; [reflexivity|]. intros NF.
    rewrite NF in He; [discriminate|lia].
  - rewrite Hn in Hk; [discriminate|lia].
  - exists Driver.timed_out. split; reflexivity.
Qed.

Lemma check_visible_met w t :
  Driver.check_all E w [Driver.Visible] t = met E (WindowShown w) t.
Proof. unfold Driver.check_all. simpl. apply andb_true_r. Qed.

Lemma stalls_wait_visible w secs :
  stalls E (WindowShown w) (Z.max 0 (secs * 1000)) (Driver.wait E w "visible" secs).
Proof.
  intros s r s' never H. apply (wait_stalls _ _ _ _ _ _ _ criteria_visible) in H; auto.
  intros t Ht. rewrite check_visible_met. apply never. exact Ht.
Qed.

Lemma stalls_wait_ready w secs :
  stalls E (ControlReady w) (Z.max 0 (secs * 1000))
         (Driver.wait E w "exists enabled visible ready" secs).
Proof.
  intros s r s' never H. apply (wait_stalls _ _ _ _ _ _ _ criteria_blocking) in H; auto.
  intros t Ht. rewrite check_blocking. apply never. exact Ht.
Qed.

Lemma stalls_bind_l {A B : Type} a p (m : M A) (k : A -> M B) :
  stalls E a p m -> stalls E a p (bind m k).
Proof.
  intros Hm s r s' never H. unfold bind in H.
  destruct (m s) as [[x|e] s1] eqn:R; destruct (Hm _ _ _ never R) as (L & e0 & X & Y);
    [discriminate|].
  inversion X; subst e0. inversion H; subst. split; [exact L|].
  exists e. split; [reflexivity|exact Y].
Qed.

Lemma stalls_bind_r {A B : Type} a p (m : M A) (k : A -> M B) :
  advances E m -> (forall x, stalls E a p (k x)) -> stalls E a p (bind m k).
Proof.
  intros Hm Hk s r s' never H. unfold bind in H.
  destruct (m s) as [[x|e] s1] eqn:R; destruct (Hm _ _ _ R) as (L1 & X).
  - assert (forall t, clock s1 <= t <= clock s1 + p -> met E a t = false) as never1
      by (rewrite X; exact never).
    destruct (Hk x _ _ _ never1 H) as (L2 & e0 & -> & Y). split; [lia|].
    exists e0. split; [reflexivity|]. intros NF. apply Y. intros n Hn. apply NF. lia.
  - inversion H; subst. split; [exact L1|]. exists e. split; [reflexivity|].
    intros NF. destruct X as (n & Hn & Hf). elim Hf. apply NF. exact Hn.
Qed.

Lemma stalls_lift_ok {A B : Type} a p (v : A) (k : A -> M B) :
  stalls E a p (k v) -> stalls E a p (bind (lift (Ok v)) k).
Proof. intros Hk s r s' never H. unfold bind, lift in H. exact (Hk _ _ _ never H). Qed.

Lemma stalls_try {A : Type} a p (body : M A) (h : exn -> M A) :
  stalls E a p body -> rethrows h -> stalls E a p (try_except body h).
Proof.
  intros Hb Hh s r s' never H. unfold try_except in H.
  destruct (body s) as [[x|e] s1] eqn:R; destruct (Hb _ _ _ never R) as (L & e0 & X & Y);
    [discriminate|].
  inversion X; subst e0. destruct (Hh e s1) as (s2 & Z & C). rewrite Z in H.
  inversion H; subst. rewrite C. split; [exact L|].
  exists e. split; [reflexivity|exact Y].
Qed.

Lemma stalls_longer {A : Type} a p p' (m : M A) :
  p <= p' -> stalls E a p m -> stalls E a p' m.
Proof.
  intros Hp Hm s r s' never H. apply (Hm s r s'); auto.
  intros t Ht. apply never. lia.
Qed.

Lemma gives_up_intro {A : Type} a p (m : M A) s :
  stalls E a p m -> fails_loudly m -> gives_up E a p m s.
Proof.
  intros Hs Hl never. destruct (m s) as [r s'] eqn:R.
  destruct (Hs s r s' never R) as (_ & e & -> & T).
  exists e, s'. split; [reflexivity|]. split; [eapply Hl; eauto|exact T].
Qed.

Lemma gives_up_reraised {A : Type} a p (w : M spec) (m : M A) s :
  reraises w m -> gives_up E a p w s -> gives_up E a p m s.
Proof.
  intros Hr Hw never. destruct (Hw never) as (e & s1 & W & _ & T).
  destruct (Hr _ _ _ W) as (s' & X & L & C).
  exists e, s'. split; [exact X|]. split; [exact L|]. rewrite C. exact T.
Qed.

Lemma gives_up_returning {A B : Type} a p (m : M A) (f : A -> B) s :
  gives_up E a p m s -> gives_up E a p (bind m (fun x => ret (f x))) s.
Proof.
  intros Hm never. destruct (Hm never) as (e & s' & X & L & T).
  exists e, s'. unfold bind. rewrite X. auto.
Qed.

(** The [wait_for_element] of each script gives up on a control that is
    not ready for the length of its timeout, and for one second more in the
    polling of [3.py]. *)
Lemma base_wait_gives_up c p l s T :
  default_timeout c = Some T ->
  gives_up E (ControlReady (child_window p l)) (Z.max 0 (T * 1000))
           (Base.wait_for_element E c p l) s.
Proof.
  intros D. apply gives_up_intro; [|apply loud_base_wait].
  unfold Base.wait_for_element. cbv zeta. rewrite D. unfold subscript.
  apply stalls_try; [|apply (rethrows_plain (fun e => _))].
  apply stalls_bind_r; [apply advances_logger_log|intros _].
  apply stalls_lift_ok.
  apply stalls_bind_l. apply stalls_wait_ready.
Qed.

Lemma one_wait_gives_up c l timeout main s T :
  effective_timeout (InOne timeout) c = Some T ->
  main_window s = Some main ->
  gives_up E (ControlReady (child_window main l)) (Z.max 0 (T * 1000))
           (One.wait_for_element E c l timeout) s.
Proof.
  intros D Hm never.
  destruct (One.wait_for_element E c l timeout s) as [r s'] eqn:H.
  apply one_wait_inv in H.
  destruct H as [(_ & _ & Hd & Ht)|(T' & HT' & [(Hn & _)|(p & r1 & s1 & Hp & W & _ & Hc & _ & Hr)])];
    [|congruence|].
  { destruct Ht as [->| ->]; simpl in D; congruence. }
  assert (T' = T) as ->.
  { unfold One.timeout_or_default, lift, subscript, ret in HT'. simpl in D.
    destruct timeout as [t|]; [destruct (t =? 0)|];
      try rewrite D in HT'; inversion HT'; congruence. }
  rewrite Hm in Hp. inversion Hp; subst p.
  destruct (stalls_wait_ready _ T s r1 s1 never W) as (_ & e & -> & X).
  destruct Hr as [(Hr & _)|(e' & He & -> & L)]; [discriminate|].
  inversion He; subst e'. exists e, s'. split; [reflexivity|]. split; [exact L|].
  rewrite Hc. exact X.
Qed.

Lemma three_wait_gives_up c p l s :
  gives_up E (ControlReady (child_window p l))
           (Z.max 0 (get_or (default_timeout c) 20 * 1000) + 1000)
           (Three.wait_for_element E c p l) s.
Proof.
  intros never.
  destruct (three_wait_for_element_loop E c p l s) as (r & s' & L & W).
  rewrite W. apply wait_loop_inv in L.
  destruct L as (H1 & _ & _ & _ & [(_ & Ha & _ & Hlt & Hb)|(-> & _ & _ & m & Hl)]).
  - simpl in never. rewrite never in Ha; [discriminate|lia].
  - exists (Three.not_found l), s'. split; [reflexivity|].
    split; [exists [mkLog ERROR m]; split; [exact Hl|reflexivity]|reflexivity].
Qed.

(** The steps of [launch_application] and [connect_to_main_window] up to
    and including their wait for the main window. *)
Ltac stalls_main_window :=
  unfold subscript;
  repeat first
    [ apply stalls_bind_l; apply stalls_wait_visible
    | apply stalls_lift_ok
    | apply stalls_bind_r;
      [ first [ apply advances_logger_log | apply advances_ok | apply advances_start
              | apply advances_Application | apply advances_update; reflexivity ]
      | intros ? ] ].

Lemma base_gives_up c o a s T :
  base_awaits o = Some a -> complete c -> default_timeout c = Some T ->
  gives_up E a (Z.max 0 (T * 1000)) (Base.run E c o) s.
Proof.
  intros Ho (Hp & Hb & _) Ht.
  destruct (base_place o) as [[p l]|] eqn:Pl.
  - assert (a = ControlReady (child_window p l)) as ->
      by (destruct o; try discriminate; simpl in Ho, Pl; inversion Pl; subst;
          inversion Ho; reflexivity).
    apply (gives_up_reraised _ _ _ _ _ (reraises_base c o p l Pl)).
    apply base_wait_gives_up. exact Ht.
  - destruct o; try discriminate; simpl in Ho; inversion Ho; subst.
    + apply gives_up_intro; [|apply loud_base; reflexivity].
      simpl. apply stalls_bind_l. unfold Base.launch_application.
      destruct (application_path c) as [pa|]; [|congruence]. rewrite Ht.
      apply stalls_try; [|apply (rethrows_plain (fun e => _))].
      stalls_main_window.
    + apply gives_up_intro; [|apply loud_base; reflexivity].
      simpl. apply stalls_bind_l. unfold Base.connect_to_main_window. rewrite Ht.
      apply stalls_try; [|apply (rethrows_plain (fun e => _))].
      stalls_main_window.
    + simpl. apply gives_up_returning. apply base_wait_gives_up. exact Ht.
Qed.

Lemma one_gives_up c o main s T :
  complete c -> main_window s = Some main -> one_timeout c o = Some T ->
  gives_up E (one_awaits main o) (Z.max 0 (T * 1000)) (One.run E c o) s.
Proof.
  intros (Hp & Hb & _) Hm Ht.
  destruct (one_place o) as [l|] eqn:Pl.
  - assert (one_awaits main o = ControlReady (child_window main l)) as ->
      by (destruct o; try discriminate; simpl in Pl; inversion Pl; reflexivity).
    assert (default_timeout c = Some T) as D
      by (destruct o; try discriminate; exact Ht).
    apply (gives_up_reraised _ _ _ _ _ (reraises_one c o l Pl)).
    apply one_wait_gives_up; auto.
  - destruct o; try discriminate; simpl; simpl in Ht.
    + apply gives_up_intro; [|apply (loud_one c One.LaunchApplication); reflexivity].
      simpl. apply stalls_bind_l. unfold One.launch_application.
      destruct (application_path c) as [pa|]; [|congruence].
      destruct (backend c) as [b|]; [|congruence]. rewrite Ht.
      apply stalls_try; [|apply (rethrows_attach (fun e => _) (fun e => _))].
      stalls_main_window.
    + apply gives_up_intro; [|apply (loud_one c One.ConnectToMainWindow); reflexivity].
      simpl. apply stalls_bind_l. unfold One.connect_to_main_window. rewrite Ht.
      apply stalls_try; [|apply (rethrows_attach (fun e => _) (fun e => _))].
      stalls_main_window.
    + apply gives_up_returning. apply one_wait_gives_up; auto.
Qed.

Lemma stalls_three_connect c T :
  default_timeout c = Some T ->
  stalls E (WindowShown jetadmin) (Z.max 0 (T * 1000)) (Three.connect_to_main_window E c).
Proof.
  intros Ht. unfold Three.connect_to_main_window. cbv zeta. rewrite Ht.
  apply stalls_try; [|apply (rethrows_on_class (fun _ => _) (fun e => _))].
  stalls_main_window.
Qed.

Lemma three_gives_up c o s T :
  complete c -> default_timeout c = Some T ->
  gives_up E (three_awaits o) (Z.max 0 (T * 1000) + 1000) (Three.run E c o) s.
Proof.
  intros (Hp & Hb & _) Ht.
  destruct (three_place o) as [[p l]|] eqn:Pl.
  - assert (three_awaits o = ControlReady (child_window p l)) as ->
      by (destruct o; try discriminate; simpl in Pl; inversion Pl; reflexivity).
    apply (gives_up_reraised _ _ _ _ _ (proj1 (reraises_three c o p l Pl))).
    pose proof (three_wait_gives_up c p l s) as G. rewrite Ht in G. exact G.
  - destruct o; try discriminate; simpl.
    + apply gives_up_intro; [|apply (loud_three c Three.LaunchApplication)].
      apply (stalls_longer _ (Z.max 0 (T * 1000))); [lia|].
      simpl. apply stalls_bind_l. unfold Three.launch_application.
      destruct (application_path c) as [pa|] eqn:Pa; [|congruence].
      destruct (backend c) as [b|] eqn:B; [|congruence].
      apply stalls_try; [|apply (rethrows_plain (fun e => _))].
      stalls_main_window.
      apply stalls_bind_l. apply stalls_three_connect; auto.
    + apply gives_up_intro; [|apply (loud_three c Three.ConnectToMainWindow)].
      apply (stalls_longer _ (Z.max 0 (T * 1000))); [lia|].
      simpl. apply stalls_bind_l. apply stalls_three_connect; auto.
    + apply gives_up_returning.
      pose proof (three_wait_gives_up c parent loc s) as G. rewrite Ht in G. exact G.
Qed.

End Discipline.

(** [bring_window_to_front] handles the failure itself: with a driver that
    raises on the call, it logs at warning level and returns normally. *)
Lemma bring_window_to_front_swallows_the_failure :
  fault broken_ui (calls fresh) = Some (DriverError "access denied") /\
  fst (Base.run broken_ui sample_config (Base.BringWindowToFront jetadmin) fresh)
  = Ok None /\
  log (snd (Base.run broken_ui sample_config (Base.BringWindowToFront jetadmin) fresh))
  = [mkLog WARNING "Failed to bring window to front: access denied"] /\
  ~ error_logged fresh
      (snd (Base.run broken_ui sample_config (Base.BringWindowToFront jetadmin) fresh)).
Proof.
  split; [reflexivity|]. split; [reflexivity|]. split; [reflexivity|].
  intros (l & L & X). simpl in L. subst l. discriminate.
Qed.

(** C4, amended.  Every operation of the three facades except
    [bring_window_to_front] of [base_class.py] raises its failure to the
    caller, with a record at error level:
    - what a driver call raises is what the operation raises, and nothing
      runs after it ([strict]), in [base_class.py], in [1.py], and in
      [launch_application] and [connect_to_main_window] of [3.py]; in the
      element operations of [3.py] this holds from the return of their
      wait on ([strict_after]), the loop of that wait retrying whatever the
      driver raises;
    - what the [wait_for_element] of an element operation raises, a timeout
      or anything else, the operation raises ([reraises]);
    - when the window or the control an operation waits for is not there
      for the length of its timeout (and one second more in [3.py], whose
      polling runs over), the operation raises, a [TimeoutError] unless a
      driver call raised ([gives_up]), the configuration holding the keys
      it reads;
    - an operation that raises has logged at error level
      ([fails_loudly]); the one exception is a direct call of
      [wait_for_element] in [1.py], which raises the [KeyError] of a
      missing [default_timeout] before its [try], without a record.
    [bring_window_to_front] logs the failure at warning level and returns
    normally.  The [wait_for_element] of [3.py] fails only with the
    [TimeoutError] it raises itself. *)
Theorem failures_are_logged_and_raised :
  forall (E : env) (c : config),
    (forall o, base_swallows o = false ->
               fails_loudly (Base.run E c o) /\ strict E (Base.run E c o)) /\
    (forall o a s T, base_awaits o = Some a -> complete c -> default_timeout c = Some T ->
                     gives_up E a (Z.max 0 (T * 1000)) (Base.run E c o) s) /\
    (forall o p l, base_place o = Some (p, l) ->
                   reraises (Base.wait_for_element E c p l) (Base.run E c o)) /\
    (forall w s, exists s',
        Base.bring_window_to_front E w s = (Ok tt, s') /\
        forall e, fault E (calls s) = Some e ->
                  log s' = log s ++ [mkLog WARNING
                                       ("Failed to bring window to front: " ++ show_exn e)%string]) /\
    (forall o, strict E (One.run E c o) /\
               forall s e s', One.run E c o s = (Raise e, s') ->
                 error_logged s s' \/
                 (one_direct_wait o = true /\ default_timeout c = None /\
                  e = KeyError "default_timeout")) /\
    (forall o main s T, complete c -> main_window s = Some main ->
                        one_timeout c o = Some T ->
                        gives_up E (one_awaits main o) (Z.max 0 (T * 1000))
                                 (One.run E c o) s) /\
    (forall o l, one_place o = Some l ->
                 reraises (One.wait_for_element E c l None) (One.run E c o)) /\
    (forall o, fails_loudly (Three.run E c o)) /\
    (forall o, three_waits o = false -> strict E (Three.run E c o)) /\
    (forall o s T, complete c -> default_timeout c = Some T ->
                   gives_up E (three_awaits o) (Z.max 0 (T * 1000) + 1000)
                            (Three.run E c o) s) /\
    (forall o p l, three_place o = Some (p, l) ->
                   reraises (Three.wait_for_element E c p l) (Three.run E c o) /\
                   strict_after E (Three.wait_for_element E c p l) (Three.run E c o)) /\
    (forall parent loc s e s',
        Three.wait_for_element E c parent loc s = (Raise e, s') ->
        e = Three.not_found loc).
Proof.
  intros E c.
  split; [|split; [|split; [|split; [|split; [|split; [|split; [|split;
    [|split; [|split; [|split]]]]]]]]]].
  - intros o Ho. split; [apply loud_base|apply strict_base]; exact Ho.
  - intros o a s T Ho Hc Ht. apply base_gives_up; assumption.
  - intros o p l Ho. apply reraises_base. exact Ho.
  - intros w s. unfold Base.bring_window_to_front, Driver.set_focus, Driver.driver_call,
      Driver.record, try_except, logger_info, logger_warning, logger_log, bind.
    destruct (fault E (calls s)) as [e0|] eqn:F.
    + eexists. split; [reflexivity|]. intros e He. inversion He; subst. reflexivity.
    + eexists. split; [reflexivity|]. intros e He. discriminate.
  - intros o. split; [apply strict_one|].
    intros s e s' H. destruct (one_direct_wait o) eqn:D.
    + destruct o; try discriminate. simpl in H. unfold bind, ret in H.
      destruct (One.wait_for_element E c loc timeout s) as [[w|e0] s1] eqn:W;
        inversion H; subst.
      apply one_wait_inv in W.
      destruct W as [(Hr & _ & Hd & _)|(T & _ & [(_ & _ & L & _)|(p & r1 & s1 & _ & _ & _ & _ & _ &
                       [(_ & Hr & _)|(e1 & _ & _ & L)])])]; auto; try discriminate.
      inversion Hr; subst. auto.
    + left. eapply loud_one; eauto.
  - intros o main s T Hc Hm Ht. apply one_gives_up; assumption.
  - intros o l Ho. apply reraises_one. exact Ho.
  - intros o. apply loud_three.
  - intros o Ho. apply strict_three. exact Ho.
  - intros o s T Hc Ht. apply three_gives_up; assumption.
  - intros o p l Ho. apply reraises_three. exact Ho.
  - intros parent loc s e s' H.
    destruct (three_wait_for_element_loop E c parent loc s) as (r0 & s0 & L & W).
    rewrite W in H. inversion H; subst r0 s0.
    apply wait_loop_inv in L.
    destruct L as (_ & _ & _ & _ & [(X & _)|(X & _)]); [discriminate|]. now inversion X.
Qed.

(** A run of C4 as amended: a click in [base_class.py] on a driver that
    raises on the first call fails with that exception, logged at error
    level; a click in [3.py] on a button that is never there raises the
    timeout of its wait. *)
Lemma failures_are_logged_and_raised_witness :
  (fails_loudly (Base.run broken_ui sample_config (Base.ClickElement jetadmin ok_button)) /\
   strict broken_ui (Base.run broken_ui sample_config (Base.ClickElement jetadmin ok_button))) /\
  gives_up never_there (ControlReady (child_window jetadmin ok_button))
    (Z.max 0 (20 * 1000) + 1000)
    (Three.run never_there sample_config (Three.ClickElement jetadmin ok_button)) fresh.
Proof.
  split.
  - exact (proj1 (failures_are_logged_and_raised broken_ui sample_config)
             (Base.ClickElement jetadmin ok_button) eq_refl).
  - pose proof (failures_are_logged_and_raised never_there sample_config)
      as (_ & _ & _ & _ & _ & _ & _ & _ & _ & G & _).
    apply (G (Three.ClickElement jetadmin ok_button) fresh 20); [|reflexivity].
    repeat split; discriminate.
Defined.

Example click_on_broken_driver :
  fst (Base.run broken_ui sample_config (Base.ClickElement jetadmin ok_button) fresh)
  = Raise (DriverError "access denied") /\
  existsb is_error
    (log (snd (Base.run broken_ui sample_config (Base.ClickElement jetadmin ok_button) fresh)))
  = true.
Proof. split; vm_compute; reflexivity. Qed.

(** A timeout of the wait reaches the caller of a click in each script. *)
Example click_on_missing_button :
  fst (Base.run never_there sample_config (Base.ClickElement jetadmin ok_button) fresh)
  = Raise Driver.timed_out /\
  fst (One.run never_there sample_config (One.ClickElement ok_button)
         (set_main_window (Some jetadmin) fresh))
  = Raise Driver.timed_out /\
  fst (Three.run never_there sample_config (Three.ClickElement jetadmin ok_button) fresh)
  = Raise (Three.not_found ok_button).
Proof. split; [|split]; vm_compute; reflexivity. Qed.

(** A constructor that fails has no logger yet: nothing is logged. *)
Example constructor_failure_is_not_logged :
  construct always_ready BaseClassPy None fresh
  = (Raise (FileNotFoundError "config.json"), fresh) /\
  fst (construct always_ready ThreePy (Some (mkConfig None None None None)) fresh)
  = Raise (KeyError "backend") /\
  log (snd (construct always_ready ThreePy (Some (mkConfig None None None None)) fresh)) = [].
Proof. split; [reflexivity|]. split; reflexivity. Qed.

(** * Further properties of the facades *)

(** ** Waiting: what is found, how long it takes, how often it asks *)

(** A control that is ready from some instant on, no later than the
    deadline, is returned by the blocking [wait_for_element] of
    [base_class.py] and of [1.py], within the deadline and with a single
    driver call. *)
Theorem blocking_wait_finds_control_ready_by_deadline :
  forall (E : env) (c : config) (parent : spec) (loc : locator) (s : state)
         (T r : Z),
    default_timeout c = Some T ->
    fault E (calls s) = None ->
    r <= Z.max (clock s) (clock s + T * 1000) ->
    (forall t, r <= t -> all_four E (child_window parent loc) t = true) ->
    (exists s',
        Base.wait_for_element E c parent loc s = (Ok (child_window parent loc), s') /\
        clock s <= clock s' <= Z.max (clock s) (clock s + T * 1000) /\
        calls s' = S (calls s)) /\
    (exists s',
        One.wait_for_element E c loc None (set_main_window (Some parent) s)
        = (Ok (child_window parent loc), s') /\
        clock s <= clock s' <= Z.max (clock s) (clock s + T * 1000) /\
        calls s' = S (calls s)).
Proof.
  intros E c parent loc s T r HT HF Hr Hready. split.
  - destruct (Base.wait_for_element E c parent loc s) as [res s'] eqn:H.
    exists s'. apply base_wait_inv in H. cbv zeta in H.
    destruct H as [(Hd & _)|(T' & r1 & s1 & Hd & W & Hc & Hn & _ & Hres)]; [congruence|].
    assert (T' = T) by congruence. subst T'.
    pose proof (wait_calls _ _ _ _ _ _ _ W) as (Hcalls & _).
    apply (wait_inv _ _ _ _ _ _ _ _ criteria_blocking) in W.
    cbn [clock calls set_log] in W, Hcalls.
    destruct W as [(e & He & _)|(_ & _ & Ht & [(-> & Hk)|(-> & Hlate & Hk)])].
    + congruence.
    + destruct Hres as [(_ & ->)|(e & He & _)]; [|discriminate].
      split; [reflexivity|]. split; [lia|congruence].
    + rewrite check_blocking, Hready in Hk; [discriminate|lia].
  - destruct (One.wait_for_element E c loc None (set_main_window (Some parent) s))
      as [res s'] eqn:H.
    exists s'. apply one_wait_inv in H.
    destruct H as [(_ & _ & Hd & _)|(T' & HT' & [(Hm & _)|(p & r1 & s1 & Hp & W & Hc & Hn & _ & Hres)])];
      [congruence|discriminate|].
    simpl in Hp. inversion Hp; subst p.
    unfold One.timeout_or_default, lift, subscript in HT'. rewrite HT in HT'.
    inversion HT'; subst T'.
    pose proof (wait_calls _ _ _ _ _ _ _ W) as (Hcalls & _).
    apply (wait_inv _ _ _ _ _ _ _ _ criteria_blocking) in W.
    cbn [clock calls set_main_window] in W, Hcalls.
    destruct W as [(e & He & _)|(_ & _ & Ht & [(-> & Hk)|(-> & Hlate & Hk)])].
    + congruence.
    + destruct Hres as [(_ & -> & _)|(e & He & _)]; [|discriminate].
      split; [reflexivity|]. split; [lia|congruence].
    + rewrite check_blocking, Hready in Hk; [discriminate|lia].
Qed.

(** A run: the OK button appears after twenty seconds and the timeout is
    [25]. *)
Lemma blocking_wait_finds_control_ready_by_deadline_witness :
  (exists s',
      Base.wait_for_element late_ui (with_default_timeout sample_config 25) jetadmin ok_button fresh
      = (Ok (child_window jetadmin ok_button), s') /\
      clock fresh <= clock s' <= Z.max (clock fresh) (clock fresh + 25 * 1000) /\
      calls s' = S (calls fresh)) /\
  (exists s',
      One.wait_for_element late_ui (with_default_timeout sample_config 25) ok_button None
        (set_main_window (Some jetadmin) fresh)
      = (Ok (child_window jetadmin ok_button), s') /\
      clock fresh <= clock s' <= Z.max (clock fresh) (clock fresh + 25 * 1000) /\
      calls s' = S (calls fresh)).
Proof.
  apply (blocking_wait_finds_control_ready_by_deadline late_ui
           (with_default_timeout sample_config 25) jetadmin ok_button fresh 25 20001).
  - reflexivity.
  - reflexivity.
  - simpl. lia.
  - intros t Ht. unfold all_four, late_ui, calm. simpl.
    assert ((20000 <? t) = true) as -> by (apply Z.ltb_lt; lia). reflexivity.
Defined.

(** The polling [wait_for_element] of [3.py] returns a control that is
    ready from some instant on, when that instant is at least half a second
    before the deadline (the last half second may be slept through). *)
Theorem polling_wait_finds_control_ready_before_last_sleep :
  forall (E : env) (c : config) (parent : spec) (loc : locator) (s : state) (r : Z),
    no_fault E ->
    0 < get_or (default_timeout c) 20 ->
    r <= clock s + get_or (default_timeout c) 20 * 1000 - 500 ->
    (forall t, r <= t -> all_four E (child_window parent loc) t = true) ->
    exists s',
      Three.wait_for_element E c parent loc s = (Ok (child_window parent loc), s') /\
      clock s <= clock s' < clock s + get_or (default_timeout c) 20 * 1000 + 1000.
Proof.
  intros E c parent loc s r NF Tpos Hr Hready.
  destruct (three_wait_for_element_loop E c parent loc s) as (res & s' & L & W).
  exists s'. rewrite W.
  pose proof (wait_loop_inv _ _ _ _ _ _ _ _ L) as (H1 & _ & _ & _ & [(-> & _ & _ & _ & Hb)|(-> & _)]).
  - split; [reflexivity|lia].
  - apply wait_loop_gave_up_late in L; auto; [|lia].
    destruct L as (t & Ht & Hf). rewrite Hready in Hf; [discriminate|lia].
Qed.

Lemma polling_wait_finds_control_ready_before_last_sleep_witness :
  exists s',
    Three.wait_for_element late_ui (with_default_timeout sample_config 25) jetadmin ok_button fresh
    = (Ok (child_window jetadmin ok_button), s') /\
    clock fresh <= clock s'
    < clock fresh + get_or (default_timeout (with_default_timeout sample_config 25)) 20 * 1000 + 1000.
Proof.
  apply (polling_wait_finds_control_ready_before_last_sleep late_ui
           (with_default_timeout sample_config 25) jetadmin ok_button fresh 20001).
  - intros n. reflexivity.
  - simpl. lia.
  - simpl. lia.
  - intros t Ht. unfold all_four, late_ui, calm. simpl.
    assert ((20000 <? t) = true) as -> by (apply Z.ltb_lt; lia). reflexivity.
Defined.

Lemma wait_loop_rounds E end_time parent loc : forall fuel s r s',
  Three.wait_loop E fuel end_time parent loc s = Some (r, s') ->
  (calls s <= calls s')%nat /\
  Z.of_nat (calls s' - calls s) * 500 <= Z.max 0 (end_time - clock s + 499).
Proof.
  induction fuel as [|fuel IH]; intros s r s' H; simpl in H.
  - destruct (clock s <? end_time); [discriminate|].
    unfold bind, logger_error, logger_log, raise in H. inversion H; subst. simpl.
    split; [lia|]. rewrite Nat.sub_diag. simpl. lia.
  - destruct (clock s <? end_time) eqn:L.
    + apply Z.ltb_lt in L.
      destruct (Driver.wait E (child_window parent loc) "exists ready visible" 1 s)
        as [[u|e] s1] eqn:W; apply wait_calls in W; destruct W as (C & _ & _ & _ & Ck).
      * inversion H; subst. rewrite C. split; [lia|].
        replace (S (calls s) - calls s)%nat with 1%nat by lia. simpl. lia.
      * unfold time_sleep in H. apply IH in H. cbn [clock calls set_clock] in H.
        destruct H as (H1 & H2). split; [lia|].
        replace (calls s' - calls s)%nat with (S (calls s' - calls s1))%nat by lia.
        rewrite Nat2Z.inj_succ. lia.
    + unfold bind, logger_error, logger_log, raise in H. inversion H; subst. simpl.
      split; [lia|]. rewrite Nat.sub_diag. simpl. lia.
Qed.

(** The retry of [3.py] is bounded: whatever the driver does,
    [wait_for_element] asks it at most twice per second of timeout, and it
    never raises before the timeout has elapsed. *)
Theorem polling_wait_is_a_bounded_retry :
  forall (E : env) (c : config) (parent : spec) (loc : locator) (s s' : state)
         (r : result spec),
    Three.wait_for_element E c parent loc s = (r, s') ->
    Z.of_nat (calls s' - calls s) <= Z.max 0 (2 * get_or (default_timeout c) 20) /\
    (forall e, r = Raise e ->
               clock s + get_or (default_timeout c) 20 * 1000 <= clock s').
Proof.
  intros E c parent loc s s' r H.
  destruct (three_wait_for_element_loop E c parent loc s) as (r0 & s0 & L & W).
  rewrite W in H. inversion H; subst r0 s0. split.
  - apply wait_loop_rounds in L. lia.
  - intros e ->. apply wait_loop_inv in L.
    destruct L as (_ & _ & _ & _ & [(X & _)|(_ & Hl & _)]); [discriminate|lia].
Qed.

Lemma polling_wait_is_a_bounded_retry_witness :
  Z.of_nat (calls (snd (Three.wait_for_element dead_driver sample_config jetadmin ok_button fresh))
            - calls fresh)
  <= Z.max 0 (2 * get_or (default_timeout sample_config) 20) /\
  (forall e, fst (Three.wait_for_element dead_driver sample_config jetadmin ok_button fresh)
             = Raise e ->
             clock fresh + get_or (default_timeout sample_config) 20 * 1000
             <= clock (snd (Three.wait_for_element dead_driver sample_config jetadmin ok_button fresh))).
Proof.
  apply (polling_wait_is_a_bounded_retry dead_driver sample_config jetadmin ok_button fresh).
  apply surjective_pairing.
Defined.

(** With a timeout of zero or less the variants part: [3.py] raises
    [TimeoutError] at once, without asking the driver, even for a control
    that is ready; [base_class.py] still polls once, returns a ready control
    and times out at once on one that is not. *)
Theorem non_positive_timeout :
  forall (E : env) (c : config) (parent : spec) (loc : locator) (s : state) (T : Z),
    default_timeout c = Some T ->
    T <= 0 ->
    (exists m, Three.wait_for_element E c parent loc s
               = (Raise (Three.not_found loc), set_log (log s ++ [mkLog ERROR m]) s)) /\
    (fault E (calls s) = None ->
     exists s',
       Base.wait_for_element E c parent loc s
       = ((if all_four E (child_window parent loc) (clock s)
           then Ok (child_window parent loc) else Raise Driver.timed_out), s') /\
       clock s' = clock s /\ calls s' = S (calls s)).
Proof.
  intros E c parent loc s T HT Tneg. split.
  - unfold Three.wait_for_element. rewrite HT. unfold get_or. cbv zeta.
    assert ((clock s <? clock s + T * 1000) = false) as L by (apply Z.ltb_ge; lia).
    destruct (Z.to_nat (T * 1000)); simpl; rewrite L;
      unfold bind, logger_error, logger_log, raise; eexists; reflexivity.
  - intros HF.
    destruct (Base.wait_for_element E c parent loc s) as [res s'] eqn:H.
    exists s'. apply base_wait_inv in H. cbv zeta in H.
    destruct H as [(Hd & _)|(T' & r1 & s1 & Hd & W & Hc & Hn & _ & Hres)]; [congruence|].
    assert (T' = T) by congruence. subst T'.
    pose proof (wait_calls _ _ _ _ _ _ _ W) as (Hcalls & _).
    apply (wait_inv _ _ _ _ _ _ _ _ criteria_blocking) in W.
    cbn [clock calls set_log] in W, Hcalls. rewrite check_blocking in W.
    destruct W as [(e & He & _)|(_ & _ & Ht & [(-> & Hk)|(-> & Hlate & Hk)])].
    + congruence.
    + assert (clock s1 = clock s) as Q by lia. rewrite Q in Hk. rewrite Hk.
      destruct Hres as [(_ & ->)|(e & He & _)]; [|discriminate].
      split; [reflexivity|]. split; congruence.
    + assert (clock s1 = clock s) as Q by lia. rewrite Q in Hk. rewrite Hk.
      destruct Hres as [(He & _)|(e & He & -> & _)]; [discriminate|].
      inversion He; subst. split; [reflexivity|]. split; congruence.
Qed.

Lemma non_positive_timeout_witness :
  (exists m, Three.wait_for_element always_ready (with_default_timeout sample_config 0)
               jetadmin ok_button fresh
             = (Raise (Three.not_found ok_button),
                set_log (log fresh ++ [mkLog ERROR m]) fresh)) /\
  (fault always_ready (calls fresh) = None ->
   exists s',
     Base.wait_for_element always_ready (with_default_timeout sample_config 0)
       jetadmin ok_button fresh
     = ((if all_four always_ready (child_window jetadmin ok_button) (clock fresh)
         then Ok (child_window jetadmin ok_button) else Raise Driver.timed_out), s') /\
     clock s' = clock fresh /\ calls s' = S (calls fresh)).
Proof.
  apply (non_positive_timeout always_ready (with_default_timeout sample_config 0)
           jetadmin ok_button fresh 0).
  - reflexivity.
  - lia.
Defined.

(** The timeout argument of [wait_for_element] in [1.py]: a value other
    than zero replaces the configuration altogether, so that the call works
    without [default_timeout] and gives up on a missing control after
    exactly that many seconds; zero counts as no argument. *)
Theorem explicit_timeout_replaces_default :
  forall (E : env) (c : config) (loc : locator) (s : state) (t : Z) (parent : spec),
    t <> 0 ->
    main_window s = Some parent ->
    fault E (calls s) = None ->
    (forall u, all_four E (child_window parent loc) u = false) ->
    (exists s',
        One.wait_for_element E c loc (Some t) s = (Raise Driver.timed_out, s') /\
        clock s' = clock s + Z.max 0 (t * 1000)) /\
    (forall c', One.wait_for_element E c' loc (Some t) s
                = One.wait_for_element E c loc (Some t) s) /\
    One.wait_for_element E c loc (Some 0) s = One.wait_for_element E c loc None s.
Proof.
  intros E c loc s t parent Ht Hm HF Hn. split; [|split].
  - destruct (One.wait_for_element E c loc (Some t) s) as [res s'] eqn:H.
    exists s'. apply one_wait_inv in H.
    destruct H as [(_ & _ & _ & [X|X])|(T' & HT' & [(Hm' & _)|(p & r1 & s1 & Hp & W & Hc & _ & _ & Hres)])];
      try congruence.
    rewrite Hm in Hp. inversion Hp; subst p.
    unfold One.timeout_or_default in HT'.
    apply Z.eqb_neq in Ht. rewrite Ht in HT'. inversion HT'; subst T'.
    unfold Driver.wait, bind, Driver.driver_call in W. rewrite HF, criteria_blocking in W.
    destruct (poll_total E (child_window parent loc)
                [Driver.Exists; Driver.Enabled; Driver.Visible; Driver.Ready]
                (clock (set_calls (S (calls s)) s)) (t * 1000)
                (Driver.poll_fuel (t * 1000)) (clock (set_calls (S (calls s)) s)))
      as [[r0 t0] Hp0].
    { unfold Driver.poll_fuel. rewrite Nat2Z.inj_succ. lia. }
    rewrite Hp0 in W. inversion W; subst r1 s1.
    apply poll_never in Hp0.
    + destruct Hp0 as (-> & ->). cbn [clock set_calls set_clock] in *.
      destruct Hres as [(X & _)|(e & He & -> & _)]; [discriminate|].
      inversion He; subst. split; [reflexivity|]. lia.
    + intros u. rewrite check_blocking. apply Hn.
    + lia.
  - intros c'. unfold One.wait_for_element, One.timeout_or_default.
    apply Z.eqb_neq in Ht. rewrite Ht. reflexivity.
  - reflexivity.
Qed.

Lemma explicit_timeout_replaces_default_witness :
  (exists s',
      One.wait_for_element never_there no_timeout_config ok_button (Some 3)
        (set_main_window (Some jetadmin) fresh) = (Raise Driver.timed_out, s') /\
      clock s' = clock (set_main_window (Some jetadmin) fresh) + Z.max 0 (3 * 1000)) /\
  (forall c', One.wait_for_element never_there c' ok_button (Some 3)
                (set_main_window (Some jetadmin) fresh)
              = One.wait_for_element never_there no_timeout_config ok_button (Some 3)
                  (set_main_window (Some jetadmin) fresh)) /\
  One.wait_for_element never_there no_timeout_config ok_button (Some 0)
    (set_main_window (Some jetadmin) fresh)
  = One.wait_for_element never_there no_timeout_config ok_button None
      (set_main_window (Some jetadmin) fresh).
Proof.
  apply (explicit_timeout_replaces_default never_there no_timeout_config ok_button
           (set_main_window (Some jetadmin) fresh) 3 jetadmin).
  - lia.
  - reflexivity.
  - reflexivity.
  - intros u. reflexivity.
Defined.

(** ** [1.py] before the application is launched *)

(** Until [launch_application] or [connect_to_main_window] has run,
    [self.main_window] is [None] and every element operation of [1.py]
    fails with [AttributeError], logged at error level, without a driver
    call, an action or a wait. *)
Theorem one_operations_need_a_main_window :
  forall (E : env) (c : config) (o : One.op) (s : state),
    main_window s = None ->
    default_timeout c <> None ->
    one_uses_main_window o = true ->
    exists s',
      One.run E c o s = (Raise (none_has_no "child_window"), s') /\
      calls s' = calls s /\ trace s' = trace s /\ clock s' = clock s /\
      error_logged s s'.
Proof.
  intros E c o s Hm Hd Ho.
  destruct (default_timeout c) as [T|] eqn:HT; [clear Hd|congruence].
  assert (forall loc timeout, exists s',
             One.wait_for_element E c loc timeout s = (Raise (none_has_no "child_window"), s') /\
             calls s' = calls s /\ trace s' = trace s /\ clock s' = clock s /\
             exists m, log s' = log s ++ [mkLog ERROR m]) as W.
  { intros loc timeout.
    unfold One.wait_for_element, One.timeout_or_default, One.main_child_window,
      try_except, lift, subscript, ret.
    rewrite HT. unfold bind at 1.
    destruct timeout as [t|]; [destruct (t =? 0)|];
      unfold bind at 1; rewrite Hm; cbn [is_timeout];
      unfold bind, logger_error, logger_log, allure_attach, raise;
      eexists; (split; [reflexivity|]); cbn; eauto 6. }
  destruct o as [| |loc timeout|loc|loc text clear|loc|loc]; try discriminate; simpl.
  - destruct (W loc timeout) as (s' & R & C & Tr & Ck & m & L).
    unfold bind. rewrite R. exists s'. repeat split; auto.
    exists [mkLog ERROR m]. split; auto.
  - destruct (W loc None) as (s1 & R & C & Tr & Ck & m & L).
    unfold One.returning_none, One.click_element, try_except. unfold bind at 1 2.
    rewrite R. unfold bind, logger_error, logger_log, allure_attach, raise.
    eexists. split; [reflexivity|]. cbn. repeat split; auto.
    eexists [_; _]. rewrite L, <- app_assoc. split; reflexivity.
  - destruct (W loc None) as (s1 & R & C & Tr & Ck & m & L).
    unfold One.returning_none, One.enter_text, try_except. unfold bind at 1 2.
    rewrite R. unfold bind, logger_error, logger_log, allure_attach, raise.
    eexists. split; [reflexivity|]. cbn. repeat split; auto.
    eexists [_; _]. rewrite L, <- app_assoc. split; reflexivity.
  - destruct (W loc None) as (s1 & R & C & Tr & Ck & m & L).
    unfold One.returning_none, One.expand_tree_item, try_except. unfold bind at 1 2.
    rewrite R. unfold bind, logger_error, logger_log, allure_attach, raise.
    eexists. split; [reflexivity|]. cbn. repeat split; auto.
    eexists [_; _]. rewrite L, <- app_assoc. split; reflexivity.
  - destruct (W loc None) as (s1 & R & C & Tr & Ck & m & L).
    unfold One.returning_none, One.right_click_element, try_except. unfold bind at 1 2.
    rewrite R. unfold bind, logger_error, logger_log, allure_attach, raise.
    eexists. split; [reflexivity|]. cbn. repeat split; auto.
    eexists [_; _]. rewrite L, <- app_assoc. split; reflexivity.
Qed.

(** A run: a click right after the construction of the wrapper. *)
Lemma one_operations_need_a_main_window_witness :
  exists s',
    One.run always_ready sample_config (One.ClickElement ok_button) fresh
    = (Raise (none_has_no "child_window"), s') /\
    calls s' = calls fresh /\ trace s' = trace fresh /\ clock s' = clock fresh /\
    error_logged fresh s'.
Proof.
  apply (one_operations_need_a_main_window always_ready sample_config
           (One.ClickElement ok_button) fresh).
  - reflexivity.
  - discriminate.
  - reflexivity.
Defined.

(** ** What the operations leave untouched *)

Section Frame.
Variable E : env.
Context {X : Type} (proj : state -> X).

Lemma preserves_ret {A : Type} (a : A) : preserves proj (ret a).
Proof. intros s r s' H. now inversion H. Qed.

Lemma preserves_raise {A : Type} (e : exn) : preserves proj (@raise A e).
Proof. intros s r s' H. now inversion H. Qed.

Lemma preserves_lift {A : Type} (x : result A) : preserves proj (lift x).
Proof. intros s r s' H. now inversion H. Qed.

Lemma preserves_read {A : Type} (f : state -> A) : preserves proj (fun s => (Ok (f s), s)).
Proof. intros s r s' H. now inversion H. Qed.

Lemma preserves_update (f : state -> state) :
  (forall s, proj (f s) = proj s) -> preserves proj (fun s => (Ok tt, f s)).
Proof. intros Hf s r s' H. inversion H; subst. apply Hf. Qed.

Lemma preserves_bind {A B : Type} (m : M A) (k : A -> M B) :
  preserves proj m -> (forall a, preserves proj (k a)) -> preserves proj (bind m k).
Proof.
  intros Hm Hk s r s' H. unfold bind in H.
  destruct (m s) as [[a|e] s1] eqn:R.
  - rewrite (Hk _ _ _ _ H). eapply Hm; eauto.
  - inversion H; subst. eapply Hm; eauto.
Qed.

Lemma preserves_try {A : Type} (body : M A) (h : exn -> M A) :
  preserves proj body -> (forall e, preserves proj (h e)) ->
  preserves proj (try_except body h).
Proof.
  intros Hm Hk s r s' H. unfold try_except in H.
  destruct (body s) as [[a|e] s1] eqn:R.
  - inversion H; subst. eapply Hm; eauto.
  - rewrite (Hk _ _ _ _ H). eapply Hm; eauto.
Qed.

Lemma preserves_driver_call :
  (forall n s, proj (set_calls n s) = proj s) -> preserves proj (Driver.driver_call E).
Proof.
  intros Hc s r s' H. unfold Driver.driver_call in H.
  destruct (fault E (calls s)); inversion H; subst; apply Hc.
Qed.

Lemma preserves_keys w keys sp :
  (forall f s, proj (set_fields f s) = proj s) ->
  preserves proj
    (fun s => match Driver.keys_effect E w keys sp (fields s w) with
              | Ok f => (Ok tt, set_fields (upd (fields s) w f) s)
              | Raise e => (Raise e, s)
              end).
Proof.
  intros Hf s r s' H. destruct (Driver.keys_effect E w keys sp (fields s w));
    inversion H; subst; auto.
Qed.

Lemma preserves_wait w crit secs :
  (forall n s, proj (set_calls n s) = proj s) ->
  (forall t s, proj (set_clock t s) = proj s) ->
  preserves proj (Driver.wait E w crit secs).
Proof.
  intros Hc Ht s r s' H. unfold Driver.wait, bind, Driver.driver_call in H.
  destruct (fault E (calls s)).
  - inversion H; subst. apply Hc.
  - destruct (Driver.parse_criteria crit) as [fl|].
    + match type of H with
      | context [Driver.poll ?a ?b ?c ?d ?e ?f ?g] =>
          destruct (Driver.poll a b c d e f g) as [[r0 t0]|]
      end; inversion H; subst; rewrite ?Ht; apply Hc.
    + inversion H; subst. apply Hc.
Qed.

End Frame.

(** One step of a proof that a facade body preserves a component. *)
Ltac frame_step :=
  first
    [ apply preserves_wait; [reflexivity|reflexivity]
    | apply preserves_keys; reflexivity
    | apply preserves_driver_call; reflexivity
    | apply preserves_ret | apply preserves_raise | apply preserves_lift
    | apply preserves_read
    | apply preserves_update; reflexivity
    | apply preserves_try; [|intros ?]
    | apply preserves_bind; [|intros ?]
    | match goal with
      | |- preserves _ (if ?b then _ else _) => destruct b
      | |- preserves _ (match ?x with Some _ => _ | None => _ end) => destruct x
      end ].

Ltac frame :=
  unfold Driver.start, Driver.set_focus, Driver.click_input, Driver.right_click_input,
    Driver.get_toggle_state, Driver.toggle, Driver.select, Driver.is_expanded,
    Driver.expand, Driver.type_keys, Driver.Application, Driver.Desktop, Driver.record,
    logger_info, logger_error, logger_warning, logger_log, allure_attach;
  repeat frame_step.

Lemma three_wait_keeps_main_window E c parent loc :
  preserves main_window (Three.wait_for_element E c parent loc).
Proof.
  intros s r s' H.
  destruct (three_wait_for_element_loop E c parent loc s) as (r0 & s0 & L & W).
  rewrite W in H. inversion H; subst r0 s0.
  apply wait_loop_inv in L. tauto.
Qed.

(** ** [self.main_window] *)

(** [connect_to_main_window] of [base_class.py] and [1.py] assigns
    [self.main_window] before it waits: the attribute names the main window
    after the call whether it succeeded or failed.  In [3.py] the method
    only returns the window, and [launch_application] assigns it on success
    and leaves the attribute as it was on failure. *)
Theorem main_window_after_connect :
  forall (E : env) (c : config) (s : state),
    main_window (snd (Base.connect_to_main_window E c s)) = Some jetadmin /\
    main_window (snd (One.connect_to_main_window E c s)) = Some jetadmin /\
    main_window (snd (Three.connect_to_main_window E c s)) = main_window s /\
    match fst (Three.connect_to_main_window E c s) with
    | Ok w => w = jetadmin
    | Raise _ => True
    end /\
    main_window (snd (Three.launch_application E c s))
    = match fst (Three.launch_application E c s) with
      | Ok _ => Some jetadmin
      | Raise _ => main_window s
      end.
Proof.
  intros E c s.
  assert (preserves main_window (Three.connect_to_main_window E c)) as PC
    by (unfold Three.connect_to_main_window; frame).
  assert (forall s0 r s1, Three.connect_to_main_window E c s0 = (r, s1) ->
                          forall w, r = Ok w -> w = jetadmin) as PW.
  { intros s0 r s1 H w ->. unfold Three.connect_to_main_window, try_except in H.
    match type of H with
    | context [bind ?m ?k s0] => destruct (bind m k s0) as [[a|e] s2] eqn:B
    end.
    - unfold bind, logger_info, logger_log, lift, subscript, ret in B.
      destruct (default_timeout c); [|discriminate].
      repeat match type of B with
             | context [match ?x with _ => _ end] =>
                 match x with
                 | context [Driver.wait] => destruct x as [[?|?] ?]
                 | context [Driver.set_focus] => destruct x as [[?|?] ?]
                 end
             end; inversion B; inversion H; subst; reflexivity.
    - destruct (is_timeout e); unfold bind, logger_error, logger_log, raise in H;
        discriminate. }
  split; [|split; [|split; [|split]]].
  - unfold Base.connect_to_main_window, try_except. unfold bind at 1.
    match goal with
    | |- context [bind ?m ?k (set_main_window ?w s)] =>
        assert (preserves main_window (bind m k)) as P by frame;
        destruct (bind m k (set_main_window w s)) as [[a|e] s1] eqn:R
    end.
    + simpl. apply P in R. exact R.
    + apply P in R. simpl in R. rewrite <- R.
      match goal with
      | |- main_window (snd (?h s1)) = _ =>
          assert (preserves main_window h) as Q by frame;
          destruct (h s1) as [r2 s2] eqn:R2
      end.
      simpl. eapply Q; eauto.
  - unfold One.connect_to_main_window, try_except. unfold bind at 1.
    match goal with
    | |- context [bind ?m ?k (set_main_window ?w s)] =>
        assert (preserves main_window (bind m k)) as P by frame;
        destruct (bind m k (set_main_window w s)) as [[a|e] s1] eqn:R
    end.
    + simpl. apply P in R. exact R.
    + apply P in R. simpl in R. rewrite <- R.
      match goal with
      | |- main_window (snd (?h s1)) = _ =>
          assert (preserves main_window h) as Q by frame;
          destruct (h s1) as [r2 s2] eqn:R2
      end.
      simpl. eapply Q; eauto.
  - destruct (Three.connect_to_main_window E c s) as [r s1] eqn:R. simpl.
    eapply PC; eauto.
  - destruct (Three.connect_to_main_window E c s) as [[w|e] s1] eqn:R; simpl; auto.
    eapply PW; eauto.
  - unfold Three.launch_application, try_except.
    match goal with
    | |- context [bind ?m ?k s] => destruct (bind m k s) as [[a|e] s1] eqn:B
    end.
    + simpl. unfold bind at 1 in B. unfold logger_info at 1, logger_log in B.
      unfold bind at 1, lift, subscript in B.
      destruct (backend c); [|discriminate].
      unfold bind at 1 in B.
      destruct (Driver.Application E s0 _) as [[u|e] s2]; [|discriminate].
      unfold bind at 1 in B. destruct (application_path c); [|discriminate].
      unfold bind at 1 in B.
      destruct (Driver.start E s3 s2) as [[u1|e] s4]; [|discriminate].
      unfold bind at 1 in B.
      destruct (Three.connect_to_main_window E c s4) as [[w|e] s5] eqn:C; [|discriminate].
      apply PW with (w := w) in C; auto. subst w.
      unfold bind, logger_info, logger_log in B. inversion B; subst. reflexivity.
    + match goal with
      | |- main_window (snd (?h s1)) = _ =>
          assert (preserves main_window h) as Q by frame;
          destruct (h s1) as [r2 s2] eqn:R2
      end.
      pose proof (Q _ _ _ R2) as Q2. simpl.
      assert (r2 = Raise e) as ->.
      { unfold bind, logger_error, logger_log, raise in R2. now inversion R2. }
      rewrite Q2.
      (* the body raised: the assignment was not reached *)
      clear Q Q2 R2.
      unfold bind at 1 in B. unfold logger_info at 1, logger_log in B.
      unfold bind at 1, lift, subscript in B.
      destruct (backend c); [|inversion B; reflexivity].
      unfold bind at 1 in B.
      destruct (Driver.Application E s0 _) as [[u|e0] s3] eqn:A;
        pose proof (preserves_driver_call E main_window (fun _ _ => eq_refl) _ _ _ A) as M3;
        cbn [main_window set_log] in M3; [|inversion B; subst; exact M3].
      unfold bind at 1 in B. destruct (application_path c); [|inversion B; subst; exact M3].
      unfold bind at 1 in B.
      assert (preserves main_window (Driver.start E s4)) as Ps by frame.
      destruct (Driver.start E s4 s3) as [[u1|e1] s5] eqn:St; apply Ps in St.
      * unfold bind at 1 in B.
        destruct (Three.connect_to_main_window E c s5) as [[w|e2] s6] eqn:C.
        -- unfold bind, logger_info, logger_log in B. discriminate.
        -- inversion B; subst. apply PC in C. congruence.
      * inversion B; subst. congruence.
Qed.

(** ** No input reaches a control that was not found ready *)

Lemma guarded_action E (el : spec) (w : M spec) (k : spec -> M unit) (h : exn -> M unit)
      (s : state) :
  (forall r s1, w s = (r, s1) ->
                trace s1 = trace s /\
                forall x, r = Ok x -> all_four E el (clock s1) = true) ->
  (forall x, preserves clock (k x)) ->
  (forall e, preserves clock (h e)) ->
  (forall e, preserves trace (h e)) ->
  trace (snd (try_except (bind w k) h s)) <> trace s ->
  all_four E el (clock (snd (try_except (bind w k) h s))) = true.
Proof.
  intros Hw Hk Hc Ht. unfold try_except, bind.
  destruct (w s) as [[x|e] s1] eqn:W; destruct (Hw _ _ eq_refl) as (T1 & A1).
  - destruct (k x s1) as [[u|e] s2] eqn:K; pose proof (Hk x _ _ _ K) as C2.
    + simpl. intros _. rewrite C2. eauto.
    + destruct (h e s2) as [r3 s3] eqn:Hh. simpl. intros _.
      rewrite (Hc e _ _ _ Hh), C2. eauto.
  - destruct (h e s1) as [r3 s3] eqn:Hh. simpl. intros N. exfalso. apply N.
    rewrite (Ht e _ _ _ Hh). exact T1.
Qed.

Lemma snd_returning {A B : Type} (m : M A) (b : B) (s : state) :
  snd (bind m (fun _ => ret b) s) = snd (m s).
Proof. unfold bind, ret. destruct (m s) as [[a|e] s1]; reflexivity. Qed.

Lemma base_wait_guard E c parent loc s r s1 :
  Base.wait_for_element E c parent loc s = (r, s1) ->
  trace s1 = trace s /\
  forall x, r = Ok x -> all_four E (child_window parent loc) (clock s1) = true.
Proof.
  intros H.
  assert (preserves trace (Base.wait_for_element E c parent loc)) as P
    by (unfold Base.wait_for_element; frame).
  split; [eapply P; eauto|]. intros x ->.
  apply base_wait_inv in H. cbv zeta in H.
  destruct H as [(_ & Hr & _)|(T & r1 & s2 & _ & W & Hc & _ & _ & [(-> & _)|(e & _ & Hr & _)])];
    try discriminate.
  apply (wait_inv _ _ _ _ _ _ _ _ criteria_blocking) in W.
  destruct W as [(e & _ & He & _)|(_ & _ & _ & [(_ & Hk)|(He & _)])]; try discriminate.
  rewrite check_blocking in Hk. now rewrite Hc.
Qed.

Lemma one_wait_guard E c main loc timeout s r s1 :
  main_window s = Some main ->
  One.wait_for_element E c loc timeout s = (r, s1) ->
  trace s1 = trace s /\
  forall x, r = Ok x -> all_four E (child_window main loc) (clock s1) = true.
Proof.
  intros Hm H. pose proof H as H0. apply one_wait_inv in H.
  destruct H as [(Hr & -> & _)|(T & _ & [(Hn & _)|(p & r1 & s2 & Hp & W & Hc & _ & Ht &
                   Hres)])].
  - split; [reflexivity|]. intros x Hx. congruence.
  - congruence.
  - assert (p = main) by congruence. subst p.
    pose proof (wait_calls _ _ _ _ _ _ _ W) as (_ & _ & Tr & _).
    split; [congruence|]. intros x ->.
    destruct Hres as [(-> & _)|(e & _ & Hr & _)]; [|discriminate].
    apply (wait_inv _ _ _ _ _ _ _ _ criteria_blocking) in W.
    destruct W as [(e & _ & He & _)|(_ & _ & _ & [(_ & Hk)|(He & _)])]; try discriminate.
    rewrite check_blocking in Hk. now rewrite Hc.
Qed.

Lemma three_wait_guard E c parent loc s r s1 :
  Three.wait_for_element E c parent loc s = (r, s1) ->
  trace s1 = trace s /\
  forall x, r = Ok x -> all_four E (child_window parent loc) (clock s1) = true.
Proof.
  intros H.
  destruct (three_wait_for_element_loop E c parent loc s) as (r0 & s0 & L & W).
  rewrite W in H. inversion H; subst r0 s0.
  apply wait_loop_inv in L.
  destruct L as (_ & _ & Tr & _ & [(_ & Ha & _)|(-> & _)]); split; auto; discriminate.
Qed.

(** Every operation that acts on a control (click, text, toggle, selection,
    expansion) performs an action only after its wait found that control
    existing, enabled, visible and ready, whatever the driver raises: if the
    trace of actions grew, the control reported the four flags at the
    instant the operation ended. *)
Theorem actions_reach_ready_controls_only :
  forall (E : env) (c : config) (s : state),
    (forall o el, base_target o = Some el ->
                  trace (snd (Base.run E c o s)) <> trace s ->
                  all_four E el (clock (snd (Base.run E c o s))) = true) /\
    (forall main o el, main_window s = Some main ->
                  one_target main o = Some el ->
                  trace (snd (One.run E c o s)) <> trace s ->
                  all_four E el (clock (snd (One.run E c o s))) = true) /\
    (forall o el, three_target o = Some el ->
                  trace (snd (Three.run E c o s)) <> trace s ->
                  all_four E el (clock (snd (Three.run E c o s))) = true).
Proof.
  intros E c s. split; [|split].
  - intros o el Ho. destruct o; try discriminate; inversion Ho; subst; simpl;
      unfold Base.returning_none; rewrite snd_returning;
      [unfold Base.click_element|unfold Base.enter_text|unfold Base.right_click_element
      |unfold Base.select_context_menu|unfold Base.wizard_next|unfold Base.wizard_finish];
      cbv zeta; apply guarded_action;
      try (intros; eapply base_wait_guard; eauto); intros; frame.
  - intros main o el Hm Ho. destruct o; try discriminate; inversion Ho; subst; simpl;
      unfold One.returning_none; rewrite snd_returning;
      [unfold One.click_element|unfold One.enter_text|unfold One.expand_tree_item
      |unfold One.right_click_element];
      apply guarded_action;
      try (intros; eapply one_wait_guard; eauto); intros; frame.
  - intros o el Ho. destruct o; try discriminate; inversion Ho; subst; simpl;
      unfold Three.returning_none; rewrite snd_returning;
      [unfold Three.click_element|unfold Three.enter_text|unfold Three.set_checkbox
      |unfold Three.select_combobox];
      apply guarded_action;
      try (intros; eapply three_wait_guard; eauto); intros; frame.
Qed.

(** A run: on a driver whose second call raises, the click of
    [base_class.py] has focused the button, which was ready. *)
Lemma actions_reach_ready_controls_only_witness :
  let E := mkEnv (fun _ _ => Some ready_control) (fun _ => false)
                 (fun n => match n with
                           | 2%nat => Some (DriverError "access denied")
                           | _ => None
                           end)
                 (fun _ _ _ f => Ok f) in
  let o := Base.ClickElement jetadmin ok_button in
  trace (snd (Base.run E sample_config o fresh)) <> trace fresh /\
  all_four E (child_window jetadmin ok_button) (clock (snd (Base.run E sample_config o fresh)))
  = true.
Proof.
  intros E o.
  assert (trace (snd (Base.run E sample_config o fresh)) <> trace fresh) as N
    by (vm_compute; discriminate).
  split; [exact N|].
  exact (proj1 (actions_reach_ready_controls_only E sample_config fresh) o _ eq_refl N).
Defined.

(** ** Records at error level mean failure *)

Section Tidy.
Variable E : env.

Lemma tidy_quiet {A : Type} (m : M A) :
  (forall s r s', m s = (r, s') -> log s' = log s) -> tidy m.
Proof.
  intros Hm s r s' H. exists []. rewrite app_nil_r. split; [eapply Hm; eauto|reflexivity].
Qed.

Lemma tidy_ret {A : Type} (a : A) : tidy (ret a).
Proof. apply tidy_quiet. intros s r s' H. now inversion H. Qed.

Lemma tidy_raise {A : Type} (e : exn) : tidy (@raise A e).
Proof. apply tidy_quiet. intros s r s' H. now inversion H. Qed.

Lemma tidy_lift {A : Type} (x : result A) : tidy (lift x).
Proof. apply tidy_quiet. intros s r s' H. now inversion H. Qed.

Lemma tidy_info m : tidy (logger_info m).
Proof. intros s r s' H. inversion H; subst. exists [mkLog INFO m]. split; reflexivity. Qed.

Lemma tidy_preserving {A : Type} (m : M A) : preserves log m -> tidy m.
Proof. intros P. apply tidy_quiet. exact P. Qed.

Lemma tidy_bind {A B : Type} (m : M A) (k : A -> M B) :
  tidy m -> (forall a, tidy (k a)) -> tidy (bind m k).
Proof.
  intros Hm Hk s r s' H. unfold bind in H.
  destruct (m s) as [[a|e] s1] eqn:R.
  - destruct (Hm _ _ _ R) as (l1 & L1 & N1). destruct (Hk _ _ _ _ H) as (l2 & L2 & N2).
    exists (l1 ++ l2). split; [now rewrite L2, L1, app_assoc|].
    intros b Hb. rewrite existsb_app, (N1 a eq_refl), (N2 b Hb). reflexivity.
  - inversion H; subst. destruct (Hm _ _ _ R) as (l1 & L1 & _).
    exists l1. split; [exact L1|]. intros b Hb. discriminate.
Qed.

Lemma tidy_try {A : Type} (body : M A) (h : exn -> M A) :
  tidy body -> rethrows h -> (forall e, extends (h e)) -> tidy (try_except body h).
Proof.
  intros Hb Hr He s r s' H. unfold try_except in H.
  destruct (body s) as [[a|e] s1] eqn:R.
  - inversion H; subst. eapply Hb; eauto.
  - destruct (Hb _ _ _ R) as (l1 & L1 & _). destruct (Hr e s1) as (s2 & X & _).
    destruct (He e _ _ _ H) as (l2 & L2). rewrite X in H. inversion H; subst.
    exists (l1 ++ l2). split; [now rewrite L2, L1, app_assoc|]. intros b Hb'. discriminate.
Qed.

Lemma tidy_three_wait c parent loc : tidy (Three.wait_for_element E c parent loc).
Proof.
  intros s r s' H.
  destruct (three_wait_for_element_loop E c parent loc s) as (r0 & s0 & L & W).
  rewrite W in H. inversion H; subst r0 s0.
  apply wait_loop_inv in L.
  destruct L as (_ & _ & _ & _ & [(_ & _ & -> & _)|(-> & _ & _ & m & ->)]).
  - exists []. rewrite app_nil_r. split; reflexivity.
  - eexists. split; [reflexivity|]. intros a Ha. discriminate.
Qed.

Ltac handler_extends :=
  intros ?; repeat first
    [ apply extends_logger_log | apply extends_attach | apply extends_raise
    | apply extends_bind; [|intros ?]
    | match goal with |- extends (if ?b then _ else _) => destruct b end ].

Ltac handler_rethrows :=
  first [ apply (rethrows_plain (fun e => _))
        | apply (rethrows_attach (fun e => _) (fun e => _))
        | intros e0 s0; destruct (is_timeout e0); eexists; split; reflexivity ].

Ltac tidy_step :=
  first
    [ apply tidy_three_wait
    | apply tidy_info | apply tidy_ret | apply tidy_raise | apply tidy_lift
    | apply tidy_preserving; solve [frame]
    | apply tidy_try; [|handler_rethrows|handler_extends]
    | apply tidy_bind; [|intros ?]
    | match goal with
      | |- tidy (if ?b then _ else _) => destruct b
      | |- tidy (match ?x with Some _ => _ | None => _ end) => destruct x
      end ].

Lemma tidy_one_main_child loc : tidy (One.main_child_window loc).
Proof.
  apply tidy_quiet. unfold One.main_child_window. intros s r s' H.
  destruct (main_window s); now inversion H.
Qed.

Lemma tidy_base c o : tidy (Base.run E c o).
Proof.
  destruct o; simpl; unfold Base.returning_none;
    [unfold Base.launch_application|unfold Base.connect_to_main_window| |
     unfold Base.click_element|unfold Base.enter_text|unfold Base.right_click_element|
     unfold Base.select_context_menu|unfold Base.wizard_next|unfold Base.wizard_finish| ];
    unfold Base.wait_for_element; cbv zeta;
    try (solve [repeat tidy_step]).
  (* bring_window_to_front handles the failure and logs a warning *)
  apply tidy_bind; [|intros ?; apply tidy_ret].
  intros s r s' H.
  unfold Base.bring_window_to_front, Driver.set_focus, Driver.driver_call, Driver.record,
    try_except, bind, logger_info, logger_warning, logger_log in H.
  destruct (fault E (calls s)); inversion H; subst; simpl;
    eexists [_]; split; reflexivity.
Qed.

Lemma tidy_one c o : tidy (One.run E c o).
Proof.
  destruct o; simpl; unfold One.returning_none;
    [unfold One.launch_application|unfold One.connect_to_main_window| |
     unfold One.click_element|unfold One.enter_text|unfold One.expand_tree_item|
     unfold One.right_click_element];
    unfold One.wait_for_element, One.timeout_or_default;
    repeat first [apply tidy_one_main_child | tidy_step].
Qed.

Lemma tidy_three c o : tidy (Three.run E c o).
Proof.
  destruct o; simpl; unfold Three.returning_none;
    [unfold Three.launch_application, Three.connect_to_main_window
    |unfold Three.connect_to_main_window| |
     unfold Three.click_element|unfold Three.enter_text|unfold Three.set_checkbox|
     unfold Three.select_combobox];
    repeat tidy_step.
Qed.

End Tidy.

(** An operation that returns normally has logged nothing at error level:
    in the three facades a record at error level is always followed by the
    exception reaching the caller. *)
Theorem error_records_mean_failure :
  forall (E : env) (c : config),
    (forall o, tidy (Base.run E c o)) /\
    (forall o, tidy (One.run E c o)) /\
    (forall o, tidy (Three.run E c o)).
Proof.
  intros E c. split; [|split]; intros o;
    [apply tidy_base|apply tidy_one|apply tidy_three].
Qed.

(** ** Tree items, check boxes and text, call after call *)

Lemma actions_between_app s s' l :
  trace s' = trace s ++ l -> actions_between s s' = l.
Proof.
  intros H. unfold actions_between. rewrite H, skipn_app, Nat.sub_diag, skipn_all.
  reflexivity.
Qed.

Lemma expand_tree_item_run E c main loc s :
  no_fault E ->
  default_timeout c <> None ->
  main_window s = Some main ->
  all_four E (child_window main loc) (clock s) = true ->
  let el := child_window main loc in
  exists s',
    One.expand_tree_item E c loc s = (Ok tt, s') /\
    clock s' = clock s /\ main_window s' = main_window s /\
    trace s' = trace s ++ (if expanded s el then [] else [AExpand el]) /\
    expanded s' el = true.
Proof.
  intros NF D Hm A el.
  unfold One.expand_tree_item, try_except. unfold bind at 1.
  rewrite (one_wait_ready E c main); auto. fold el.
  unfold Driver.is_expanded, Driver.expand, Driver.driver_call, Driver.record.
  unfold bind at 1. unfold bind at 1. rewrite NF.
  cbn [expanded set_calls set_log].
  destruct (expanded s el) eqn:X; cbn [negb].
  - unfold bind, ret, logger_info, logger_log.
    eexists; split; [reflexivity|]. cbn. rewrite app_nil_r. auto.
  - unfold bind, ret, logger_info, logger_log. rewrite NF.
    eexists; split; [reflexivity|]. cbn. rewrite upd_same. auto.
Qed.

(** [expand_tree_item] of [1.py] is idempotent: on a ready tree item, two
    calls in a row both succeed, the first expands the item exactly when it
    was collapsed, the second never expands, and the item is expanded
    afterwards. *)
Theorem expand_tree_item_twice_expands_at_most_once :
  forall (E : env) (c : config) (main : spec) (loc : locator) (s : state),
    no_fault E ->
    default_timeout c <> None ->
    main_window s = Some main ->
    all_four E (child_window main loc) (clock s) = true ->
    let el := child_window main loc in
    exists s1 s2,
      One.expand_tree_item E c loc s = (Ok tt, s1) /\
      One.expand_tree_item E c loc s1 = (Ok tt, s2) /\
      actions_between s s1 = (if expanded s el then [] else [AExpand el]) /\
      actions_between s1 s2 = [] /\
      expanded s2 el = true.
Proof.
  intros E c main loc s NF D Hm A el.
  destruct (expand_tree_item_run E c main loc s NF D Hm A) as (s1 & R1 & C1 & M1 & T1 & X1).
  fold el in T1, X1.
  assert (all_four E (child_window main loc) (clock s1) = true) as A1 by now rewrite C1.
  assert (main_window s1 = Some main) as Hm1 by congruence.
  destruct (expand_tree_item_run E c main loc s1 NF D Hm1 A1) as (s2 & R2 & _ & _ & T2 & X2).
  fold el in T2, X2. rewrite X1 in T2.
  exists s1, s2. split; [exact R1|]. split; [exact R2|].
  rewrite (actions_between_app _ _ _ T1), (actions_between_app _ _ _ T2). auto.
Qed.

Lemma expand_tree_item_twice_expands_at_most_once_witness :
  let s0 := set_main_window (Some jetadmin) fresh in
  let groups := ["title" =: "Groups"; "control_type" =: "TreeItem"] in
  exists s1 s2,
    One.expand_tree_item always_ready sample_config groups s0 = (Ok tt, s1) /\
    One.expand_tree_item always_ready sample_config groups s1 = (Ok tt, s2) /\
    actions_between s0 s1
    = (if expanded s0 (child_window jetadmin groups) then []
       else [AExpand (child_window jetadmin groups)]) /\
    actions_between s1 s2 = [] /\
    expanded s2 (child_window jetadmin groups) = true.
Proof.
  intros s0 groups.
  apply (expand_tree_item_twice_expands_at_most_once always_ready sample_config jetadmin
           groups s0).
  - intros n. reflexivity.
  - discriminate.
  - reflexivity.
  - reflexivity.
Defined.

(** On a check box with two states that reads 0 or 1, [set_checkbox]
    reaches the state asked for: 1 for [check=True], 0 for [check=False]. *)
Theorem set_checkbox_reaches_desired_state :
  forall (E : env) (c : config) (parent : spec) (check : bool) (loc : locator)
         (s : state),
    no_fault E ->
    0 < get_or (default_timeout c) 20 ->
    all_four E (child_window parent loc) (clock s) = true ->
    tristate E (child_window parent loc) = false ->
    toggle_state s (child_window parent loc) = 0
    \/ toggle_state s (child_window parent loc) = 1 ->
    exists s',
      Three.set_checkbox E c parent check loc s = (Ok tt, s') /\
      toggle_state s' (child_window parent loc) = (if check then 1 else 0).
Proof.
  intros E c parent check loc s NF T A Tri V.
  destruct (set_checkbox_run E c parent check loc s NF T A) as (s' & R & _ & _ & St & _).
  exists s'. split; [exact R|]. rewrite St, Tri.
  destruct V as [-> | ->]; destruct check; reflexivity.
Qed.

Lemma set_checkbox_reaches_desired_state_witness :
  exists s',
    Three.set_checkbox always_ready sample_config jetadmin false ok_button
      (set_toggle_state (fun _ => 1) fresh) = (Ok tt, s') /\
    toggle_state s' (child_window jetadmin ok_button) = 0.
Proof.
  apply (set_checkbox_reaches_desired_state always_ready sample_config jetadmin false
           ok_button (set_toggle_state (fun _ => 1) fresh)).
  - intros n. reflexivity.
  - reflexivity.
  - reflexivity.
  - reflexivity.
  - right. reflexivity.
Defined.





(** ** Construction and launch *)

(** A constructor that returns has loaded the document it returns, found
    [backend] in it, reset [self.main_window], given the logger a handler
    and called the driver twice in [base_class.py] ([Application] and
    [Desktop]) and once in the other scripts; a constructor that raises has
    logged nothing. *)
Theorem construction_postcondition :
  forall (E : env) (k : script) (file : option config) (s : state),
    match fst (construct E k file s) with
    | Ok c =>
        file = Some c /\ backend c <> None /\
        main_window (snd (construct E k file s)) = None /\
        handlers (snd (construct E k file s)) <> [] /\
        calls (snd (construct E k file s))
        = (calls s + match k with BaseClassPy => 2 | _ => 1 end)%nat
    | Raise _ => log (snd (construct E k file s)) = log s
    end.
Proof.
  intros E k file s.
  destruct k; simpl;
    [unfold Base.__init__|unfold One.__init__|unfold Three.__init__];
    unfold json_load, Driver.Application, Driver.Desktop, Driver.driver_call,
      Base._get_logger, One._get_logger, Three._get_logger,
      lift, subscript, ret, raise, bind;
    destruct file as [c|]; try reflexivity;
    destruct (backend c) eqn:B; try reflexivity;
    cbn [calls set_calls set_main_window];
    repeat match goal with
           | |- context [fault E ?n] => destruct (fault E n)
           end;
    try reflexivity;
    cbn [fst snd handlers main_window calls set_calls set_main_window set_handlers];
    (split; [reflexivity|]); (split; [congruence|]);
    destruct (handlers s) eqn:Hh;
    cbn [handlers main_window calls set_calls set_main_window set_handlers];
    rewrite ?Hh; (split; [reflexivity|]); (split; [discriminate|lia]).
Qed.

Lemma check_visible E w t :
  Driver.check_all E w [Driver.Visible] t = Driver.reports Driver.Visible (tree E w t).
Proof. unfold Driver.check_all. simpl. apply andb_true_r. Qed.

(** A wait on a driver that does not raise finds what holds from some
    instant before the deadline on. *)
Lemma wait_finds E w crit fl secs s r0 :
  Driver.parse_criteria crit = Some fl ->
  fault E (calls s) = None ->
  r0 <= Z.max (clock s) (clock s + secs * 1000) ->
  (forall t, r0 <= t -> Driver.check_all E w fl t = true) ->
  exists t,
    Driver.wait E w crit secs s = (Ok tt, set_clock t (set_calls (S (calls s)) s)) /\
    clock s <= t <= Z.max (clock s) (clock s + secs * 1000).
Proof.
  intros P F Hr Hready.
  destruct (Driver.wait E w crit secs s) as [r s'] eqn:W.
  apply (wait_inv _ _ _ _ _ _ _ _ P) in W.
  destruct W as [(e & He & _)|(_ & Hs & Ht & [(-> & _)|(_ & Hlate & Hk)])].
  - congruence.
  - exists (clock s'). split; [now rewrite <- Hs|exact Ht].
  - rewrite Hready in Hk; [discriminate|lia].
Qed.

(** Unfold the sequence of a body up to its wait on the main window. *)
Ltac reach_wait E T NF :=
  repeat (lazymatch goal with
          | |- context [Driver.wait E jetadmin "visible" T ?st] => fail
          | _ => unfold bind at 1; rewrite ?NF
          end).

(** With a complete configuration, a driver that raises nothing and a main
    window that is visible from some instant before the timeout on,
    [launch_application] of every script returns normally within the
    timeout, has started the configured application and then focused the
    main window, and leaves [self.main_window] naming that window. *)
Theorem launch_application_succeeds :
  forall (E : env) (c : config) (s : state) (p b : string) (T r : Z),
    application_path c = Some p ->
    backend c = Some b ->
    default_timeout c = Some T ->
    no_fault E ->
    r <= Z.max (clock s) (clock s + T * 1000) ->
    (forall t, r <= t -> Driver.reports Driver.Visible (tree E jetadmin t) = true) ->
    let post (s' : state) :=
      main_window s' = Some jetadmin /\
      actions_between s s' = [AStart p; AFocus jetadmin] /\
      clock s <= clock s' <= Z.max (clock s) (clock s + T * 1000) in
    (exists s', Base.launch_application E c s = (Ok tt, s') /\ post s') /\
    (exists s', One.launch_application E c s = (Ok tt, s') /\ post s') /\
    (exists s', Three.launch_application E c s = (Ok tt, s') /\ post s').
Proof.
  intros E c s p b T r Hp Hb HT NF Hr Hvis post.
  assert (forall t, r <= t -> Driver.check_all E jetadmin [Driver.Visible] t = true) as Hc
    by (intros t Ht; rewrite check_visible; auto).
  split; [|split].
  - unfold Base.launch_application, Driver.start, Driver.set_focus, Driver.driver_call,
      Driver.record, try_except, logger_info, logger_log, lift, subscript.
    rewrite Hp, HT. reach_wait E T NF.
    match goal with
    | |- context [Driver.wait E jetadmin "visible" T ?st] =>
        destruct (wait_finds E jetadmin "visible" [Driver.Visible] T st r
                    criteria_visible (NF _)) as (t & W & Ht);
          [cbn [clock calls set_main_window set_trace set_calls set_log]; lia
          |exact Hc|rewrite W]
    end.
    cbn [clock calls set_main_window set_trace set_calls set_log set_clock] in Ht.
    unfold bind. rewrite NF.
    eexists; split; [reflexivity|]. unfold post.
    split; [reflexivity|]. split; [|cbn; exact Ht].
    apply actions_between_app. cbn. now rewrite <- app_assoc.
  - unfold One.launch_application, Driver.Application, Driver.start, Driver.set_focus,
      Driver.driver_call, Driver.record, try_except, logger_info, logger_log, lift, subscript.
    rewrite Hp, Hb, HT. reach_wait E T NF.
    match goal with
    | |- context [Driver.wait E jetadmin "visible" T ?st] =>
        destruct (wait_finds E jetadmin "visible" [Driver.Visible] T st r
                    criteria_visible (NF _)) as (t & W & Ht);
          [cbn [clock calls set_main_window set_trace set_calls set_log]; lia
          |exact Hc|rewrite W]
    end.
    cbn [clock calls set_main_window set_trace set_calls set_log set_clock] in Ht.
    unfold bind. rewrite NF.
    eexists; split; [reflexivity|]. unfold post.
    split; [reflexivity|]. split; [|cbn; exact Ht].
    apply actions_between_app. cbn. now rewrite <- app_assoc.
  - unfold Three.launch_application, Three.connect_to_main_window, Driver.Application,
      Driver.start, Driver.set_focus,
      Driver.driver_call, Driver.record, try_except, logger_info, logger_log, lift, subscript.
    rewrite Hp, Hb, HT. reach_wait E T NF.
    match goal with
    | |- context [Driver.wait E jetadmin "visible" T ?st] =>
        destruct (wait_finds E jetadmin "visible" [Driver.Visible] T st r
                    criteria_visible (NF _)) as (t & W & Ht);
          [cbn [clock calls set_main_window set_trace set_calls set_log]; lia
          |exact Hc|rewrite W]
    end.
    cbn [clock calls set_main_window set_trace set_calls set_log set_clock] in Ht.
    unfold bind, ret. rewrite NF.
    eexists; split; [reflexivity|]. unfold post.
    split; [reflexivity|]. split; [|cbn; exact Ht].
    apply actions_between_app. cbn. now rewrite <- app_assoc.
Qed.

Lemma launch_application_succeeds_witness :
  let c := with_default_timeout sample_config 25 in
  let post (s' : state) :=
    main_window s' = Some jetadmin /\
    actions_between fresh s'
    = [AStart "C:/Program Files/HP/Web Jetadmin/wja.exe"; AFocus jetadmin] /\
    clock fresh <= clock s' <= Z.max (clock fresh) (clock fresh + 25 * 1000) in
  (exists s', Base.launch_application late_ui c fresh = (Ok tt, s') /\ post s') /\
  (exists s', One.launch_application late_ui c fresh = (Ok tt, s') /\ post s') /\
  (exists s', Three.launch_application late_ui c fresh = (Ok tt, s') /\ post s').
Proof.
  intros c post.
  apply (launch_application_succeeds late_ui c fresh
           "C:/Program Files/HP/Web Jetadmin/wja.exe" "uia" 25 20001).
  - reflexivity.
  - reflexivity.
  - reflexivity.
  - intros n. reflexivity.
  - simpl. lia.
  - intros t Ht. unfold late_ui, calm. simpl.
    assert ((20000 <? t) = true) as -> by (apply Z.ltb_lt; lia). reflexivity.
Defined.

(** ** The navigation helper of the test in [3.py] *)

Lemma three_click_inv E c parent loc s r s' :
  Three.click_element E c parent loc s = (r, s') ->
  main_window s' = main_window s /\
  exists l, trace s' = trace s ++ l /\
            filter is_click l
            = match r with
              | Ok _ => [AClick (child_window parent loc)]
              | Raise _ => []
              end.
Proof.
  intros H. split.
  - assert (preserves main_window (Three.click_element E c parent loc)) as P.
    { unfold Three.click_element. apply preserves_try; [|intros ?; frame].
      apply preserves_bind; [apply three_wait_keeps_main_window|intros ?; frame]. }
    eapply P; eauto.
  - unfold Three.click_element, try_except in H. unfold bind at 1 in H.
    destruct (Three.wait_for_element E c parent loc s) as [[el|e] s1] eqn:W;
      pose proof (three_wait_guard _ _ _ _ _ _ _ W) as (T1 & _).
    + assert (el = child_window parent loc) as ->.
      { destruct (three_wait_for_element_loop E c parent loc s) as (r0 & s0 & L & W0).
        rewrite W0 in W. inversion W; subst.
        apply wait_loop_inv in L.
        destruct L as (_ & _ & _ & _ & [(X & _)|(X & _)]); now inversion X. }
      unfold Driver.set_focus, Driver.click_input, Driver.driver_call, Driver.record,
        bind, logger_info, logger_error, logger_log, raise in H.
      destruct (fault E (calls s1)).
      * inversion H; subst. exists []. cbn. rewrite app_nil_r. auto.
      * cbn [calls set_calls set_trace] in H. destruct (fault E (S (calls s1))).
        -- inversion H; subst. eexists [_]. cbn. rewrite T1. split; reflexivity.
        -- inversion H; subst. eexists [_; _]. cbn. rewrite T1, <- app_assoc.
           split; reflexivity.
    + unfold bind, logger_error, logger_log, raise in H. inversion H; subst.
      exists []. cbn. rewrite app_nil_r. auto.
Qed.

Lemma click_then_inv E c main rest : forall path s r s',
  main_window s = Some main ->
  ThreeTest.click_then E c path rest s = (r, s') ->
  (exists n l e, r = Raise e /\ trace s' = trace s ++ l /\
                 filter is_click l = firstn n (ThreeTest.targets main path)) \/
  (exists s1 l, main_window s1 = Some main /\ trace s1 = trace s ++ l /\
                filter is_click l = ThreeTest.targets main path /\
                rest s1 = (r, s')).
Proof.
  induction path as [|[menu item] more IH]; intros s r s' Hm H.
  - right. exists s, []. rewrite app_nil_r. auto.
  - simpl in H. unfold bind at 1 in H. unfold ThreeTest.main_child_window in H.
    rewrite Hm in H. unfold bind at 1 in H.
    destruct (Three.click_element E c (child_window main menu) item s) as [[u|e] s2] eqn:K;
      apply three_click_inv in K; destruct K as (M2 & l1 & T2 & F2).
    + rewrite Hm in M2. destruct (IH _ _ _ M2 H) as [(n & l & e & -> & T & F)|(s1 & l & M1 & T & F & R)].
      * left. exists (S n), (l1 ++ l), e. split; [reflexivity|].
        split; [now rewrite T, T2, app_assoc|].
        rewrite filter_app, F2, F. reflexivity.
      * right. exists s1, (l1 ++ l). split; [exact M1|].
        split; [now rewrite T, T2, app_assoc|]. split; [|exact R].
        rewrite filter_app, F2, F. reflexivity.
    + inversion H; subst. left. exists 0%nat, l1, e. auto.
Qed.

Lemma navigation_rest_inv E c s r s' :
  (t <- lift (subscript "default_timeout" (default_timeout c)) ;;
   Driver.wait E ThreeTest.agents_window "visible" t ;;
   Driver.set_focus E ThreeTest.agents_window ;;
   logger_info "OXPd Statistics Agents window is visible.") s = (r, s') ->
  exists l, trace s' = trace s ++ l /\ filter is_click l = [] /\
            (r = Ok tt ->
             Driver.reports Driver.Visible (tree E ThreeTest.agents_window (clock s')) = true).
Proof.
  intros H. unfold bind at 1 in H. unfold lift, subscript in H.
  destruct (default_timeout c) as [T|].
  - unfold bind at 1 in H.
    destruct (Driver.wait E ThreeTest.agents_window "visible" T s) as [[u|e] s1] eqn:W.
    + pose proof (wait_calls _ _ _ _ _ _ _ W) as (_ & _ & T1 & _).
      apply (wait_inv _ _ _ _ _ _ _ _ criteria_visible) in W.
      assert (Driver.reports Driver.Visible (tree E ThreeTest.agents_window (clock s1)) = true)
        as V.
      { destruct W as [(e & _ & X & _)|(_ & _ & _ & [(_ & Hk)|(X & _)])]; try discriminate.
        unfold Driver.check_all in Hk. simpl in Hk. now rewrite andb_true_r in Hk. }
      unfold Driver.set_focus, Driver.driver_call, Driver.record, bind, logger_info,
        logger_log in H.
      destruct (fault E (calls s1)); inversion H; subst.
      * exists []. cbn. rewrite app_nil_r. split; [exact T1|]. split; [reflexivity|].
        discriminate.
      * eexists [_]. cbn. rewrite T1. split; [reflexivity|]. split; [reflexivity|].
        intros _. exact V.
    + inversion H; subst. apply wait_calls in W. destruct W as (_ & _ & T1 & _).
      exists []. rewrite app_nil_r. split; [exact T1|]. split; [reflexivity|]. discriminate.
  - inversion H; subst. exists []. rewrite app_nil_r.
    split; [reflexivity|]. split; [reflexivity|]. discriminate.
Qed.

Lemma navigation_inv E c main s r s' :
  main_window s = Some main ->
  ThreeTest._navigate_to_oxpd_statistics_agents E c s = (r, s') ->
  exists l, trace s' = trace s ++ l /\
    (exists n, filter is_click l = firstn n (ThreeTest.targets main ThreeTest.menu_steps)) /\
    (r = Ok tt ->
     filter is_click l = ThreeTest.targets main ThreeTest.menu_steps /\
     Driver.reports Driver.Visible (tree E ThreeTest.agents_window (clock s')) = true).
Proof.
  intros Hm H.
  unfold ThreeTest._navigate_to_oxpd_statistics_agents, try_except in H.
  unfold bind at 1 in H. unfold logger_info at 1, logger_log in H.
  match type of H with
  | context [bind (ThreeTest.main_child_window ?k) ?f ?st] =>
      change (bind (ThreeTest.main_child_window k) f st)
        with (ThreeTest.click_then E c ThreeTest.menu_steps
                (t <- lift (subscript "default_timeout" (default_timeout c)) ;;
                 Driver.wait E ThreeTest.agents_window "visible" t ;;
                 Driver.set_focus E ThreeTest.agents_window ;;
                 logger_info "OXPd Statistics Agents window is visible.") st) in H;
      destruct (ThreeTest.click_then E c ThreeTest.menu_steps
                (t <- lift (subscript "default_timeout" (default_timeout c)) ;;
                 Driver.wait E ThreeTest.agents_window "visible" t ;;
                 Driver.set_focus E ThreeTest.agents_window ;;
                 logger_info "OXPd Statistics Agents window is visible.") st)
        as [r1 s1] eqn:K
  end.
  apply (click_then_inv E c main) in K; [|exact Hm].
  cbn [trace set_log] in K.
  destruct K as [(n & l & e & -> & T & F)|(s2 & l & M2 & T & F & R)].
  - unfold bind, logger_error, logger_log, raise in H. inversion H; subst.
    exists l. cbn. split; [exact T|]. split; [eauto|discriminate].
  - apply navigation_rest_inv in R. destruct R as (l2 & T2 & F2 & V).
    assert (trace s1 = trace s ++ (l ++ l2)) as TT by now rewrite T2, T, app_assoc.
    assert (filter is_click (l ++ l2) = ThreeTest.targets main ThreeTest.menu_steps) as FF
      by now rewrite filter_app, F, F2, app_nil_r.
    exists (l ++ l2).
    destruct r1 as [[]|e]; unfold bind, logger_error, logger_log, raise in H;
      inversion H; subst; cbn [trace clock set_log]; (split; [exact TT|]);
      (split; [exists 5%nat; exact FF|]).
    + intros _. split; [exact FF|]. apply V. reflexivity.
    + discriminate.
Qed.

(** The navigation helper of the test in [3.py] clicks the menu path
    Tools, Options, Device Management, Configuration, OXPd Statistics Agents
    in that order and stops at the first failure: whatever the UI and the
    driver do, the clicks made are a prefix of the path; when the helper
    returns normally all five were made and the agents window reported
    visible; when it fails the failure is logged at error level. *)
Theorem navigation_clicks_the_menu_path_in_order :
  forall (E : env) (c : config) (main : spec) (s : state),
    main_window s = Some main ->
    let out := ThreeTest._navigate_to_oxpd_statistics_agents E c s in
    let clicks := filter is_click (actions_between s (snd out)) in
    (exists n, clicks = firstn n (ThreeTest.targets main ThreeTest.menu_steps)) /\
    (fst out = Ok tt ->
     clicks = ThreeTest.targets main ThreeTest.menu_steps /\
     Driver.reports Driver.Visible (tree E ThreeTest.agents_window (clock (snd out))) = true) /\
    (forall e, fst out = Raise e -> error_logged s (snd out)).
Proof.
  intros E c main s Hm out clicks. subst clicks out. split; [|split].
  3: {
    intros e He.
    destruct (ThreeTest._navigate_to_oxpd_statistics_agents E c s) as [r s'] eqn:R.
    simpl in He. subst r. simpl.
    unfold ThreeTest._navigate_to_oxpd_statistics_agents in R.
    eapply loud_try; [| |exact R].
    - repeat first
        [ apply extends_logger_log | apply extends_lift | apply extends_wait
        | apply extends_set_focus
        | apply extends_bind; [|intros ?] ].
      all: try (intros s0 r0 s0' H0; unfold ThreeTest.main_child_window in H0;
                destruct (main_window s0); inversion H0; subst; exists [];
                now rewrite app_nil_r).
      all: unfold Three.click_element;
        (apply extends_try; [|intros ?; apply extends_bind;
                                [apply extends_logger_log|intros ?; apply extends_raise]]);
        repeat first
          [ apply extends_three_wait | apply extends_set_focus | apply extends_click_input
          | apply extends_logger_log | apply extends_bind; [|intros ?] ].
    - apply (loud_plain (fun e => _)). }
  all: destruct (ThreeTest._navigate_to_oxpd_statistics_agents E c s) as [r s'] eqn:R;
    apply (navigation_inv E c main) in R; try exact Hm;
    destruct R as (l & T & (n & Fn) & Hok); cbn [fst snd];
    rewrite (actions_between_app _ _ _ T).
  - exists n. exact Fn.
  - exact Hok.
Qed.

(** Before the application is launched the helper fails at once, on
    [self.main_window], without an action. *)
Example navigation_needs_a_main_window :
  fst (ThreeTest._navigate_to_oxpd_statistics_agents always_ready sample_config fresh)
  = Raise (none_has_no "child_window") /\
  trace (snd (ThreeTest._navigate_to_oxpd_statistics_agents always_ready sample_config fresh))
  = [].
Proof. split; reflexivity. Qed.

(** A run: on a UI in which everything is ready the five items are
    clicked. *)
Lemma navigation_clicks_the_menu_path_in_order_witness :
  let s0 := set_main_window (Some jetadmin) fresh in
  let out := ThreeTest._navigate_to_oxpd_statistics_agents always_ready sample_config s0 in
  let clicks := filter is_click (actions_between s0 (snd out)) in
  (exists n, clicks = firstn n (ThreeTest.targets jetadmin ThreeTest.menu_steps)) /\
  (fst out = Ok tt ->
   clicks = ThreeTest.targets jetadmin ThreeTest.menu_steps /\
   Driver.reports Driver.Visible
     (tree always_ready ThreeTest.agents_window (clock (snd out))) = true) /\
  (forall e, fst out = Raise e -> error_logged s0 (snd out)).
Proof.
  intros s0.
  apply (navigation_clicks_the_menu_path_in_order always_ready sample_config jetadmin s0).
  reflexivity.
Defined.

Example navigation_on_ready_ui :
  fst (ThreeTest._navigate_to_oxpd_statistics_agents always_ready sample_config
         (set_main_window (Some jetadmin) fresh)) = Ok tt.
Proof. vm_compute. reflexivity. Qed.

(** ** What an operation that returns has done *)

Section Performs.
Variable E : env.

Lemma performs_ret {A : Type} (a : A) : performs (ret a) [].
Proof. intros s x s' H. inversion H; subst. now rewrite app_nil_r. Qed.

Lemma performs_info m : performs (logger_info m) [].
Proof. intros s x s' H. inversion H; subst. simpl. now rewrite app_nil_r. Qed.

Lemma performs_bind {A B : Type} (m : M A) (k : A -> M B) l1 l2 :
  performs m l1 -> (forall a, performs (k a) l2) -> performs (bind m k) (l1 ++ l2).
Proof.
  intros Hm Hk s b s' H. unfold bind in H.
  destruct (m s) as [[a|e] s1] eqn:R; [|discriminate].
  rewrite (Hk _ _ _ _ H), (Hm _ _ _ R). now rewrite app_assoc.
Qed.

Lemma performs_call (a : action) :
  performs (Driver.driver_call E ;; Driver.record a) [a].
Proof.
  intros s x s' H. unfold bind, Driver.driver_call, Driver.record in H.
  destruct (fault E (calls s)); inversion H; subst. reflexivity.
Qed.

Lemma performs_set_focus w : performs (Driver.set_focus E w) [AFocus w].
Proof. apply performs_call. Qed.
Lemma performs_click_input w : performs (Driver.click_input E w) [AClick w].
Proof. apply performs_call. Qed.
Lemma performs_right_click_input w : performs (Driver.right_click_input E w) [ARightClick w].
Proof. apply performs_call. Qed.

Lemma performs_select w v : performs (Driver.select E w v) [ASelect w v].
Proof.
  intros s x s' H. unfold Driver.select, bind, Driver.driver_call, Driver.record in H.
  destruct (fault E (calls s)); inversion H; subst. reflexivity.
Qed.

Lemma performs_type_keys w keys sp : performs (Driver.type_keys E w keys sp) [AKeys w keys].
Proof.
  intros s x s' H. unfold Driver.type_keys, bind, Driver.driver_call, Driver.record in H.
  destruct (fault E (calls s)); [discriminate|].
  destruct (Driver.keys_effect E w keys sp (fields (set_calls (S (calls s)) s) w));
    inversion H; subst.
  reflexivity.
Qed.

(** The pattern of the element operations: wait, act, and hand every
    exception on. *)
Lemma performs_after_wait (el : spec) (w : M spec) (k : spec -> M unit)
      (h : exn -> M unit) (l0 l : list action) (s : state) :
  (forall r s1, w s = (r, s1) -> trace s1 = trace s /\ forall x, r = Ok x -> x = el) ->
  performs (k el) l0 ->
  rethrows h ->
  l0 = l ->
  match fst (try_except (bind w k) h s) with
  | Ok _ => actions_between s (snd (try_except (bind w k) h s)) = l
  | Raise _ => True
  end.
Proof.
  intros Hw Hk Hh <-. unfold try_except, bind.
  destruct (w s) as [[x|e] s1] eqn:W; destruct (Hw _ _ eq_refl) as (T1 & V1).
  - rewrite (V1 x eq_refl).
    destruct (k el s1) as [[u|e] s2] eqn:K.
    + simpl. apply actions_between_app. rewrite (Hk _ _ _ K). now rewrite T1.
    + destruct (Hh e s2) as (s3 & -> & _). exact I.
  - destruct (Hh e s1) as (s3 & -> & _). exact I.
Qed.

Lemma base_wait_value c parent loc s r s1 :
  Base.wait_for_element E c parent loc s = (r, s1) ->
  trace s1 = trace s /\ forall x, r = Ok x -> x = child_window parent loc.
Proof.
  intros H. split; [eapply base_wait_guard; eauto|]. intros x ->.
  apply base_wait_inv in H. cbv zeta in H.
  destruct H as [(_ & Hr & _)|(T & r1 & s2 & _ & _ & _ & _ & _ & [(_ & Hr)|(e & _ & Hr & _)])];
    now inversion Hr.
Qed.

Lemma one_wait_value c main loc timeout s r s1 :
  main_window s = Some main ->
  One.wait_for_element E c loc timeout s = (r, s1) ->
  trace s1 = trace s /\ forall x, r = Ok x -> x = child_window main loc.
Proof.
  intros Hm H. split; [eapply one_wait_guard; eauto|]. intros x ->.
  apply one_wait_inv in H.
  destruct H as [(Hr & _)|(T & _ & [(_ & Hr & _)|(p & r1 & s2 & Hp & _ & _ & _ & _ &
                   [(_ & Hr & _)|(e & _ & Hr & _)])])]; try discriminate.
  inversion Hr. congruence.
Qed.

Lemma three_wait_value c parent loc s r s1 :
  Three.wait_for_element E c parent loc s = (r, s1) ->
  trace s1 = trace s /\ forall x, r = Ok x -> x = child_window parent loc.
Proof.
  intros H. split; [eapply three_wait_guard; eauto|]. intros x ->.
  destruct (three_wait_for_element_loop E c parent loc s) as (r0 & s0 & L & W).
  rewrite W in H. inversion H; subst.
  apply wait_loop_inv in L.
  destruct L as (_ & _ & _ & _ & [(X & _)|(X & _)]); now inversion X.
Qed.

End Performs.

Ltac performs_tac E :=
  repeat first
    [ apply (performs_set_focus E) | apply (performs_click_input E)
    | apply (performs_right_click_input E) | apply (performs_select E)
    | apply (performs_type_keys E) | apply performs_info | apply performs_ret
    | eapply performs_bind; [|intros ?] ].

(** An element operation that returns has performed its fixed sequence of
    actions on the control, whatever the state of the UI: [click_element]
    focuses and clicks, [right_click_element] focuses and right-clicks,
    [enter_text] focuses and types (after the clearing keys where the script
    clears), [select_combobox] focuses and selects, and [wizard_next],
    [wizard_finish] and [select_context_menu] click without focusing. *)
Theorem returned_operations_performed_their_script :
  forall (E : env) (c : config) (s : state),
    (forall o l, base_script o = Some l ->
       match fst (Base.run E c o s) with
       | Ok _ => actions_between s (snd (Base.run E c o s)) = l
       | Raise _ => True
       end) /\
    (forall main o l, main_window s = Some main -> one_script main o = Some l ->
       match fst (One.run E c o s) with
       | Ok _ => actions_between s (snd (One.run E c o s)) = l
       | Raise _ => True
       end) /\
    (forall o l, three_script o = Some l ->
       match fst (Three.run E c o s) with
       | Ok _ => actions_between s (snd (Three.run E c o s)) = l
       | Raise _ => True
       end).
Proof.
  intros E c s.
  assert (forall (m : M unit) (l : list action),
            match fst (m s) with
            | Ok _ => actions_between s (snd (m s)) = l
            | Raise _ => True
            end ->
            match fst (bind m (fun _ => ret (@None spec)) s) with
            | Ok _ => actions_between s (snd (bind m (fun _ => ret (@None spec)) s)) = l
            | Raise _ => True
            end) as Wrap.
  { intros m l. unfold bind, ret. destruct (m s) as [[u|e] s1]; simpl; auto. }
  split; [|split].
  - intros o l Ho. destruct o; try discriminate; inversion Ho; subst; simpl;
      unfold Base.returning_none; apply Wrap;
      [unfold Base.click_element|unfold Base.enter_text|unfold Base.right_click_element
      |unfold Base.select_context_menu|unfold Base.wizard_next|unfold Base.wizard_finish];
      cbv zeta;
      (eapply performs_after_wait;
       [intros; eapply base_wait_value; eauto
       |performs_tac E
       |apply (rethrows_plain (fun e => _))
       |reflexivity]).
  - intros main o l Hm Ho. destruct o as [| | |loc|loc text clear| |loc];
      try discriminate; inversion Ho; subst; try (destruct clear); simpl;
      unfold One.returning_none; apply Wrap;
      [unfold One.click_element|unfold One.enter_text|unfold One.enter_text
      |unfold One.right_click_element];
      cbv iota;
      (eapply performs_after_wait;
       [intros; eapply one_wait_value; eauto
       |performs_tac E
       |apply (rethrows_attach (fun e => _) (fun e => _))
       |reflexivity]).
  - intros o l Ho. destruct o; try discriminate; inversion Ho; subst; simpl;
      unfold Three.returning_none; apply Wrap;
      [unfold Three.click_element|unfold Three.enter_text|unfold Three.select_combobox];
      (eapply performs_after_wait;
       [intros; eapply three_wait_value; eauto
       |performs_tac E
       |apply (rethrows_plain (fun e => _))
       |reflexivity]).
Qed.

(** A run: the wizard's [Next] button is clicked, not focused. *)
Lemma returned_operations_performed_their_script_witness :
  let o := Base.WizardNext jetadmin in
  let next := child_window jetadmin ["title" =: "Next"; "control_type" =: "Button"] in
  match fst (Base.run always_ready sample_config o fresh) with
  | Ok _ => actions_between fresh (snd (Base.run always_ready sample_config o fresh))
            = [AClick next]
  | Raise _ => True
  end.
Proof.
  intros o next.
  exact (proj1 (returned_operations_performed_their_script always_ready sample_config fresh)
           o [AClick next] eq_refl).
Defined.

(** ** The two blocking variants *)

Lemma wait_depends_on_clock_and_calls E w crit secs s1 s2 :
  clock s1 = clock s2 ->
  calls s1 = calls s2 ->
  fst (Driver.wait E w crit secs s1) = fst (Driver.wait E w crit secs s2) /\
  clock (snd (Driver.wait E w crit secs s1)) = clock (snd (Driver.wait E w crit secs s2)) /\
  calls (snd (Driver.wait E w crit secs s1)) = calls (snd (Driver.wait E w crit secs s2)) /\
  (trace s1 = trace s2 ->
   trace (snd (Driver.wait E w crit secs s1)) = trace (snd (Driver.wait E w crit secs s2))).
Proof.
  intros Hc Hn. unfold Driver.wait, bind, Driver.driver_call. rewrite Hn.
  destruct (fault E (calls s2)); [simpl; auto|].
  destruct (Driver.parse_criteria crit) as [fl|]; [|simpl; auto].
  cbn [clock set_calls]. rewrite Hc.
  destruct (Driver.poll E w fl (clock s2) (secs * 1000) (Driver.poll_fuel (secs * 1000))
              (clock s2)) as [[r t]|]; simpl; auto.
Qed.

(** Called without a timeout argument, [wait_for_element] of [1.py] is
    [wait_for_element] of [base_class.py] under the main window: the same
    result or exception, at the same instant, after the same driver calls;
    they differ only in what they log and attach. *)
Theorem blocking_variants_agree :
  forall (E : env) (c : config) (parent : spec) (loc : locator) (s : state),
    let b := Base.wait_for_element E c parent loc s in
    let o := One.wait_for_element E c loc None (set_main_window (Some parent) s) in
    fst b = fst o /\ clock (snd b) = clock (snd o) /\ calls (snd b) = calls (snd o) /\
    trace (snd b) = trace (snd o).
Proof.
  intros E c parent loc s. cbv zeta.
  destruct (Base.wait_for_element E c parent loc s) as [rb sb] eqn:B.
  destruct (One.wait_for_element E c loc None (set_main_window (Some parent) s))
    as [ro so] eqn:O.
  unfold Base.wait_for_element, try_except in B.
  unfold bind at 1 in B. unfold logger_info at 1, logger_log in B.
  unfold bind at 1 in B. unfold lift, subscript in B.
  unfold One.wait_for_element in O. unfold bind at 1 in O.
  unfold One.timeout_or_default, lift, subscript in O.
  destruct (default_timeout c) as [T|].
  - unfold bind at 1 in B.
    unfold try_except in O. unfold bind at 1 in O. unfold One.main_child_window in O.
    cbn [main_window set_main_window] in O. unfold bind at 1 in O.
    match type of B with
    | context [Driver.wait E ?w ?cr T ?a] =>
        match type of O with
        | context [Driver.wait E w cr T ?b] =>
            destruct (wait_depends_on_clock_and_calls E w cr T a b eq_refl eq_refl)
              as (R & C & N & Tr);
            specialize (Tr eq_refl);
            destruct (Driver.wait E w cr T a) as [[u1|e1] a1];
            destruct (Driver.wait E w cr T b) as [[u2|e2] b2];
            simpl in R, C, N, Tr; try discriminate
        end
    end.
    + facade_unfold B. facade_unfold O. inversion B; inversion O; subst. simpl. auto.
    + inversion R; subst e2.
      destruct (is_timeout e1); facade_unfold B; facade_unfold O;
        inversion B; inversion O; subst; simpl; auto.
  - facade_unfold B. inversion B; inversion O; subst. simpl. auto.
Qed.

(** ** Report attachments *)

Lemma wait_loop_preserves E end_time parent loc {X : Type} (proj : state -> X) :
  (forall n s, proj (set_calls n s) = proj s) ->
  (forall t s, proj (set_clock t s) = proj s) ->
  (forall l s, proj (set_log l s) = proj s) ->
  forall fuel s r s',
    Three.wait_loop E fuel end_time parent loc s = Some (r, s') -> proj s' = proj s.
Proof.
  intros Hc Ht Hl. induction fuel as [|fuel IH]; intros s r s' H; simpl in H.
  - destruct (clock s <? end_time); [discriminate|].
    unfold bind, logger_error, logger_log, raise in H. inversion H; subst. apply Hl.
  - destruct (clock s <? end_time).
    + destruct (Driver.wait E (child_window parent loc) "exists ready visible" 1 s)
        as [[u|e] s1] eqn:W;
        apply (preserves_wait E proj _ _ _ Hc Ht) in W.
      * inversion H; subst. exact W.
      * unfold time_sleep in H. apply IH in H. rewrite H, Ht. exact W.
    + unfold bind, logger_error, logger_log, raise in H. inversion H; subst. apply Hl.
Qed.

Lemma three_wait_preserves E c parent loc {X : Type} (proj : state -> X) :
  (forall n s, proj (set_calls n s) = proj s) ->
  (forall t s, proj (set_clock t s) = proj s) ->
  (forall l s, proj (set_log l s) = proj s) ->
  preserves proj (Three.wait_for_element E c parent loc).
Proof.
  intros Hc Ht Hl s r s' H.
  destruct (three_wait_for_element_loop E c parent loc s) as (r0 & s0 & L & W).
  rewrite W in H. inversion H; subst r0 s0.
  eapply wait_loop_preserves; eauto.
Qed.

Ltac frame_facade :=
  unfold Driver.start, Driver.set_focus, Driver.click_input, Driver.right_click_input,
    Driver.get_toggle_state, Driver.toggle, Driver.select, Driver.is_expanded,
    Driver.expand, Driver.type_keys, Driver.Application, Driver.Desktop, Driver.record,
    logger_info, logger_error, logger_warning, logger_log;
  repeat first
    [ apply three_wait_preserves; reflexivity
    | frame_step ].

Section Attachments.
Variable E : env.

Lemma reports_preserving {A : Type} (m : M A) :
  preserves attached m -> attaches_on_failure_only m.
Proof.
  intros P s r s' H. exists []. rewrite app_nil_r. split; [eapply P; eauto|reflexivity].
Qed.

Lemma reports_bind {A B : Type} (m : M A) (k : A -> M B) :
  attaches_on_failure_only m -> (forall a, attaches_on_failure_only (k a)) ->
  attaches_on_failure_only (bind m k).
Proof.
  intros Hm Hk s r s' H. unfold bind in H.
  destruct (m s) as [[a|e] s1] eqn:R.
  - destruct (Hm _ _ _ R) as (l1 & L1 & N1). destruct (Hk _ _ _ _ H) as (l2 & L2 & N2).
    exists (l1 ++ l2). split; [now rewrite L2, L1, app_assoc|].
    intros b Hb. now rewrite (N1 a eq_refl), (N2 b Hb).
  - inversion H; subst. destruct (Hm _ _ _ R) as (l1 & L1 & _).
    exists l1. split; [exact L1|]. intros b Hb. discriminate.
Qed.

Lemma reports_try {A : Type} (body : M A) (h : exn -> M A) :
  attaches_on_failure_only body ->
  (forall e s, exists s' l, h e s = (Raise e, s') /\ attached s' = attached s ++ l) ->
  attaches_on_failure_only (try_except body h).
Proof.
  intros Hb Hh s r s' H. unfold try_except in H.
  destruct (body s) as [[a|e] s1] eqn:R.
  - inversion H; subst. eapply Hb; eauto.
  - destruct (Hb _ _ _ R) as (l1 & L1 & _). destruct (Hh e s1) as (s2 & l2 & X & L2).
    rewrite X in H. inversion H; subst.
    exists (l1 ++ l2). split; [now rewrite L2, L1, app_assoc|]. intros b Hb'. discriminate.
Qed.

Ltac handler_attaches :=
  intros e0 s0;
  unfold bind, logger_error, logger_log, allure_attach, raise;
  try (progress (destruct (is_timeout e0)));
  do 2 eexists; (split; [reflexivity|simpl; reflexivity]).

Lemma reports_one c o : attaches_on_failure_only (One.run E c o).
Proof.
  destruct o; simpl; unfold One.returning_none;
    [unfold One.launch_application|unfold One.connect_to_main_window| |
     unfold One.click_element|unfold One.enter_text|unfold One.expand_tree_item|
     unfold One.right_click_element];
    unfold One.wait_for_element, One.timeout_or_default;
    repeat first
      [ apply reports_preserving;
        solve [ unfold One.main_child_window; frame_facade
              | unfold One.main_child_window; intros s r s' H;
                destruct (main_window s); now inversion H ]
      | apply reports_try; [|handler_attaches]
      | apply reports_bind; [|intros ?]
      | match goal with
        | |- attaches_on_failure_only (if ?b then _ else _) => destruct b
        | |- attaches_on_failure_only (match ?x with Some _ => _ | None => _ end) =>
            destruct x
        end ].
Qed.

End Attachments.

(** The facades of [base_class.py] and [3.py] never attach anything to the
    test report, whatever the outcome; in [1.py] an operation only adds
    attachments, and one that returns has added none. *)
Theorem attachments_only_in_one_and_on_failure :
  forall (E : env) (c : config),
    (forall o, preserves attached (Base.run E c o)) /\
    (forall o, preserves attached (Three.run E c o)) /\
    (forall o, attaches_on_failure_only (One.run E c o)).
Proof.
  intros E c. split; [|split].
  - intros o. destruct o; simpl; unfold Base.returning_none;
      [unfold Base.launch_application|unfold Base.connect_to_main_window| |
       unfold Base.click_element|unfold Base.enter_text|unfold Base.right_click_element|
       unfold Base.select_context_menu|unfold Base.wizard_next|unfold Base.wizard_finish|
       unfold Base.bring_window_to_front];
      unfold Base.wait_for_element; cbv zeta; frame_facade.
  - intros o. destruct o; simpl; unfold Three.returning_none;
      [unfold Three.launch_application, Three.connect_to_main_window
      |unfold Three.connect_to_main_window| |
       unfold Three.click_element|unfold Three.enter_text|unfold Three.set_checkbox|
       unfold Three.select_combobox];
      frame_facade.
  - intros o. apply reports_one.
Qed.

(** When [wait_for_element] of [1.py] raises a [TimeoutError], it has
    attached exactly one text to the report: [str] of the locator, under the
    name [Wait Timeout]. *)
Theorem timed_out_wait_attaches_the_locator :
  forall (E : env) (c : config) (loc : locator) (timeout : option Z) (s s' : state)
         (m : string),
    One.wait_for_element E c loc timeout s = (Raise (TimeoutError m), s') ->
    attached s' = attached s ++ [("Wait Timeout", show_locator loc)].
Proof.
  intros E c loc timeout s s' m H.
  unfold One.wait_for_element in H. unfold bind at 1 in H.
  destruct (One.timeout_or_default c timeout s) as [[T|e] s0] eqn:HT;
    pose proof (timeout_or_default_inv _ _ _ _ _ HT) as [-> K].
  - unfold try_except in H. unfold bind at 1 in H. unfold One.main_child_window in H.
    destruct (main_window s) as [parent|].
    + unfold bind at 1 in H.
      destruct (Driver.wait E (child_window parent loc) "exists enabled visible ready" T s)
        as [[[]|e] s1] eqn:W.
      * facade_unfold H. inversion H.
      * apply (preserves_wait E attached _ _ _ (fun _ _ => eq_refl) (fun _ _ => eq_refl)) in W.
        destruct e; simpl in H; facade_unfold H; inversion H; subst; simpl;
          now rewrite W.
    + simpl in H. facade_unfold H. inversion H.
  - destruct K as [(T & X & _)|(X & _)]; [discriminate|].
    inversion X; subst. inversion H.
Qed.

(** A run: the first row of the agents table, which the test of [3.py]
    finds by its index, is never there. *)
Lemma timed_out_wait_attaches_the_locator_witness :
  let first_row : locator := ["control_type" =: "DataItem"; "found_index" =: PInt 0] in
  exists s',
    One.wait_for_element never_there sample_config first_row None
      (set_main_window (Some jetadmin) fresh) = (Raise (TimeoutError "timed out"), s') /\
    attached s' = [("Wait Timeout", "{'control_type': 'DataItem', 'found_index': 0}")].
Proof.
  intros first_row. eexists. split; [vm_compute; reflexivity|].
  apply (timed_out_wait_attaches_the_locator never_there sample_config first_row None
           (set_main_window (Some jetadmin) fresh) _ "timed out").
  vm_compute. reflexivity.
Defined.

(** The text of a locator on values of each kind: a number and a truth
    value stand as they are, a string with an apostrophe stands in double
    quotes. *)
Example show_locator_values :
  show_locator ["title" =: "Don't save"; "found_index" =: PInt (-1);
                "visible_only" =: PBool false; "class_name" =: PNone]
  = ("{'title': " ++ String double_quote "Don't save" ++ String double_quote
       ", 'found_index': -1, 'visible_only': False, 'class_name': None}")%string.
Proof. reflexivity. Qed.
